(** * LemLib v0.4 path-file codec (src/format/LemLibFormatV0_4.tsx)

    A shallow embedding of [recoverPathFileData] (the decoder) and
    [exportPathFile] (the encoder) of the class [LemLibFormatV0_4], together
    with the part of the JavaScript runtime both rest on: binary64 numbers,
    [Number], [parseFloat], [toFixed], the conversion of a number to a
    string and [String.prototype.split].

    Texts are ASCII strings. Numbers are IEEE 754 binary64 values, taken
    from the Standard Library's [spec_float] with [prec = 53] and
    [emax = 1024]; the arithmetic rounds to nearest, ties to even, and the
    conversions between numbers and decimal texts are exact: [Number] gives
    the number nearest to the decimal it reads, [toString] the shortest
    decimal that reads back as the number, [toFixed] the decimal nearest to
    the number.

    A function that throws returns [inl] of the [Error] thrown. The
    application is a record of what the encoder asks of it: the path of
    interest, the sampled points of a path, the JSON text of the document.

    The classes of math/Path, math/Unit and app/Util are not part of the
    sources at hand; what the codec uses of them is modelled from the spec
    and marked so.

    The file has three parts: the definitions (runtime, geometry, decoder,
    encoder, vocabulary and examples), the lemmas on lines, tokens, printed
    numbers and the loop of the decoder, and the properties of the codec,
    each with an instance on a concrete text or path. *)

From Stdlib Require Import QArith Qabs Qpower Lqa.
From Stdlib Require Import ZArith List String Ascii Bool Lia.
From Stdlib Require Import SpecFloat DecimalString DecimalN.
Import ListNotations.

Local Open Scope string_scope.

(** ** The JavaScript runtime *)

Module JS.

(** *** Numbers *)

Definition number := spec_float.

Definition prec : Z := 53.
Definition emax : Z := 1024.

Definition NaN : number := S754_nan.
Definition Infinity : number := S754_infinity false.

Definition add : number -> number -> number := SFadd prec emax.
Definition sub : number -> number -> number := SFsub prec emax.
Definition mul : number -> number -> number := SFmul prec emax.
Definition div : number -> number -> number := SFdiv prec emax.
Definition sqrt : number -> number := SFsqrt prec emax.

(** The number nearest to the integer [z]. *)
Definition of_Z (z : Z) : number := binary_normalize prec emax z 0 false.

(** The number nearest to the rational [n / d]; both are exact integers, so
    the quotient is rounded once. *)
Definition of_ratio (neg : bool) (n d : positive) : number :=
  SFdiv prec emax (S754_finite neg n 0) (S754_finite false d 0).

(** The number nearest to [m * 10 ^ e]. *)
Definition of_decimal (neg : bool) (m : Z) (e : Z) : number :=
  match m with
  | Zpos p =>
      match e with
      | Zneg k => of_ratio neg p (Pos.pow 10 k)
      | Z0 => of_ratio neg p 1
      | Zpos k => of_ratio neg (p * Pos.pow 10 k) 1
      end
  | _ => S754_zero neg
  end.

Definition isNaN (x : number) : bool :=
  match x with S754_nan => true | _ => false end.

(** [a === b] and [a !== b] on numbers: NaN differs from itself, and the two
    zeros are equal. *)
Definition strict_eq (a b : number) : bool := SFeqb a b.
Definition strict_neq (a b : number) : bool := negb (strict_eq a b).

Definition lt (a b : number) : bool := SFltb a b.

Definition is_neg_zero (x : number) : bool :=
  match x with S754_zero true => true | _ => false end.

(** [Math.min] and [Math.max] of two arguments. *)
Definition Math_min (a b : number) : number :=
  if isNaN a || isNaN b then NaN
  else if lt a b then a
  else if lt b a then b
  else if is_neg_zero a then a else b.

Definition Math_max (a b : number) : number :=
  if isNaN a || isNaN b then NaN
  else if lt a b then b
  else if lt b a then a
  else if is_neg_zero a then b else a.

(** *** Decimal digits *)

Definition is_digit (c : ascii) : bool :=
  let n := nat_of_ascii c in (48 <=? n)%nat && (n <=? 57)%nat.

Definition digit_val (c : ascii) : Z := (Z.of_nat (nat_of_ascii c) - 48)%Z.

(** The decimal digits of a natural number, without leading zeros. *)
Definition digits_of_N (n : N) : string := NilZero.string_of_uint (N.to_uint n).

Definition digits_of_Z (z : Z) : string := digits_of_N (Z.to_N z).

Definition digits_of_nat (n : nat) : string := digits_of_N (N.of_nat n).

(** The longest prefix of decimal digits, and what follows it. *)
Fixpoint take_digits (s : string) : string * string :=
  match s with
  | String c s' =>
      if is_digit c then let '(d, r) := take_digits s' in (String c d, r)
      else (EmptyString, s)
  | EmptyString => (EmptyString, EmptyString)
  end.

Fixpoint digits_val (acc : Z) (s : string) : Z :=
  match s with
  | String c s' => digits_val (acc * 10 + digit_val c)%Z s'
  | EmptyString => acc
  end.

Fixpoint zeros (n : nat) : string :=
  match n with
  | O => EmptyString
  | S k => String "0" (zeros k)
  end.

(** *** [Number.prototype.toString] and template-literal conversion *)

(** The exact value of a positive finite number [m * 2 ^ e], as a fraction. *)
Definition fraction (m : positive) (e : Z) : Z * Z :=
  match e with
  | Zneg k => (Zpos m, Z.pow 2 (Zpos k))
  | _ => ((Zpos m * Z.pow 2 e)%Z, 1%Z)
  end.

(** The integer [n] with [10 ^ (n - 1) <= num / den < 10 ^ n]. *)
Fixpoint scale_up (fuel : nat) (num den : Z) (j : Z) : Z :=
  match fuel with
  | O => j
  | S f => if (den <=? num)%Z then j else scale_up f (num * 10)%Z den (j + 1)%Z
  end.

Definition decimal_exponent (num den : Z) : Z :=
  if (den <=? num)%Z
  then Z.of_nat (String.length (digits_of_Z (num / den)))
  else (1 - scale_up 400 (num * 10) den 1)%Z.

(** [num / den * 10 ^ p] as a fraction. *)
Definition scale10 (num den : Z) (p : Z) : Z * Z :=
  match p with
  | Zneg k => (num, (den * Z.pow 10 (Zpos k))%Z)
  | _ => ((num * Z.pow 10 p)%Z, den)
  end.

(** The [k]-digit decimals next to [x = num / den]: the significand [s] and
    the exponent [n] of [s * 10 ^ (n - k)], when one of them converts back to
    [x]; of two that do, the closer one, and the even one on a tie. *)
Definition candidate (x : number) (num den : Z) (n0 : Z) (k : Z)
  : option (Z * Z) :=
  let '(a, b) := scale10 num den (k - n0)%Z in
  let lo := (a / b)%Z in
  let r := (a mod b)%Z in
  let hi := (lo + 1)%Z in
  let back (s : Z) := match SFcompare (of_decimal false s (n0 - k)%Z) x with
                      | Some Eq => true
                      | _ => false
                      end in
  let norm (s : Z) := if (s =? Z.pow 10 k)%Z
                      then (Z.pow 10 (k - 1), n0 + 1)%Z else (s, n0) in
  match back lo, back hi with
  | true, true =>
      match (2 * r ?= b)%Z with
      | Lt => Some (lo, n0)
      | Gt => Some (norm hi)
      | Eq => if Z.even lo then Some (lo, n0) else Some (norm hi)
      end
  | true, false => Some (lo, n0)
  | false, true => Some (norm hi)
  | false, false => None
  end.

(** The least [k >= 1] for which a [k]-digit decimal converts back to [x]. *)
Fixpoint shortest (fuel : nat) (x : number) (num den n0 k : Z)
  : Z * Z * Z :=
  match candidate x num den n0 k with
  | Some (s, n) => (s, n, k)
  | None =>
      match fuel with
      | O => let '(a, b) := scale10 num den (k - n0)%Z in ((a / b)%Z, n0, k)
      | S f => shortest f x num den n0 (k + 1)%Z
      end
  end.

Definition exponent_part (n : Z) : string :=
  let e := (n - 1)%Z in
  "e" ++ (if (e <? 0)%Z then "-" else "+") ++ digits_of_Z (Z.abs e).

(** Steps 7 to 11 of Number::toString, from the digits [ds] of [s], their
    count [k] and the exponent [n]. *)
Definition layout (ds : string) (k n : Z) : string :=
  if ((k <=? n) && (n <=? 21))%Z then
    ds ++ zeros (Z.to_nat (n - k))
  else if ((0 <? n) && (n <=? 21))%Z then
    substring 0 (Z.to_nat n) ds ++ "." ++
    substring (Z.to_nat n) (Z.to_nat (k - n)) ds
  else if ((-6 <? n) && (n <=? 0))%Z then
    "0." ++ zeros (Z.to_nat (- n)) ++ ds
  else if (k =? 1)%Z then
    ds ++ exponent_part n
  else
    substring 0 1 ds ++ "." ++ substring 1 (Z.to_nat (k - 1)) ds
    ++ exponent_part n.

Definition toString_pos (m : positive) (e : Z) : string :=
  let '(num, den) := fraction m e in
  let n0 := decimal_exponent num den in
  let '(s, n, k) := shortest 20 (S754_finite false m e) num den n0 1 in
  layout (digits_of_Z s) k n.

(** [String(x)], [`${x}`] and [x + ""]. *)
Definition toString (x : number) : string :=
  match x with
  | S754_nan => "NaN"
  | S754_zero _ => "0"
  | S754_infinity s => if s then "-Infinity" else "Infinity"
  | S754_finite s m e => (if s then "-" else "") ++ toString_pos m e
  end.

(** *** [Number.prototype.toFixed] with three fraction digits *)

(** The integer nearest to [m * 2 ^ e * 1000], the larger one on a tie. *)
Definition round_milli (m : positive) (e : Z) : Z :=
  let '(num, den) := fraction m e in
  ((2 * (num * 1000) + den) / (2 * den))%Z.

Definition fixed3_digits (n : Z) : string :=
  let ds := digits_of_Z n in
  let k := String.length ds in
  let ds' := if (k <=? 3)%nat then zeros (4 - k) ++ ds else ds in
  let k' := String.length ds' in
  substring 0 (k' - 3) ds' ++ "." ++ substring (k' - 3) 3 ds'.

Definition toFixed3 (x : number) : string :=
  match x with
  | S754_nan => "NaN"
  | S754_infinity s => if s then "-Infinity" else "Infinity"
  | S754_zero _ => "0.000"
  | S754_finite s m e =>
      (if s then "-" else "") ++
      (if SFltb (S754_finite false m e) (of_decimal false 1 21)
       then fixed3_digits (round_milli m e)
       else toString_pos m e)
  end.

(** *** [Number(string)] and [parseFloat] *)

(** White space and line terminators among the characters of a string,
    which are the code units below 256: tab, line feed, vertical tab, form
    feed, carriage return, space and the no-break space U+00A0. *)
Definition is_space (c : ascii) : bool :=
  let n := nat_of_ascii c in
  (n =? 9)%nat || (n =? 10)%nat || (n =? 11)%nat || (n =? 12)%nat
  || (n =? 13)%nat || (n =? 32)%nat || (n =? 160)%nat.

Fixpoint trim_start (s : string) : string :=
  match s with
  | String c s' => if is_space c then trim_start s' else s
  | EmptyString => EmptyString
  end.

Fixpoint all_space (s : string) : bool :=
  match s with
  | String c s' => is_space c && all_space s'
  | EmptyString => true
  end.

Fixpoint trim_end (s : string) : string :=
  match s with
  | String c s' => if all_space s then EmptyString else String c (trim_end s')
  | EmptyString => EmptyString
  end.

Definition trim (s : string) : string := trim_end (trim_start s).

Definition take_sign (s : string) : bool * string :=
  match s with
  | String "-" s' => (true, s')
  | String "+" s' => (false, s')
  | _ => (false, s)
  end.

(** An exponent part [e], [e+] or [e-] followed by digits, when [s] starts
    with one: its value and what follows. *)
Definition take_exponent (s : string) : option (Z * string) :=
  match s with
  | String c s' =>
      if (nat_of_ascii c =? 101)%nat || (nat_of_ascii c =? 69)%nat then
        let '(neg, s'') := take_sign s' in
        let '(ds, r) := take_digits s'' in
        match ds with
        | EmptyString => None
        | _ => Some ((if neg then - digits_val 0 ds else digits_val 0 ds)%Z, r)
        end
      else None
  | EmptyString => None
  end.

(** The longest prefix of [s1] that is an unsigned StrDecimalLiteral, with
    the sign [neg] read before it: its value and what follows it. *)
Definition scan_unsigned (neg : bool) (s1 : string) : option (number * string) :=
  if prefix "Infinity" s1 then
    Some (S754_infinity neg, substring 8 (String.length s1 - 8) s1)
  else
    let '(ip, r1) := take_digits s1 in
    let '(fp, r2) :=
      match r1 with
      | String "." r => take_digits r
      | _ => (EmptyString, r1)
      end in
    match ip, fp with
    | EmptyString, EmptyString => None
    | _, _ =>
        let m := digits_val 0 (ip ++ fp) in
        let '(ex, r3) := match take_exponent r2 with
                         | Some (v, r) => (v, r)
                         | None => (0%Z, r2)
                         end in
        Some (of_decimal neg m (ex - Z.of_nat (String.length fp))%Z, r3)
    end.

(** The longest prefix of [s] that is a StrDecimalLiteral: its value and
    what follows it. *)
Definition scan_decimal (s : string) : option (number * string) :=
  let '(neg, s1) := take_sign s in scan_unsigned neg s1.

Definition parseFloat (s : string) : number :=
  match scan_decimal (trim_start s) with
  | Some (v, _) => v
  | None => NaN
  end.

(** Digits of the radix-prefixed integer literals [0x], [0o] and [0b]. *)
Definition radix_digit (radix : Z) (c : ascii) : option Z :=
  let n := Z.of_nat (nat_of_ascii c) in
  let v := if ((48 <=? n) && (n <=? 57))%Z then (n - 48)%Z
           else if ((97 <=? n) && (n <=? 102))%Z then (n - 87)%Z
           else if ((65 <=? n) && (n <=? 70))%Z then (n - 55)%Z
           else 99%Z in
  if (v <? radix)%Z then Some v else None.

Fixpoint radix_val (radix : Z) (acc : Z) (s : string) : option Z :=
  match s with
  | String c s' =>
      match radix_digit radix c with
      | Some v => radix_val radix (acc * radix + v)%Z s'
      | None => None
      end
  | EmptyString => Some acc
  end.

Definition radix_literal (s : string) : option number :=
  match s with
  | String "0" (String c (String d r)) =>
      let n := nat_of_ascii c in
      let radix := if (n =? 120)%nat || (n =? 88)%nat then 16%Z
                   else if (n =? 111)%nat || (n =? 79)%nat then 8%Z
                   else if (n =? 98)%nat || (n =? 66)%nat then 2%Z
                   else 0%Z in
      if (radix =? 0)%Z then None
      else match radix_val radix 0 (String d r) with
           | Some v => Some (of_Z v)
           | None => Some NaN
           end
  | _ => None
  end.

(** [Number(s)] for a string [s]. *)
Definition Number (s : string) : number :=
  let t := trim s in
  match t with
  | EmptyString => S754_zero false
  | _ =>
      match radix_literal t with
      | Some v => v
      | None =>
          match scan_decimal t with
          | Some (v, EmptyString) => v
          | _ => NaN
          end
      end
  end.

(** *** [String.prototype.split] with a non-empty separator *)

(** [skip] counts the characters of a separator just matched that are still
    to be passed over; [cur] is the token being read. *)
Fixpoint split_from (sep : string) (skip : nat) (cur : string) (s : string)
  : list string :=
  match s with
  | EmptyString => [cur]
  | String c s' =>
      match skip with
      | S k => split_from sep k cur s'
      | O =>
          if prefix sep s
          then cur :: split_from sep (String.length sep - 1) EmptyString s'
          else split_from sep 0 (cur ++ String c EmptyString) s'
      end
  end.

Definition split (sep s : string) : list string :=
  split_from sep 0 EmptyString s.

(** [Array.prototype.findIndex]; [None] stands for [-1]. *)
Fixpoint findIndex {A : Type} (p : A -> bool) (l : list A) : option nat :=
  match l with
  | [] => None
  | a :: l' => if p a then Some 0%nat else option_map S (findIndex p l')
  end.

(** *** Exceptions *)

(** [new Error(message)]; a function that throws returns [inl] of it. *)
Record Error := new_Error { message : string }.

Definition bind {A B : Type} (r : Error + A) (k : A -> Error + B) : Error + B :=
  match r with
  | inl e => inl e
  | inr a => k a
  end.

End JS.

Import JS.

Notation "'let*' a ':=' r 'in' k" := (bind r (fun a => k))
  (at level 10, a name, r at level 100, k at level 200).

(** ** The geometry and configuration the codec works on *)

(** *** math/Path: vectors, controls, splines, paths *)

(** Modelled from the spec: the [Vector] of math/Path, a pair of
    coordinates. *)
Record Vector := new_Vector { x : number; y : number }.

(** Modelled from the spec: [Vector.add], by component. *)
Definition Vector_add (a b : Vector) : Vector :=
  new_Vector (add (x a) (x b)) (add (y a) (y b)).

(** Modelled from the spec: the difference of two vectors, by component. *)
Definition Vector_subtract (a b : Vector) : Vector :=
  new_Vector (sub (x a) (x b)) (sub (y a) (y b)).

(** Modelled from the spec: [Vector.divide], by component. *)
Definition Vector_divide (a b : Vector) : Vector :=
  new_Vector (div (x a) (x b)) (div (y a) (y b)).

(** Modelled from the spec: [Vector.distance], the Euclidean distance. *)
Definition Vector_distance (a b : Vector) : number :=
  let dx := sub (x a) (x b) in
  let dy := sub (y a) (y b) in
  sqrt (add (mul dx dx) (mul dy dy)).

(** Modelled from the spec: [Vector.interpolate], the point at [distance]
    from [self] toward [other], not necessarily between them:
    [self + (other - self) * (distance / |other - self|)]. *)
Definition Vector_interpolate (self other : Vector) (distance : number)
  : Vector :=
  let ratio := div distance (Vector_distance self other) in
  let d := Vector_subtract other self in
  new_Vector (add (x self) (mul (x d) ratio)) (add (y self) (mul (y d) ratio)).

(** Modelled from the spec: [Control] and [EndPointControl] of math/Path.
    An interior control is a [Vector]; an end-point control also carries a
    heading. *)
Definition Control := Vector.

Record EndPointControl :=
  new_EndPointControl_at { position : Vector; heading : number }.

(** [new Control(x, y)] and [new EndPointControl(x, y, heading)]. *)
Definition new_Control (x y : number) : Control := new_Vector x y.

Definition new_EndPointControl (x y heading : number) : EndPointControl :=
  new_EndPointControl_at (new_Vector x y) heading.

(** Modelled from the spec: [Spline] of math/Path, built by
    [new Spline(first, interior, last)]: its first and last controls are end
    points, those between them are plain controls. *)
Record Spline := new_Spline {
  first : EndPointControl;
  interior : list Control;
  last : EndPointControl
}.

(** [spline.controls]: the first end point, the interior controls, the last
    end point. *)
Definition controls (s : Spline) : list Vector :=
  (position (first s) :: interior s ++ [position (last s)])%list.

(** Modelled from the spec: a sampled point of a path, a [Vector] with a
    speed; the heading, which the format does not write, is left out. *)
Record Point := new_Point { vector : Vector; speed : number }.

(** *** app/RangeSlider and format/Config *)

(** The range of the speed limit, as [PathConfigImpl] fills it in. *)
Record Mark := new_Mark { value : number; label : string }.

Record NumberRange := new_NumberRange {
  minLimit : Mark;
  maxLimit : Mark;
  step : number;
  from : number;
  to : number
}.

(** [range.to = v]. *)
Definition set_to (r : NumberRange) (v : number) : NumberRange :=
  new_NumberRange (minLimit r) (maxLimit r) (step r) (from r) v.

(** The path configuration, by its [speedLimit]: the only field the codec
    reads or writes. The [applicationRange], which the constructor rescales
    to the point density, is left out. *)
Record PathConfig := new_PathConfig { speedLimit : NumberRange }.

(** Modelled from the spec: [Path] of math/Path, a configuration and a
    sequence of splines. *)
Record Path := new_Path_with { pc : PathConfig; splines : list Spline }.

(** [new Path(pc, spline)]. *)
Definition new_Path (pc : PathConfig) (spline : Spline) : Path :=
  new_Path_with pc [spline].

(** Modelled from the spec: [clamp] of app/Util, which brings a value into
    [[min, max]]; the earlier revision of the decoder writes it out as
    [Math.max(Math.min(value, max), min)]. *)
Definition clamp (value min max : number) : number :=
  Math_max (Math_min value max) min.

(** *** math/Unit *)

(** Modelled from the spec: the units of length that the spec names. *)
Inductive UnitOfLength := Inch | Centimeter.

(** Modelled from the spec: the length of a unit, in inches. *)
Definition inches (u : UnitOfLength) : number :=
  match u with
  | Inch => of_Z 1
  | Centimeter => of_ratio false 100 254
  end.

(** Modelled from the spec: the [UnitConverter] between two units, a linear
    conversion whose results [fixPrecision] rounds to three decimals, by
    [toFixed] and [parseFloat]. *)
Record UnitConverter := new_UnitConverter { aUOL : UnitOfLength; bUOL : UnitOfLength }.

(** Modelled from the spec: [parseFloat(some.toFixed(3))]. *)
Definition fixPrecision (some : number) : number := parseFloat (toFixed3 some).

(** Modelled from the spec: from the first unit to the second. *)
Definition fromAtoB (uc : UnitConverter) (a : number) : number :=
  fixPrecision (div (mul a (inches (aUOL uc))) (inches (bUOL uc))).

(** Modelled from the spec: from the second unit to the first. *)
Definition fromBtoA (uc : UnitConverter) (b : number) : number :=
  fixPrecision (div (mul b (inches (bUOL uc))) (inches (aUOL uc))).

(** *** The format object *)

Record GeneralConfig := new_GeneralConfig {
  robotWidth : number;
  robotHeight : number;
  showRobot : bool;
  uol : UnitOfLength;
  pointDensity : number;
  controlMagnetDistance : number
}.

(** [new GeneralConfigImpl(format)]. *)
Definition GeneralConfigImpl : GeneralConfig :=
  new_GeneralConfig (of_Z 12) (of_Z 12) true Inch (of_Z 2)
    (div (of_Z 5) (of_ratio false 254 100)).

Record LemLibFormatV0_4 := new_LemLibFormatV0_4 {
  isInit : bool;
  uid : string;
  gc : GeneralConfig
}.

Definition getGeneralConfig (this : LemLibFormatV0_4) : GeneralConfig := gc this.

(** [new PathConfigImpl(format)], by its speed limit. *)
Definition PathConfigImpl : PathConfig :=
  new_PathConfig
    (new_NumberRange (new_Mark (of_Z 0) "0") (new_Mark (of_Z 127) "127")
       (of_Z 1) (of_Z 20) (of_Z 100)).

Definition buildPathConfig (this : LemLibFormatV0_4) : PathConfig := PathConfigImpl.

Record PathFileData := new_PathFileData { pfd_gc : GeneralConfig; paths : list Path }.

(** The application, as far as the encoder asks it: the path of interest,
    the sampled points of a path ([path.calculatePoints(gc).points]) and the
    text of [JSON.stringify(app.exportPathFileData())]. *)
Record MainApp := new_MainApp {
  interestedPath : option Path;
  calculatePoints : Path -> GeneralConfig -> list Point;
  exportPathFileData : string
}.

(** ** The decoder: [recoverPathFileData] *)

Definition sentinel : string := "endData".

(** The closure [error] at line index [i]: it throws, naming line [i + 1]. *)
Definition error (i : nat) : Error :=
  new_Error ("Invalid file format, unable to parse spline at line "
             ++ digits_of_nat (i + 1)).

(** The closure [num] at line index [i]. *)
Definition num (i : nat) (str : string) : Error + number :=
  let num := Number str in
  if isNaN num then inl (error i) else inr (parseFloat (toFixed3 num)).

(** [array[array.length - 1]], when the array is not empty. *)
Definition last_of {A : Type} (l : list A) : option A :=
  nth_error l (List.length l - 1).

(** Reading a property of [undefined] throws a TypeError. *)
Definition TypeError : Error :=
  new_Error "Cannot read properties of undefined".

(** The closure [push] at line index [i]: the new contents of [paths]. *)
Definition push (this : LemLibFormatV0_4) (maxSpeed : number) (i : nat)
    (paths : list Path) (spline : Spline) : Error + list Path :=
  if (List.length paths =? 0)%nat then
    let path := new_Path (buildPathConfig this) spline in
    let sl := speedLimit (pc path) in
    let path :=
      new_Path_with
        (new_PathConfig
           (set_to sl (clamp (Number (toFixed3 maxSpeed))
                         (value (minLimit sl)) (value (maxLimit sl)))))
        (splines path) in
    inr (paths ++ [path])%list
  else
    match last_of paths with
    | None => inl TypeError
    | Some path =>
        match last_of (splines path) with
        | None => inl TypeError
        | Some lastSpline =>
            let a := position (last lastSpline) in
            let b := position (first spline) in
            if strict_neq (x a) (x b) || strict_neq (y a) (y b)
            then inl (error i)
            else inr (removelast paths
                        ++ [new_Path_with (pc path) (splines path ++ [spline])])%list
        end
    end.

(** The body of the [while] loop up to the call of [push]: the spline of
    the line at index [i]. *)
Definition parse_spline (i : nat) (line : string) : Error + Spline :=
  let tokens := split ", " line in
  match tokens with
  | [t0; t1; t2; t3; t4; t5; t6; t7] =>
      let* x1 := num i t0 in let* y1 := num i t1 in
      let p1 := new_EndPointControl x1 y1 (of_Z 0) in
      let* x2 := num i t2 in let* y2 := num i t3 in
      let p2 := new_Control x2 y2 in
      let* x3 := num i t4 in let* y3 := num i t5 in
      let p3 := new_Control x3 y3 in
      let* x4 := num i t6 in let* y4 := num i t7 in
      let p4 := new_EndPointControl x4 y4 (of_Z 0) in
      inr (new_Spline p1 [p2; p3] p4)
  | _ => inl (error i)
  end.

(** The [while] loop, from index [i] over the lines [rest] that it still
    has to read, which are the lines at the indices [i] to
    [lines.length - 2]. *)
Fixpoint scan (this : LemLibFormatV0_4) (maxSpeed : number) (i : nat)
    (rest : list string) (paths : list Path) : Error + list Path :=
  match rest with
  | [] => inr paths
  | line :: rest' =>
      let* spline := parse_spline i line in
      let* paths' := push this maxSpeed i paths spline in
      scan this maxSpeed (S i) rest' paths'
  end.

(** The lines at the indices [i] to [lines.length - 2]. *)
Definition lines_from (lines : list string) (i : nat) : list string :=
  firstn (List.length lines - 1 - i) (skipn i lines).

(** [lines[i + 2]] is [undefined] when the text has no such line, and
    [Number(undefined)] is NaN. *)
Definition recoverPathFileData (this : LemLibFormatV0_4) (fileContent : string)
  : Error + PathFileData :=
  let lines := split (String "010" EmptyString) fileContent in
  match findIndex (fun line => String.eqb line sentinel) lines with
  | None => inl (new_Error "Invalid file format, unable to find line 'endData'")
  | Some i =>
      let maxSpeed := match nth_error lines (i + 2) with
                      | Some line => Number line
                      | None => NaN
                      end in
      if isNaN maxSpeed
      then inl (new_Error "Invalid file format, unable to parse max speed")
      else
        let i := (i + 4)%nat in
        let* paths := scan this maxSpeed i (lines_from lines i) [] in
        inr (new_PathFileData (gc this) paths)
  end.

(** ** The encoder: [exportPathFile] *)

Definition nl : string := String "010" EmptyString.

(** The line of a sampled point. *)
Definition point_line (uc : UnitConverter) (point : Point) : string :=
  toString (fromAtoB uc (x (vector point))) ++ ", "
  ++ toString (fromAtoB uc (y (vector point))) ++ ", "
  ++ toString (fixPrecision (speed point)) ++ nl.

(** The line of the ghost point. *)
Definition ghost_line (uc : UnitConverter) (ghostPoint : Vector) : string :=
  toString (fromAtoB uc (x ghostPoint)) ++ ", "
  ++ toString (fromAtoB uc (y ghostPoint)) ++ ", 0" ++ nl.

(** The inner function [output], as the text it appends. *)
Definition output (uc : UnitConverter) (control : Vector) (postfix : string)
  : string :=
  toString (fromAtoB uc (x control)) ++ ", "
  ++ toString (fromAtoB uc (y control)) ++ postfix.

(** The body of the loop over the splines, as the text it appends. *)
Definition spline_text (uc : UnitConverter) (spline : Spline) : string :=
  match controls spline with
  | [c0; c1; c2; c3] =>
      output uc c0 ", " ++ output uc c1 ", " ++ output uc c2 ", "
      ++ output uc c3 nl
  | [c0; c1] =>
      let center :=
        Vector_divide (Vector_add c0 c1) (new_Vector (of_Z 2) (of_Z 2)) in
      output uc c0 ", " ++ output uc center ", " ++ output uc center ", "
      ++ output uc c1 nl
  | _ => EmptyString
  end.

(** The block guarded by [points.length > 1], as the text it appends. *)
Definition ghost_block (uc : UnitConverter) (points : list Point) : string :=
  if (1 <? List.length points)%nat then
    match nth_error points (List.length points - 2),
          nth_error points (List.length points - 1) with
    | Some last2, Some last1 =>
        let ghostPoint :=
          Vector_interpolate (vector last2) (vector last1)
            (add (Vector_distance (vector last2) (vector last1))
               (fromBtoA uc (of_Z 20))) in
        ghost_line uc ghostPoint
    | _, _ => EmptyString
    end
  else EmptyString.

Definition exportPathFile (this : LemLibFormatV0_4) (app : MainApp)
  : Error + string :=
  let rtn := EmptyString in
  match interestedPath app with
  | None => inl (new_Error "No path to export")
  | Some path =>
      if (List.length (splines path) =? 0)%nat
      then inl (new_Error "No spline to export")
      else
        let uc := new_UnitConverter (uol (gc this)) Inch in
        let points := calculatePoints app path (gc this) in
        let rtn := fold_left (fun rtn point => rtn ++ point_line uc point)
                     points rtn in
        let rtn := rtn ++ ghost_block uc points in
        let rtn := rtn ++ "endData" ++ nl in
        let rtn := rtn ++ "200" ++ nl in
        let rtn := rtn ++ toString (to (speedLimit (pc path))) ++ nl in
        let rtn := rtn ++ "200" ++ nl in
        let rtn := fold_left (fun rtn spline => rtn ++ spline_text uc spline)
                     (splines path) rtn in
        let rtn := rtn ++ "#PATH.JERRYIO-DATA " ++ exportPathFileData app in
        inr rtn
  end.

(** ** Vocabulary of the statements *)

(** [contains c s]: the character [c] occurs in [s]. *)
Fixpoint contains (c : ascii) (s : string) : bool :=
  match s with
  | EmptyString => false
  | String d s' => Ascii.eqb c d || contains c s'
  end.

Definition newline : ascii := "010"%char.

Definition comma : ascii := ","%char.

(** [all_chars p s]: every character of [s] satisfies [p]. *)
Fixpoint all_chars (p : ascii -> bool) (s : string) : bool :=
  match s with
  | EmptyString => true
  | String c s' => p c && all_chars p s'
  end.

(** The characters of which the text of a number is made. *)
Definition number_char (c : ascii) : bool :=
  is_digit c || contains c ".e+-InfityNa".

(** The three ways in which the decoder fails. *)
Definition MissingSentinel : Error :=
  new_Error "Invalid file format, unable to find line 'endData'".

Definition InvalidMaxSpeed : Error :=
  new_Error "Invalid file format, unable to parse max speed".

Definition is_sentinel (line : string) : bool := String.eqb line sentinel.

(** The state of the loop after at least one line is read: exactly one
    path, and that path has a spline. *)
Definition one_path (ps : list Path) : Prop :=
  exists path sp, ps = [path] /\ last_of (splines path) = Some sp.

(** A format object and the texts of the examples. *)
Definition format0 : LemLibFormatV0_4 :=
  new_LemLibFormatV0_4 false "abcdefghij" GeneralConfigImpl.

Definition header (maxSpeed : string) : string :=
  "endData" ++ nl ++ "200" ++ nl ++ maxSpeed ++ nl ++ "200" ++ nl.

Definition line_a : string := "0, 0, 1, 1, 2, 2, 3, 3".
Definition line_b : string := "3, 3, 4, 4, 5, 5, 6, 7".

(** No sentinel. *)
Definition text_no_sentinel : string :=
  "0, 0, 50" ++ nl ++ "200" ++ nl ++ "100" ++ nl ++ "200" ++ nl ++ line_a ++ nl.

(** A second spline line of seven tokens, of nine tokens, and one with a
    token that is not a number; it is line 6 of the text. *)
Definition text_seven : string :=
  header "100" ++ line_a ++ nl ++ "3, 3, 4, 4, 5, 5, 6" ++ nl.

Definition text_nine : string :=
  header "100" ++ line_a ++ nl ++ "3, 3, 4, 4, 5, 5, 6, 7, 8" ++ nl.

Definition text_word : string :=
  header "100" ++ line_a ++ nl ++ "3, 3, 4, 4, five, 5, 6, 7" ++ nl.

(** A second spline line that is well formed and starts at (3.5, 3), where
    the first spline ends at (3, 3). *)
Definition text_gap : string :=
  header "100" ++ line_a ++ nl ++ "3.5, 3, 4, 4, 5, 5, 6, 7" ++ nl.

(** Two continuous splines, with several maximum speeds. *)
Definition text_two (maxSpeed : string) : string :=
  header maxSpeed ++ line_a ++ nl ++ line_b ++ nl.

(** The texts of a list, one after the other. *)
Definition join (l : list string) : string := fold_right append EmptyString l.

(** What the encoder writes after the sentinel line. *)
Definition after_sentinel (uc : UnitConverter) (path : Path) (json : string)
  : string :=
  "200" ++ nl ++ toString (to (speedLimit (pc path))) ++ nl ++ "200" ++ nl
  ++ join (map (spline_text uc) (splines path))
  ++ "#PATH.JERRYIO-DATA " ++ json.

(** A straight spline from (0, 0) to (10, 0), a path made of it, and an
    application that samples the points (10, 0) and (14, 0) on it. *)
Definition straight : Spline :=
  new_Spline (new_EndPointControl (of_Z 0) (of_Z 0) (of_Z 0)) []
    (new_EndPointControl (of_Z 10) (of_Z 0) (of_Z 0)).

Definition path_straight : Path := new_Path PathConfigImpl straight.

Definition points_two : list Point :=
  [new_Point (new_Vector (of_Z 10) (of_Z 0)) (of_Z 50);
   new_Point (new_Vector (of_Z 14) (of_Z 0)) (of_Z 50)].

Definition app_with (path : Path) (points : list Point) : MainApp :=
  new_MainApp (Some path) (fun _ _ => points) "{}".

Definition inch_to_inch : UnitConverter := new_UnitConverter Inch Inch.

(** The controls whose coordinates the encoder writes for a spline: the
    four controls of a cubic spline and, for a spline of two controls, its
    ends with the middle between them, twice. *)
Definition written (s : Spline) : list Vector :=
  match controls s with
  | [c0; c1] =>
      let center :=
        Vector_divide (Vector_add c0 c1) (new_Vector (of_Z 2) (of_Z 2)) in
      [c0; center; center; c1]
  | cs => cs
  end.

(** A spline of two or of four controls. *)
Definition two_or_four (s : Spline) : Prop :=
  List.length (interior s) = 0%nat \/ List.length (interior s) = 2%nat.

(** What the decoder makes of a number that the encoder has written: the
    number read by [Number] and rounded to three decimals. *)
Definition reread (v : number) : number :=
  parseFloat (toFixed3 (Number (toString v))).

(** The written number is read back as a number, and so is its rounding. *)
Definition rereads (v : number) : bool :=
  negb (isNaN (Number (toString v))) && negb (isNaN (reread v)).

Definition spline_rereads (uc : UnitConverter) (s : Spline) : bool :=
  forallb (fun c => rereads (fromAtoB uc (x c)) && rereads (fromAtoB uc (y c)))
    (written s).

(** The spline that the decoder builds from the line of a spline. *)
Definition decoded (uc : UnitConverter) (s : Spline) : Spline :=
  match written s with
  | [w0; w1; w2; w3] =>
      let rx c := reread (fromAtoB uc (x c)) in
      let ry c := reread (fromAtoB uc (y c)) in
      new_Spline (new_EndPointControl (rx w0) (ry w0) (of_Z 0))
        [new_Control (rx w1) (ry w1); new_Control (rx w2) (ry w2)]
        (new_EndPointControl (rx w3) (ry w3) (of_Z 0))
  | _ => s
  end.

(** The line of a spline, without the newline that ends it. *)
Definition spline_line (uc : UnitConverter) (s : Spline) : string :=
  match written s with
  | [w0; w1; w2; w3] =>
      let tx c := toString (fromAtoB uc (x c)) in
      let ty c := toString (fromAtoB uc (y c)) in
      tx w0 ++ ", " ++ ty w0 ++ ", " ++ tx w1 ++ ", " ++ ty w1 ++ ", "
      ++ tx w2 ++ ", " ++ ty w2 ++ ", " ++ tx w3 ++ ", " ++ ty w3
  | _ => EmptyString
  end.

(** Adjacent splines share their end point. *)
Fixpoint continuous (ss : list Spline) : Prop :=
  match ss with
  | s1 :: (s2 :: _) as rest =>
      position (last s1) = position (first s2) /\ continuous rest
  | _ => True
  end.

(** The spline [prev], just decoded, and the splines [ss] still to be
    decoded pass the continuity check of [push] one after the other. *)
Fixpoint linked (uc : UnitConverter) (prev : Spline) (ss : list Spline) : Prop :=
  match ss with
  | [] => True
  | s :: rest =>
      strict_neq (x (position (last prev))) (x (position (first (decoded uc s))))
      || strict_neq (y (position (last prev))) (y (position (first (decoded uc s))))
      = false
      /\ linked uc (decoded uc s) rest
  end.

(** The line of a sampled point and the lines of the ghost block, without
    the newline that ends them. *)
Definition point_body (uc : UnitConverter) (point : Point) : string :=
  toString (fromAtoB uc (x (vector point))) ++ ", "
  ++ toString (fromAtoB uc (y (vector point))) ++ ", "
  ++ toString (fixPrecision (speed point)).

Definition ghost_lines (uc : UnitConverter) (points : list Point)
  : list string :=
  if (1 <? List.length points)%nat then
    match nth_error points (List.length points - 2),
          nth_error points (List.length points - 1) with
    | Some last2, Some last1 =>
        let ghostPoint :=
          Vector_interpolate (vector last2) (vector last1)
            (add (Vector_distance (vector last2) (vector last1))
               (fromBtoA uc (of_Z 20))) in
        [toString (fromAtoB uc (x ghostPoint)) ++ ", "
         ++ toString (fromAtoB uc (y ghostPoint)) ++ ", 0"]
    | _, _ => []
    end
  else [].

(** The path that the decoder builds from the export of [path]. *)
Definition decoded_path (this : LemLibFormatV0_4) (uc : UnitConverter)
    (path : Path) : Path :=
  new_Path_with
    (new_PathConfig
       (set_to (speedLimit (buildPathConfig this))
          (clamp (Number (toFixed3 (Number (toString (to (speedLimit (pc path)))))))
             (of_Z 0) (of_Z 127))))
    (map (decoded uc) (splines path)).

(** A path in centimetres: the straight spline, then a cubic spline that
    starts where it ends. *)
Definition bend : Spline :=
  new_Spline (new_EndPointControl (of_Z 10) (of_Z 0) (of_Z 0))
    [new_Control (of_decimal false 125 (-1)) (of_Z 1);
     new_Control (of_Z 14) (of_decimal false 31 (-1))]
    (new_EndPointControl (of_decimal false 155 (-1)) (of_Z 5) (of_Z 90)).

Definition path_bend : Path := new_Path_with PathConfigImpl [straight; bend].

Definition format_cm : LemLibFormatV0_4 :=
  new_LemLibFormatV0_4 true "klmnopqrst"
    (new_GeneralConfig (of_Z 30) (of_Z 30) true Centimeter (of_Z 5) (of_Z 5)).

(** The shape of a printed number: digits, then maybe a point and digits,
    then maybe an exponent part. *)
Definition starts_with_digit (s : string) : bool :=
  match s with
  | String c _ => is_digit c
  | EmptyString => false
  end.

Definition number_tail (t : string) : Prop :=
  t = EmptyString \/ exists n, t = exponent_part n.

Definition decimal_text (s : string) : Prop :=
  exists a t,
    all_chars is_digit a = true /\ starts_with_digit a = true /\ number_tail t
    /\ (s = a ++ t
        \/ exists b, all_chars is_digit b = true /\ s = a ++ "." ++ b ++ t).

(** [Number.isFinite]. *)
Definition isFinite (v : number) : bool :=
  match v with
  | S754_zero _ | S754_finite _ _ _ => true
  | _ => false
  end.

(** All the coordinates of the controls of a spline are finite. *)
Definition finite_controls (s : Spline) : bool :=
  forallb (fun c => isFinite (x c) && isFinite (y c)) (controls s).

(** The paths of a decoded text, and [[]] when the decoder throws. *)
Definition paths_of (r : Error + PathFileData) : list Path :=
  match r with
  | inr data => paths data
  | inl _ => []
  end.

Definition scanned (r : Error + list Path) : list Path :=
  match r with
  | inr ps => ps
  | inl _ => []
  end.

(** ** Vocabulary of the invariants, the accepted texts and the written splines *)

(** A spline as the decoder builds it: two interior controls, end points
    of heading 0, and no coordinate that is NaN. *)
Definition decoder_spline (s : Spline) : Prop :=
  List.length (interior s) = 2%nat
  /\ heading (first s) = of_Z 0 /\ heading (last s) = of_Z 0
  /\ Forall (fun c => isNaN (x c) = false /\ isNaN (y c) = false) (controls s).

(** Each spline starts where the one before it ends, for [===]. *)
Fixpoint joined (ss : list Spline) : Prop :=
  match ss with
  | s1 :: (s2 :: _) as rest =>
      (strict_eq (x (position (last s1))) (x (position (first s2))) = true
       /\ strict_eq (y (position (last s1))) (y (position (first s2))) = true)
      /\ joined rest
  | _ => True
  end.

(** What the loop of the decoder keeps true of [paths]: it is empty, or it
    holds one path, whose splines are decoder splines that join. *)
Definition loop_invariant (ps : list Path) : Prop :=
  ps = [] \/ exists p, ps = [p] /\ splines p <> []
                       /\ Forall decoder_spline (splines p)
                       /\ joined (splines p).

(** The number of splines of all the paths. *)
Definition spline_count (ps : list Path) : nat :=
  list_sum (map (fun p => List.length (splines p)) ps).

(** The text of the lines [L], each ended by a newline, followed by a last
    line [t]. *)
Definition unlines (L : list string) (t : string) : string :=
  join (map (fun l => l ++ nl) L) ++ t.

Definition one_line (l : string) : Prop := contains newline l = false.

(** The numbers of a spline line: its tokens, when they are eight and all
    numbers, each rounded to three decimals. *)
Definition line_values (line : string) : option (list number) :=
  let tokens := split ", " line in
  if (List.length tokens =? 8)%nat
     && forallb (fun t => negb (isNaN (Number t))) tokens
  then Some (map (fun t => parseFloat (toFixed3 (Number t))) tokens)
  else None.

(** Every line has its eight numbers, and each line after the first starts
    with the two numbers that the line before it ends with; [prev] holds
    the last two numbers of the line before. *)
Fixpoint chained (prev : option (number * number)) (ls : list string) : bool :=
  match ls with
  | [] => true
  | l :: rest =>
      match line_values l with
      | Some vs =>
          match prev with
          | None => true
          | Some (px, py) =>
              strict_eq px (nth 0 vs NaN) && strict_eq py (nth 1 vs NaN)
          end
          && chained (Some (nth 6 vs NaN, nth 7 vs NaN)) rest
      | None => false
      end
  end.

(** The texts that the decoder accepts, told from their lines alone. *)
Definition accepted (text : string) : bool :=
  let lines := split nl text in
  match findIndex is_sentinel lines with
  | None => false
  | Some i =>
      match nth_error lines (i + 2) with
      | None => false
      | Some l =>
          negb (isNaN (Number l)) && chained None (lines_from lines (i + 4))
      end
  end.

(** The end of the last spline of the last path. *)
Definition end_of (ps : list Path) : option (number * number) :=
  match last_of ps with
  | Some p =>
      match last_of (splines p) with
      | Some sp => Some (x (position (last sp)), y (position (last sp)))
      | None => None
      end
  | None => None
  end.

(** The test of the loop over the splines: a spline of four or of two
    controls is written, any other is passed over. *)
Definition written_spline (s : Spline) : bool :=
  (List.length (controls s) =? 4)%nat || (List.length (controls s) =? 2)%nat.

(** The path that holds the written splines of [path]. *)
Definition written_path (path : Path) : Path :=
  new_Path_with (pc path) (filter written_spline (splines path)).

(** A path of three splines: the second has three controls. *)
Definition quadratic : Spline :=
  new_Spline (new_EndPointControl (of_Z 10) (of_Z 0) (of_Z 0))
    [new_Control (of_Z 10) (of_Z 0)]
    (new_EndPointControl (of_Z 10) (of_Z 0) (of_Z 0)).

Definition path_three : Path :=
  new_Path_with PathConfigImpl [straight; quadratic; bend].

(** The test of [push] on two splines as the decoder reads them from their
    lines: the first does not end where the second starts. *)
Definition gap (uc : UnitConverter) (a b : Spline) : bool :=
  strict_neq (x (position (last (decoded uc a))))
    (x (position (first (decoded uc b))))
  || strict_neq (y (position (last (decoded uc a))))
       (y (position (first (decoded uc b)))).

(** A cubic spline that starts at (11, 0), and a path on which it follows
    the straight spline, which ends at (10, 0). *)
Definition apart : Spline :=
  new_Spline (new_EndPointControl (of_Z 11) (of_Z 0) (of_Z 0))
    [new_Control (of_Z 12) (of_Z 1); new_Control (of_Z 14) (of_Z 3)]
    (new_EndPointControl (of_Z 15) (of_Z 5) (of_Z 0)).

Definition path_apart : Path := new_Path_with PathConfigImpl [straight; apart].

(** ** Vocabulary of the rounding to three decimals *)

(** The exact value of a number: [m * 2 ^ e] with its sign; 0 for the
    zeros and for the numbers that are not finite. *)
Definition exact (v : number) : Q :=
  match v with
  | S754_finite s m e =>
      ((if s then -1 else 1) * inject_Z (Zpos m) * 2 ^ e)%Q
  | _ => 0%Q
  end.

(** What a record of [shr] stands for: the fraction [Y / D], of which the
    record holds the integer part, and the place of the rest below, at or
    above one half. *)
Definition stands_for (mrs : shr_record) (Y D : Z) : Prop :=
  (0 < D /\ 0 <= shr_m mrs
   /\ 0 <= Y - shr_m mrs * D < D
   /\ (shr_r mrs = true <-> D <= 2 * (Y - shr_m mrs * D))
   /\ (shr_s mrs = true
       <-> Y - shr_m mrs * D <> 0 /\ 2 * (Y - shr_m mrs * D) <> D))%Z.

(** A number of the format, finite and below [10 ^ 21] in magnitude: the
    numbers for which [toFixed(3)] gives three decimals. *)
Definition roundable (u : number) : bool :=
  valid_binary prec emax u && isFinite u
  && lt (SFabs u) (of_decimal false 1 21).

(** [a] is within one thousandth of [b]. *)
Definition within_milli (a b : number) : Prop :=
  (Qabs (exact a - exact b) <= 1 # 1000)%Q.

(** Modelled from the spec: the length in the second unit, before
    [fixPrecision] rounds it: [fromAtoB] is [fixPrecision] of it. *)
Definition converted (uc : UnitConverter) (a : number) : number :=
  div (mul a (inches (aUOL uc))) (inches (bUOL uc)).

(** Adjacent splines share their end point once it is converted to inches
    and rounded to three decimals, as the decoder reads it. *)
Fixpoint rounded_continuous (uc : UnitConverter) (ss : list Spline) : Prop :=
  match ss with
  | s1 :: (s2 :: _) as rest => gap uc s1 s2 = false /\ rounded_continuous uc rest
  | _ => True
  end.

(** A straight spline that ends at (10.0004, 0), and a path on which the
    cubic spline [bend], which starts at (10, 0), follows it. *)
Definition nearly : Spline :=
  new_Spline (new_EndPointControl (of_Z 0) (of_Z 0) (of_Z 0)) []
    (new_EndPointControl (of_decimal false 100004 (-4)) (of_Z 0) (of_Z 0)).

Definition path_nearly : Path := new_Path_with PathConfigImpl [nearly; bend].

(** A path in centimetres of two straight splines: the first ends at
    (1.2714, 0) and the second starts at (1.2711, 0). *)
Definition short_a : Spline :=
  new_Spline (new_EndPointControl (of_Z 0) (of_Z 0) (of_Z 0)) []
    (new_EndPointControl (of_decimal false 12714 (-4)) (of_Z 0) (of_Z 0)).

Definition short_b : Spline :=
  new_Spline (new_EndPointControl (of_decimal false 12711 (-4)) (of_Z 0) (of_Z 0))
    [] (new_EndPointControl (of_Z 3) (of_Z 0) (of_Z 0)).

Definition path_short : Path := new_Path_with PathConfigImpl [short_a; short_b].

(** Sampled points with more than three decimals. *)
Definition points_fine : list Point :=
  [new_Point (new_Vector (of_decimal false 100004 (-4)) (of_decimal false 12345 (-5)))
     (of_decimal false 499996 (-4));
   new_Point (new_Vector (of_Z 14) (of_Z 0)) (of_Z 50)].

(** ** The earlier revision of the format

    The file holds an earlier revision of the class after the current one.
    There the configuration of the speed belongs to the application and not
    to a path, the decoder builds fresh configurations, and the encoder
    writes the first path of the application. *)
Module Earlier.

Record GeneralConfig := new_GeneralConfig {
  robotWidth : number;
  robotHeight : number;
  showRobot : bool;
  uol : UnitOfLength;
  knotDensity : number;
  controlMagnetDistance : number
}.

(** [new GeneralConfigImpl()]. *)
Definition GeneralConfigImpl : GeneralConfig :=
  new_GeneralConfig (of_Z 12) (of_Z 12) true Inch (of_Z 2)
    (div (of_Z 5) (of_ratio false 254 100)).

Record SpeedConfig := new_SpeedConfig {
  speedLimit : NumberRange;
  applicationRange : NumberRange;
  transitionRange : NumberRange
}.

(** [new SpeedConfigImpl()]. *)
Definition SpeedConfigImpl : SpeedConfig :=
  new_SpeedConfig
    (new_NumberRange (new_Mark (of_Z 0) "0") (new_Mark (of_Z 127) "127")
       (of_Z 1) (of_Z 20) (of_Z 100))
    (new_NumberRange (new_Mark (of_Z 0) "0") (new_Mark (of_Z 4) "4")
       (of_decimal false 1 (-2)) (of_decimal false 14 (-1))
       (of_decimal false 18 (-1)))
    (new_NumberRange (new_Mark (of_Z 0) "0") (new_Mark (of_Z 1) "1")
       (of_decimal false 1 (-2)) (of_Z 0) (of_decimal false 95 (-2))).

(** [new OutputConfigImpl()]: the class has no field. *)
Inductive OutputConfig := OutputConfigImpl.

(** Modelled from the spec: the [Path] of math/Path as this revision uses
    it, a sequence of splines; [new Path(spline)] holds the one spline. *)
Record Path := new_Path_with { splines : list Spline }.

Definition new_Path (spline : Spline) : Path := new_Path_with [spline].

Record LemLibFormatV0_4 := new_LemLibFormatV0_4 {
  isInit : bool;
  uid : string
}.

Definition getName (this : LemLibFormatV0_4) : string :=
  "LemLib v0.4.x (inch, byte-voltage)".

Definition buildGeneralConfig (this : LemLibFormatV0_4) : GeneralConfig :=
  GeneralConfigImpl.

Definition buildSpeedConfig (this : LemLibFormatV0_4) : SpeedConfig :=
  SpeedConfigImpl.

Definition buildOutputConfig (this : LemLibFormatV0_4) : OutputConfig :=
  OutputConfigImpl.

Record PathFileData := new_PathFileData {
  format : string;
  pfd_gc : GeneralConfig;
  pfd_sc : SpeedConfig;
  pfd_oc : OutputConfig;
  pfd_paths : list Path
}.

(** The application, as far as the encoder asks it: its paths and
    configurations, the knots of a path ([path.calculateKnots(gc, sc)]) and
    the text of [JSON.stringify(app.exportPathFileData())]. *)
Record MainApp := new_MainApp {
  paths : list Path;
  gc : GeneralConfig;
  sc : SpeedConfig;
  calculateKnots : Path -> GeneralConfig -> SpeedConfig -> list Point;
  exportPathFileData : string
}.

(** The function [push] at line index [i]: the new contents of [paths]. *)
Definition push (i : nat) (paths : list Path) (spline : Spline)
  : Error + list Path :=
  if (List.length paths =? 0)%nat then
    inr (paths ++ [new_Path spline])%list
  else
    match last_of paths with
    | None => inl TypeError
    | Some path =>
        match last_of (splines path) with
        | None => inl TypeError
        | Some lastSpline =>
            let a := position (last lastSpline) in
            let b := position (first spline) in
            if strict_neq (x a) (x b) || strict_neq (y a) (y b)
            then inl (error i)
            else inr (removelast paths
                        ++ [new_Path_with (splines path ++ [spline])])%list
        end
    end.

(** The [while] loop, from index [i] over the lines [rest] that it still
    has to read. Its body up to the call of [push] is that of the current
    revision, [parse_spline], with the function [number] in the place of
    [num]. *)
Fixpoint scan (i : nat) (rest : list string) (paths : list Path)
  : Error + list Path :=
  match rest with
  | [] => inr paths
  | line :: rest' =>
      let* spline := parse_spline i line in
      let* paths' := push i paths spline in
      scan (S i) rest' paths'
  end.

Definition recoverPathFileData (this : LemLibFormatV0_4) (fileContent : string)
  : Error + PathFileData :=
  let gc := GeneralConfigImpl in
  let sc := SpeedConfigImpl in
  let oc := OutputConfigImpl in
  let lines := split (String "010" EmptyString) fileContent in
  match findIndex (fun line => String.eqb line sentinel) lines with
  | None => inl (new_Error "Invalid file format, unable to find line 'endData'")
  | Some i =>
      let maxSpeed := match nth_error lines (i + 2) with
                      | Some line => Number line
                      | None => NaN
                      end in
      if isNaN maxSpeed
      then inl (new_Error "Invalid file format, unable to parse max speed")
      else
        let sc :=
          new_SpeedConfig
            (set_to (speedLimit sc)
               (Math_max
                  (Math_min (Number (toFixed3 maxSpeed))
                     (value (maxLimit (speedLimit sc))))
                  (value (minLimit (speedLimit sc)))))
            (applicationRange sc) (transitionRange sc) in
        let i := (i + 4)%nat in
        let* paths := scan i (lines_from lines i) [] in
        inr (new_PathFileData (getName this) gc sc oc paths)
  end.

Definition exportPathFile (this : LemLibFormatV0_4) (app : MainApp)
  : Error + string :=
  let rtn := EmptyString in
  if (List.length (paths app) =? 0)%nat
  then inl (new_Error "No path to export")
  else
    match nth_error (paths app) 0 with
    | None => inl TypeError
    | Some path =>
        if (List.length (splines path) =? 0)%nat
        then inl (new_Error "No spline to export")
        else
          let uc := new_UnitConverter (uol (gc app)) Inch in
          let knots := calculateKnots app path (gc app) (sc app) in
          let rtn := fold_left (fun rtn knot => rtn ++ point_line uc knot)
                       knots rtn in
          let rtn := rtn ++ ghost_block uc knots in
          let rtn := rtn ++ "endData" ++ nl in
          let rtn := rtn ++ "200" ++ nl in
          let rtn := rtn ++ toString (to (speedLimit (sc app))) ++ nl in
          let rtn := rtn ++ "200" ++ nl in
          let rtn := fold_left (fun rtn spline => rtn ++ spline_text uc spline)
                       (splines path) rtn in
          let rtn := rtn ++ "#PATH.JERRYIO-DATA " ++ exportPathFileData app in
          inr rtn
    end.

End Earlier.

(** The header of a text with no spline line, and an application of the
    earlier revision for [path_bend]. *)
Definition earlier_format0 : Earlier.LemLibFormatV0_4 :=
  Earlier.new_LemLibFormatV0_4 false "abcdefghij".

Definition earlier_app (points : list Point) : Earlier.MainApp :=
  Earlier.new_MainApp
    [Earlier.new_Path_with (splines path_bend); Earlier.new_Path straight]
    Earlier.GeneralConfigImpl Earlier.SpeedConfigImpl
    (fun _ _ _ => points) "{}".

(** ** Proof steps *)

(** The 256 cases of a character. *)
Ltac ascii_cases c := destruct c as [[] [] [] [] [] [] [] []].

(** The conjuncts of the boolean conjunctions among the hypotheses. *)
Ltac split_andb :=
  repeat match goal with
  | H : _ && _ = true |- _ => apply andb_true_iff in H as [? ?]
  end.

(** The decoder, with its line separator and its test of the sentinel put
    under their names. *)
Ltac open_recover :=
  unfold recoverPathFileData;
  change (String "010" EmptyString) with nl;
  change (fun line : string => String.eqb line sentinel) with is_sentinel.

(** ** Lists, lines and the sentinel *)

Lemma findIndex_None (A : Type) (p : A -> bool) (l : list A) :
  (forall a, In a l -> p a = false) -> findIndex p l = None.
Proof.
  induction l as [|a l IH]; intros H; simpl; [reflexivity|].
  rewrite (H a (or_introl eq_refl)), IH; [reflexivity|].
  intros b Hb. apply H. now right.
Qed.

Lemma firstn_app_exact (A : Type) (l y : list A) (n : nat) :
  n = List.length l -> firstn n (l ++ y) = l.
Proof.
  intros ->. rewrite firstn_app, Nat.sub_diag, firstn_O, app_nil_r.
  apply firstn_all.
Qed.

Lemma findIndex_app (A : Type) (p : A -> bool) (l l' : list A) (i : nat) :
  findIndex p l = Some i -> findIndex p (l ++ l') = Some i.
Proof.
  revert i. induction l as [|a l IH]; intros i; simpl; [discriminate|].
  destruct (p a); [trivial|].
  destruct (findIndex p l) as [j|]; simpl; [|discriminate].
  intros [= <-]. now rewrite (IH j eq_refl).
Qed.

Lemma prefix_nil (s : string) : prefix EmptyString s = true.
Proof. now destruct s. Qed.

Lemma split_from_newline (cur a b : string) :
  split_from nl 0 cur (a ++ String newline b)
  = (split_from nl 0 cur a ++ split_from nl 0 EmptyString b)%list.
Proof.
  revert cur. induction a as [|c a IH]; intros cur.
  - simpl. destruct (ascii_dec "010" newline) as [_|N]; [|now destruct N].
    now rewrite prefix_nil.
  - cbn [append split_from nl String.length Nat.sub prefix].
    destruct (ascii_dec "010" c) as [_|_].
    + rewrite !prefix_nil, IH. reflexivity.
    + apply IH.
Qed.

Lemma split_newline (a b : string) :
  split nl (a ++ nl ++ b) = (split nl a ++ split nl b)%list.
Proof. apply split_from_newline. Qed.

Lemma split_from_one_line (cur t : string) :
  contains newline t = false -> split_from nl 0 cur t = [cur ++ t].
Proof.
  revert cur. induction t as [|c t IH]; intros cur H.
  - simpl. f_equal. clear. induction cur; simpl; congruence.
  - simpl in H. apply orb_false_iff in H as [Hc Ht].
    cbn [split_from nl String.length Nat.sub prefix].
    destruct (ascii_dec "010" c) as [E|_].
    + subst c. discriminate Hc.
    + rewrite IH by exact Ht. f_equal. clear.
      induction cur; simpl; congruence.
Qed.

Lemma split_one_line (t : string) :
  contains newline t = false -> split nl t = [t].
Proof. intros H. unfold split. now rewrite split_from_one_line. Qed.

(** The lines the loop reads do not include the last line. *)
Lemma lines_from_last (l : list string) (t : string) (i : nat) :
  lines_from (l ++ [t]) i = skipn i l.
Proof.
  unfold lines_from. rewrite length_app. simpl.
  replace (List.length l + 1 - 1 - i)%nat with (List.length l - i)%nat by lia.
  rewrite skipn_app, firstn_app, length_skipn.
  replace (List.length l - i - (List.length l - i))%nat with 0%nat by lia.
  rewrite firstn_O, app_nil_r. apply firstn_all2. rewrite length_skipn. lia.
Qed.

Lemma lines_from_nil (l : list string) (i : nat) :
  (List.length l - 1 <= i)%nat -> lines_from l i = [].
Proof.
  intros H. unfold lines_from.
  replace (List.length l - 1 - i)%nat with 0%nat by lia. apply firstn_O.
Qed.

(** The lines from [i] on, cut at a line [k] that the loop reads. *)
Lemma lines_from_cut (l : list string) (i k : nat) (line : string) :
  (i <= k)%nat -> (k + 1 < List.length l)%nat -> nth_error l k = Some line ->
  lines_from l i
  = (firstn (k - i) (skipn i l) ++ line :: lines_from l (k + 1))%list.
Proof.
  intros Hik Hk Hn. unfold lines_from.
  assert (Hs : skipn i l
               = (firstn (k - i) (skipn i l) ++ line :: skipn (k + 1) l)%list).
  { rewrite <- (firstn_skipn (k - i) (skipn i l)) at 1. f_equal.
    rewrite skipn_skipn. replace (k - i + i)%nat with k by lia.
    clear - Hn. revert k Hn. induction l as [|a l IH]; intros [|k] Hn;
      simpl in *; try discriminate.
    - now injection Hn as ->.
    - now apply IH. }
  rewrite Hs at 1. rewrite firstn_app, length_firstn, length_skipn.
  replace (Nat.min (k - i) (List.length l - i)) with (k - i)%nat by lia.
  rewrite (firstn_all2 (n := (List.length l - 1 - i)%nat));
    [|rewrite length_firstn, length_skipn; lia].
  f_equal.
  replace (List.length l - 1 - i - (k - i))%nat
    with (S (List.length l - 1 - (k + 1)))%nat by lia.
  reflexivity.
Qed.

(** ** The loop *)

Lemma num_error (i : nat) (tok : string) :
  isNaN (Number tok) = true -> num i tok = inl (error i).
Proof. intros H. unfold num. now rewrite H. Qed.

(** A line that does not split into eight tokens, or one of whose tokens is
    not a number, has no spline: [error] is called. *)
Lemma parse_spline_malformed (i : nat) (line : string) :
  List.length (split ", " line) <> 8%nat
  \/ (exists tok, In tok (split ", " line) /\ isNaN (Number tok) = true) ->
  parse_spline i line = inl (error i).
Proof.
  unfold parse_spline. intros H.
  destruct (split ", " line) as [|t0 [|t1 [|t2 [|t3 [|t4 [|t5 [|t6 [|t7 [|t8 r]]]]]]]]];
    try reflexivity.
  destruct H as [H|(tok & Hin & Hnan)]; [now destruct H|].
  unfold num. simpl in Hin.
  repeat match goal with
  | |- context [isNaN (Number ?t)] =>
      destruct (isNaN (Number t)) eqn:?; cbn [bind]; [reflexivity|]
  end.
  exfalso. repeat destruct Hin as [<-|Hin]; congruence.
Qed.

Lemma removelast_In (A : Type) (l : list A) (a : A) :
  In a (removelast l) -> In a l.
Proof.
  induction l as [|b l IH]; simpl; [trivial|].
  destruct l as [|c l]; [intros []|].
  intros [->|H]; [now left|right; now apply IH].
Qed.

Lemma last_of_snoc (A : Type) (l : list A) (a : A) :
  last_of (l ++ [a]) = Some a.
Proof.
  unfold last_of. rewrite length_app. simpl.
  replace (List.length l + 1 - 1)%nat with (List.length l) by lia.
  rewrite nth_error_app2 by lia. now rewrite Nat.sub_diag.
Qed.

Section Loop.

Variable this : LemLibFormatV0_4.
Variable maxSpeed : number.

Lemma scan_app (i : nat) (a b : list string) (ps : list Path) :
  scan this maxSpeed i (a ++ b) ps
  = let* ps' := scan this maxSpeed i a ps in
    scan this maxSpeed (i + List.length a) b ps'.
Proof.
  revert i ps. induction a as [|l a IH]; intros i ps; simpl.
  - now rewrite Nat.add_0_r.
  - destruct (parse_spline i l) as [e|sp]; simpl; [reflexivity|].
    destruct (push this maxSpeed i ps sp) as [e|ps']; simpl; [reflexivity|].
    rewrite IH. now replace (S i + List.length a)%nat
      with (i + S (List.length a))%nat by lia.
Qed.

(** Every path the loop holds has the clamped maximum speed as the upper
    bound of its speed limit. *)
Lemma push_speed_limit (i : nat) (ps ps' : list Path) (sp : Spline) :
  Forall (fun p => to (speedLimit (pc p))
                   = clamp (Number (toFixed3 maxSpeed)) (of_Z 0) (of_Z 127)) ps ->
  push this maxSpeed i ps sp = inr ps' ->
  Forall (fun p => to (speedLimit (pc p))
                   = clamp (Number (toFixed3 maxSpeed)) (of_Z 0) (of_Z 127)) ps'.
Proof.
  intros Hps. unfold push.
  destruct (List.length ps =? 0)%nat.
  - intros [= <-]. apply Forall_app. split; [exact Hps|].
    constructor; [reflexivity|constructor].
  - destruct (last_of ps) as [path|] eqn:Hlast; [|discriminate].
    destruct (last_of (splines path)) as [lastSpline|]; [|discriminate].
    destruct (_ || _); [discriminate|]. intros [= <-].
    apply Forall_app. split.
    + rewrite Forall_forall in *. intros p Hp. apply Hps.
      now apply removelast_In.
    + constructor; [|constructor]. cbn [pc].
      rewrite Forall_forall in Hps. apply Hps.
      unfold last_of in Hlast. now apply nth_error_In in Hlast.
Qed.

Lemma scan_speed_limit (i : nat) (rest : list string) (ps ps' : list Path) :
  Forall (fun p => to (speedLimit (pc p))
                   = clamp (Number (toFixed3 maxSpeed)) (of_Z 0) (of_Z 127)) ps ->
  scan this maxSpeed i rest ps = inr ps' ->
  Forall (fun p => to (speedLimit (pc p))
                   = clamp (Number (toFixed3 maxSpeed)) (of_Z 0) (of_Z 127)) ps'.
Proof.
  revert i ps. induction rest as [|line rest IH]; intros i ps Hps; simpl.
  - now intros [= <-].
  - destruct (parse_spline i line) as [e|sp]; cbn [bind]; [discriminate|].
    destruct (push this maxSpeed i ps sp) as [e|ps1] eqn:Hpush; cbn [bind];
      [discriminate|].
    apply IH. eapply push_speed_limit; eauto.
Qed.

(** After a line is read the loop holds exactly one path, which has a
    spline. *)
Lemma push_one_path (i : nat) (ps ps' : list Path) (sp : Spline) :
  ps = [] \/ one_path ps ->
  push this maxSpeed i ps sp = inr ps' -> one_path ps'.
Proof.
  intros [->|(path & sp0 & -> & Hsp)]; unfold push.
  - simpl. intros [= <-]. eexists _, sp. split; reflexivity.
  - change (List.length [path] =? 0)%nat with false.
    change (last_of [path]) with (Some path). cbv iota. rewrite Hsp.
    destruct (_ || _); [discriminate|]. intros [= <-].
    eexists _, sp. split; [reflexivity|]. cbn [splines]. apply last_of_snoc.
Qed.

Lemma scan_one_path (i : nat) (rest : list string) (ps ps' : list Path) :
  ps = [] \/ one_path ps ->
  scan this maxSpeed i rest ps = inr ps' ->
  (rest = [] /\ ps' = ps) \/ one_path ps'.
Proof.
  revert i ps. induction rest as [|line rest IH]; intros i ps Hps; simpl.
  - intros [= <-]. now left.
  - destruct (parse_spline i line) as [e|sp]; cbn [bind]; [discriminate|].
    destruct (push this maxSpeed i ps sp) as [e|ps1] eqn:Hpush; cbn [bind];
      [discriminate|].
    intros H. right.
    pose proof (push_one_path _ _ _ _ Hps Hpush) as H1.
    destruct (IH _ _ (or_intror H1) H) as [[_ ->]|H2]; assumption.
Qed.

End Loop.

(** ** The decoder, line by line *)

(** The decoder after the sentinel and the maximum speed are read. *)
Lemma recover_after_header (this : LemLibFormatV0_4) (text : string)
    (i : nat) (l : string) :
  findIndex is_sentinel (split nl text) = Some i ->
  nth_error (split nl text) (i + 2) = Some l ->
  isNaN (Number l) = false ->
  recoverPathFileData this text
  = let* paths := scan this (Number l) (i + 4)
                    (lines_from (split nl text) (i + 4)) [] in
    inr (new_PathFileData (gc this) paths).
Proof.
  intros Hi Hl Hn. open_recover.
  now rewrite Hi, Hl, Hn.
Qed.

(** The decoder stops at the first line [k] for which the loop body
    throws. *)
Lemma recover_stops (this : LemLibFormatV0_4) (text : string)
    (i : nat) (l : string) (k : nat) (line : string) (paths : list Path)
    (e : Error) :
  findIndex is_sentinel (split nl text) = Some i ->
  nth_error (split nl text) (i + 2) = Some l ->
  isNaN (Number l) = false ->
  (i + 4 <= k)%nat -> (k + 1 < List.length (split nl text))%nat ->
  nth_error (split nl text) k = Some line ->
  scan this (Number l) (i + 4)
    (firstn (k - (i + 4)) (skipn (i + 4) (split nl text))) [] = inr paths ->
  (let* spline := parse_spline k line in
   push this (Number l) k paths spline) = inl e ->
  recoverPathFileData this text = inl e.
Proof.
  intros Hi Hl Hn Hik Hk Hline Hscan Hbody.
  rewrite (recover_after_header this text i l Hi Hl Hn).
  rewrite (lines_from_cut _ (i + 4) k line Hik Hk Hline), scan_app, Hscan.
  cbn [bind]. rewrite length_firstn, length_skipn.
  replace (i + 4 + Nat.min (k - (i + 4)) (List.length (split nl text) - (i + 4)))%nat
    with k by lia.
  cbn [scan]. destruct (parse_spline k line) as [e'|sp]; cbn [bind] in *.
  - now injection Hbody as ->.
  - now rewrite Hbody.
Qed.

(** ** The encoder, block by block *)

Lemma string_app_assoc (a b c : string) : (a ++ b) ++ c = a ++ b ++ c.
Proof. induction a; simpl; congruence. Qed.

Lemma string_app_nil_r (a : string) : a ++ EmptyString = a.
Proof. induction a; simpl; congruence. Qed.

Lemma fold_left_text (A : Type) (f : A -> string) (l : list A) (init : string) :
  fold_left (fun rtn a => rtn ++ f a) l init = init ++ join (map f l).
Proof.
  revert init. induction l as [|a l IH]; intros init; simpl.
  - now rewrite string_app_nil_r.
  - now rewrite IH, string_app_assoc.
Qed.

(** The whole text of an export. *)
Lemma export_text (this : LemLibFormatV0_4) (app : MainApp) (path : Path) :
  interestedPath app = Some path -> splines path <> [] ->
  exportPathFile this app
  = inr (join (map (point_line (new_UnitConverter (uol (gc this)) Inch))
                 (calculatePoints app path (gc this)))
         ++ ghost_block (new_UnitConverter (uol (gc this)) Inch)
              (calculatePoints app path (gc this))
         ++ "endData" ++ nl
         ++ after_sentinel (new_UnitConverter (uol (gc this)) Inch) path
              (exportPathFileData app)).
Proof.
  intros Hp Hs. unfold exportPathFile. rewrite Hp.
  destruct (splines path) as [|s0 ss] eqn:E; [now destruct Hs|].
  cbn [List.length Nat.eqb]. f_equal. unfold after_sentinel.
  rewrite !fold_left_text, E. cbn [append].
  now rewrite !string_app_assoc.
Qed.

Lemma ghost_block_two (uc : UnitConverter) (pre : list Point)
    (last2 last1 : Point) :
  ghost_block uc (pre ++ [last2; last1])
  = ghost_line uc
      (Vector_interpolate (vector last2) (vector last1)
         (add (Vector_distance (vector last2) (vector last1))
            (fromBtoA uc (of_Z 20)))).
Proof.
  unfold ghost_block. rewrite length_app. cbn [List.length].
  replace (1 <? List.length pre + 2)%nat with true
    by (symmetry; apply Nat.ltb_lt; lia).
  rewrite !nth_error_app2 by lia.
  replace (List.length pre + 2 - 2 - List.length pre)%nat with 0%nat by lia.
  replace (List.length pre + 2 - 1 - List.length pre)%nat with 1%nat by lia.
  reflexivity.
Qed.

Lemma ghost_block_short (uc : UnitConverter) (points : list Point) :
  (List.length points <= 1)%nat -> ghost_block uc points = EmptyString.
Proof.
  intros H. unfold ghost_block.
  replace (1 <? List.length points)%nat with false; [reflexivity|].
  symmetry. apply Nat.ltb_ge. lia.
Qed.

(** ** The characters of a printed number *)

Lemma all_chars_app (p : ascii -> bool) (a b : string) :
  all_chars p (a ++ b) = all_chars p a && all_chars p b.
Proof.
  induction a as [|c a IH]; simpl; [reflexivity|].
  now rewrite IH, andb_assoc.
Qed.

Lemma all_chars_substring (p : ascii -> bool) (s : string) (n m : nat) :
  all_chars p s = true -> all_chars p (substring n m s) = true.
Proof.
  revert n m. induction s as [|c s IH]; intros n m H.
  - destruct n, m; reflexivity.
  - simpl in H. apply andb_true_iff in H as [Hc Hs].
    destruct n as [|n]; [destruct m as [|m]|]; simpl; auto.
    now rewrite Hc, IH.
Qed.

Lemma all_chars_zeros (k : nat) : all_chars number_char (zeros k) = true.
Proof. induction k; simpl; auto. Qed.

Lemma all_chars_uint (d : Decimal.uint) :
  all_chars number_char (NilEmpty.string_of_uint d) = true.
Proof. induction d; simpl; auto. Qed.

Lemma all_chars_digits (z : Z) : all_chars number_char (digits_of_Z z) = true.
Proof.
  unfold digits_of_Z, digits_of_N, NilZero.string_of_uint.
  destruct (N.to_uint (Z.to_N z)) eqn:E; try reflexivity;
    rewrite <- E; apply all_chars_uint.
Qed.

Lemma all_chars_exponent (n : Z) :
  all_chars number_char (exponent_part n) = true.
Proof.
  unfold exponent_part. cbn [append]. cbn [all_chars].
  rewrite all_chars_app, all_chars_digits.
  now destruct (n - 1 <? 0)%Z.
Qed.

Lemma all_chars_layout (ds : string) (k n : Z) :
  all_chars number_char ds = true ->
  all_chars number_char (layout ds k n) = true.
Proof.
  intros H. unfold layout.
  repeat match goal with
  | |- context [if ?b then _ else _] => destruct b
  end;
  repeat (rewrite all_chars_app || cbn [append all_chars]);
  rewrite ?all_chars_zeros, ?all_chars_exponent, ?H,
    ?(all_chars_substring _ _ _ _ H); reflexivity.
Qed.

Lemma all_chars_toString_pos (m : positive) (e : Z) :
  all_chars number_char (toString_pos m e) = true.
Proof.
  unfold toString_pos. destruct (fraction m e) as [num den].
  destruct (shortest _ _ _ _ _ _) as [[s n] k].
  apply all_chars_layout, all_chars_digits.
Qed.

(** The text of a number is made of digits and of the letters and signs of
    [NaN], [Infinity] and the exponent notation. *)
Lemma all_chars_toString (v : number) :
  all_chars number_char (toString v) = true.
Proof.
  destruct v as [s|s| |s m e]; simpl; try reflexivity.
  - now destruct s.
  - rewrite all_chars_app, all_chars_toString_pos. now destruct s.
Qed.

Lemma all_chars_contains (p : ascii -> bool) (c : ascii) (s : string) :
  p c = false -> all_chars p s = true -> contains c s = false.
Proof.
  intros Hc. induction s as [|d s IH]; simpl; [reflexivity|].
  intros H. apply andb_true_iff in H as [Hd Hs]. rewrite (IH Hs), orb_false_r.
  apply Ascii.eqb_neq. intros ->. congruence.
Qed.

Lemma toString_no_newline (v : number) : contains newline (toString v) = false.
Proof.
  apply (all_chars_contains number_char); [reflexivity|apply all_chars_toString].
Qed.

Lemma toString_no_comma (v : number) : contains comma (toString v) = false.
Proof.
  apply (all_chars_contains number_char); [reflexivity|apply all_chars_toString].
Qed.

(** ** Lines and tokens of an export *)

Lemma contains_app (c : ascii) (a b : string) :
  contains c (a ++ b) = contains c a || contains c b.
Proof.
  induction a as [|d a IH]; simpl; [reflexivity|].
  now rewrite IH, orb_assoc.
Qed.

(** A text that starts with lines, each ended by a newline. *)
Lemma split_lines_then (L : list string) (rest : string) :
  Forall (fun l => contains newline l = false) L ->
  split nl (join (map (fun l => l ++ nl) L) ++ rest)
  = (L ++ split nl rest)%list.
Proof.
  intros HL. induction HL as [|l L Hl HL IH]; simpl; [reflexivity|].
  rewrite !string_app_assoc, split_newline, IH.
  now rewrite (split_one_line l Hl).
Qed.

(** A text made of lines, each ended by a newline, and of a last line. *)
Lemma split_lines (L : list string) (t : string) :
  Forall (fun l => contains newline l = false) L ->
  contains newline t = false ->
  split nl (join (map (fun l => l ++ nl) L) ++ t) = (L ++ [t])%list.
Proof.
  intros HL Ht. now rewrite split_lines_then, (split_one_line t Ht).
Qed.

Lemma split_from_comma_last (cur t : string) :
  contains comma t = false -> split_from ", " 0 cur t = [cur ++ t].
Proof.
  revert cur. induction t as [|c t IH]; intros cur H.
  - simpl. now rewrite string_app_nil_r.
  - simpl in H. apply orb_false_iff in H as [Hc Ht].
    cbn [split_from prefix].
    destruct (ascii_dec "," c) as [E|_].
    + subst c. discriminate Hc.
    + rewrite IH by exact Ht. now rewrite string_app_assoc.
Qed.

Lemma split_from_comma (cur t rest : string) :
  contains comma t = false ->
  split_from ", " 0 cur (t ++ ", " ++ rest)
  = (cur ++ t) :: split_from ", " 0 EmptyString rest.
Proof.
  revert cur. induction t as [|c t IH]; intros cur H.
  - cbn [append split_from prefix String.length Nat.sub].
    destruct (ascii_dec "," ",") as [_|N]; [|now destruct N].
    destruct (ascii_dec " " " ") as [_|N]; [|now destruct N].
    now rewrite prefix_nil, string_app_nil_r.
  - simpl in H. apply orb_false_iff in H as [Hc Ht].
    cbn [append split_from prefix].
    destruct (ascii_dec "," c) as [E|_].
    + subst c. discriminate Hc.
    + rewrite IH by exact Ht. now rewrite string_app_assoc.
Qed.

(** Eight printed numbers joined by [", "] split into these eight. *)
Lemma split_eight (v0 v1 v2 v3 v4 v5 v6 v7 : number) :
  split ", " (toString v0 ++ ", " ++ toString v1 ++ ", " ++ toString v2 ++ ", "
              ++ toString v3 ++ ", " ++ toString v4 ++ ", " ++ toString v5
              ++ ", " ++ toString v6 ++ ", " ++ toString v7)
  = [toString v0; toString v1; toString v2; toString v3; toString v4;
     toString v5; toString v6; toString v7].
Proof.
  unfold split.
  rewrite !split_from_comma, split_from_comma_last
    by apply toString_no_comma.
  reflexivity.
Qed.

Lemma written_four (s : Spline) :
  two_or_four s -> exists w1 w2,
    written s = [position (first s); w1; w2; position (last s)].
Proof.
  unfold two_or_four, written, controls. intros [H|H].
  - destruct (interior s) as [|c r]; [|discriminate]. simpl. eauto.
  - destruct (interior s) as [|c1 [|c2 [|c3 r]]]; try discriminate.
    simpl. eauto.
Qed.

(** The encoder writes the line of a spline of two or four controls. *)
Lemma spline_text_line (uc : UnitConverter) (s : Spline) :
  two_or_four s -> spline_text uc s = spline_line uc s ++ nl.
Proof.
  unfold two_or_four, spline_text, spline_line, written, controls, output.
  intros [H|H].
  - destruct (interior s) as [|c r]; [|discriminate]. cbn [List.app].
    now rewrite !string_app_assoc.
  - destruct (interior s) as [|c1 [|c2 [|c3 r]]]; try discriminate.
    cbn [List.app]. now rewrite !string_app_assoc.
Qed.

Lemma num_rereads (i : nat) (v : number) :
  rereads v = true -> num i (toString v) = inr (reread v).
Proof.
  unfold rereads, num, reread. intros H.
  apply andb_true_iff in H as [H _]. apply negb_true_iff in H.
  now rewrite H.
Qed.

(** The decoder reads the line of a spline as the spline [decoded]. *)
Lemma parse_spline_line (uc : UnitConverter) (i : nat) (s : Spline) :
  two_or_four s -> spline_rereads uc s = true ->
  parse_spline i (spline_line uc s) = inr (decoded uc s).
Proof.
  intros H4 Hr. destruct (written_four s H4) as (w1 & w2 & E).
  unfold spline_rereads, spline_line, decoded in *. rewrite E in *.
  cbn [forallb] in Hr.
  split_andb.
  unfold parse_spline. rewrite split_eight.
  rewrite !num_rereads by assumption. reflexivity.
Qed.

(** ** Decoding an export *)

Lemma strict_eq_refl (v : number) : isNaN v = false -> strict_eq v v = true.
Proof.
  destruct v as [s|s| |s m e]; simpl; try reflexivity; try discriminate;
    intros _; unfold strict_eq, SFeqb, SFcompare.
  - now destruct s.
  - destruct s; now rewrite Z.compare_refl, Pos.compare_cont_refl.
Qed.

Lemma strict_neq_same (v : number) : isNaN v = false -> strict_neq v v = false.
Proof. intros H. unfold strict_neq. now rewrite strict_eq_refl. Qed.

Lemma decoded_ends (uc : UnitConverter) (s : Spline) :
  two_or_four s ->
  position (first (decoded uc s))
  = new_Vector (reread (fromAtoB uc (x (position (first s)))))
      (reread (fromAtoB uc (y (position (first s)))))
  /\ position (last (decoded uc s))
     = new_Vector (reread (fromAtoB uc (x (position (last s)))))
         (reread (fromAtoB uc (y (position (last s))))).
Proof.
  intros H. destruct (written_four s H) as (w1 & w2 & E).
  unfold decoded. rewrite E. split; reflexivity.
Qed.

Lemma rereads_ends (uc : UnitConverter) (s : Spline) :
  two_or_four s -> spline_rereads uc s = true ->
  isNaN (reread (fromAtoB uc (x (position (first s))))) = false
  /\ isNaN (reread (fromAtoB uc (y (position (first s))))) = false.
Proof.
  intros H Hr. destruct (written_four s H) as (w1 & w2 & E).
  unfold spline_rereads in Hr. rewrite E in Hr. cbn [forallb] in Hr.
  unfold rereads in Hr.
  split_andb.
  split; now apply negb_true_iff.
Qed.

(** Splines that share their end points pass the continuity check once
    decoded. *)
Lemma continuous_linked (uc : UnitConverter) (s0 : Spline) (ss : list Spline) :
  Forall two_or_four (s0 :: ss) ->
  Forall (fun s => spline_rereads uc s = true) (s0 :: ss) ->
  continuous (s0 :: ss) -> linked uc (decoded uc s0) ss.
Proof.
  revert s0. induction ss as [|s1 ss IH]; intros s0 H4 Hr Hc; [exact I|].
  inversion H4 as [|? ? H40 H4']; subst. inversion Hr as [|? ? Hr0 Hr']; subst.
  destruct Hc as [Hc Hc']. split; [|now apply IH].
  inversion H4' as [|? ? H41 _]; subst. inversion Hr' as [|? ? Hr1 _]; subst.
  destruct (decoded_ends uc s0 H40) as [_ ->].
  destruct (decoded_ends uc s1 H41) as [-> _].
  destruct (rereads_ends uc s1 H41 Hr1) as [Hx Hy].
  rewrite Hc. cbn [x y]. now rewrite !strict_neq_same.
Qed.

(** The loop over the lines of splines that pass the continuity check. *)
Lemma scan_spline_lines (this : LemLibFormatV0_4) (maxSpeed : number)
    (uc : UnitConverter) (ss : list Spline) :
  Forall two_or_four ss ->
  Forall (fun s => spline_rereads uc s = true) ss ->
  forall (i : nat) (pc0 : PathConfig) (sps : list Spline) (prev : Spline),
  linked uc prev ss ->
  scan this maxSpeed i (map (spline_line uc) ss)
    [new_Path_with pc0 (sps ++ [prev])]
  = inr [new_Path_with pc0 ((sps ++ [prev]) ++ map (decoded uc) ss)].
Proof.
  intros H4 Hr. induction ss as [|s ss IH]; intros i pc0 sps prev Hl.
  - simpl. now rewrite app_nil_r.
  - inversion H4 as [|? ? H40 H4']; subst. inversion Hr as [|? ? Hr0 Hr']; subst.
    destruct Hl as [Hl Hl'].
    cbn [map scan]. rewrite (parse_spline_line uc i s H40 Hr0). cbn [bind].
    unfold push at 1.
    change (List.length [new_Path_with pc0 (sps ++ [prev])] =? 0)%nat with false.
    change (last_of [new_Path_with pc0 (sps ++ [prev])])
      with (Some (new_Path_with pc0 (sps ++ [prev]))).
    cbv iota. cbn [splines pc]. rewrite last_of_snoc, Hl. cbn [bind removelast List.app].
    rewrite (IH H4' Hr' (S i) pc0 (sps ++ [prev])%list (decoded uc s) Hl').
    now rewrite <- app_assoc.
Qed.

(** The loop over the lines of a continuous list of splines. *)
Lemma scan_export (this : LemLibFormatV0_4) (maxSpeed : number)
    (uc : UnitConverter) (i : nat) (ss : list Spline) :
  ss <> [] ->
  Forall two_or_four ss ->
  Forall (fun s => spline_rereads uc s = true) ss ->
  continuous ss ->
  scan this maxSpeed i (map (spline_line uc) ss) []
  = inr [new_Path_with
           (new_PathConfig
              (set_to (speedLimit (buildPathConfig this))
                 (clamp (Number (toFixed3 maxSpeed)) (of_Z 0) (of_Z 127))))
           (map (decoded uc) ss)].
Proof.
  intros Hne H4 Hr Hc. destruct ss as [|s0 ss]; [now destruct Hne|].
  pose proof (continuous_linked uc s0 ss H4 Hr Hc) as Hl.
  inversion H4 as [|? ? H40 H4']; subst. inversion Hr as [|? ? Hr0 Hr']; subst.
  cbn [map scan]. rewrite (parse_spline_line uc i s0 H40 Hr0). cbn [bind].
  unfold push at 1. cbn [List.length Nat.eqb List.app new_Path splines pc bind].
  exact (scan_spline_lines this maxSpeed uc ss H4' Hr' (S i) _ [] (decoded uc s0) Hl).
Qed.

Lemma join_app (a b : list string) : join (a ++ b) = join a ++ join b.
Proof.
  induction a as [|l a IH]; simpl; [reflexivity|].
  now rewrite IH, string_app_assoc.
Qed.

Lemma findIndex_first (A : Type) (p : A -> bool) (pre : list A) (a : A)
    (rest : list A) :
  Forall (fun b => p b = false) pre -> p a = true ->
  findIndex p (pre ++ a :: rest) = Some (List.length pre).
Proof.
  intros Hpre Ha. induction Hpre as [|b pre Hb _ IH]; simpl.
  - now rewrite Ha.
  - now rewrite Hb, IH.
Qed.

Lemma comma_not_sentinel (line : string) :
  contains comma line = true -> is_sentinel line = false.
Proof.
  intros H. apply String.eqb_neq. intros ->. discriminate H.
Qed.

Lemma point_line_body (uc : UnitConverter) (point : Point) :
  point_line uc point = point_body uc point ++ nl.
Proof. unfold point_line, point_body. now rewrite !string_app_assoc. Qed.

Lemma ghost_block_lines (uc : UnitConverter) (points : list Point) :
  ghost_block uc points = join (map (fun l => l ++ nl) (ghost_lines uc points)).
Proof.
  unfold ghost_block, ghost_lines.
  destruct (1 <? List.length points)%nat; [|reflexivity].
  destruct (nth_error points (List.length points - 2)); [|reflexivity].
  destruct (nth_error points (List.length points - 1)); [|reflexivity].
  unfold ghost_line. cbn [map join fold_right].
  now rewrite !string_app_assoc, string_app_nil_r.
Qed.

Lemma join_point_lines (uc : UnitConverter) (points : list Point) :
  join (map (point_line uc) points)
  = join (map (fun l => l ++ nl) (map (point_body uc) points)).
Proof.
  rewrite map_map. f_equal. apply map_ext. intros pt. apply point_line_body.
Qed.

Lemma join_spline_lines (uc : UnitConverter) (ss : list Spline) :
  Forall two_or_four ss ->
  join (map (spline_text uc) ss)
  = join (map (fun l => l ++ nl) (map (spline_line uc) ss)).
Proof.
  intros H. rewrite map_map. f_equal. apply map_ext_in. intros sp Hsp.
  apply spline_text_line. rewrite Forall_forall in H. now apply H.
Qed.

(** The lines before the sentinel hold a comma and no newline. *)
Lemma point_body_shape (uc : UnitConverter) (point : Point) :
  contains newline (point_body uc point) = false
  /\ contains comma (point_body uc point) = true.
Proof.
  unfold point_body. split.
  - now rewrite !contains_app, !toString_no_newline.
  - rewrite contains_app, toString_no_comma. reflexivity.
Qed.

Lemma ghost_lines_shape (uc : UnitConverter) (points : list Point) :
  Forall (fun l => contains newline l = false /\ contains comma l = true)
    (ghost_lines uc points).
Proof.
  unfold ghost_lines.
  destruct (1 <? List.length points)%nat; [|constructor].
  destruct (nth_error points (List.length points - 2)); [|constructor].
  destruct (nth_error points (List.length points - 1)); constructor;
    [|constructor].
  split.
  - now rewrite !contains_app, !toString_no_newline.
  - rewrite contains_app, toString_no_comma. reflexivity.
Qed.

Lemma spline_line_no_newline (uc : UnitConverter) (s : Spline) :
  contains newline (spline_line uc s) = false.
Proof.
  unfold spline_line.
  destruct (written s) as [|w0 [|w1 [|w2 [|w3 [|w4 r]]]]]; try reflexivity.
  now rewrite !contains_app, !toString_no_newline.
Qed.

Lemma ghost_lines_two (uc : UnitConverter) (pre : list Point)
    (last2 last1 : Point) :
  ghost_lines uc (pre ++ [last2; last1])
  = [toString (fromAtoB uc (x (Vector_interpolate (vector last2) (vector last1)
        (add (Vector_distance (vector last2) (vector last1)) (fromBtoA uc (of_Z 20))))))
     ++ ", "
     ++ toString (fromAtoB uc (y (Vector_interpolate (vector last2) (vector last1)
          (add (Vector_distance (vector last2) (vector last1)) (fromBtoA uc (of_Z 20))))))
     ++ ", 0"].
Proof.
  unfold ghost_lines. rewrite length_app. cbn [List.length].
  replace (1 <? List.length pre + 2)%nat with true
    by (symmetry; apply Nat.ltb_lt; lia).
  rewrite !nth_error_app2 by lia.
  replace (List.length pre + 2 - 2 - List.length pre)%nat with 0%nat by lia.
  replace (List.length pre + 2 - 1 - List.length pre)%nat with 1%nat by lia.
  reflexivity.
Qed.

Lemma ghost_lines_short (uc : UnitConverter) (points : list Point) :
  (List.length points <= 1)%nat -> ghost_lines uc points = [].
Proof.
  intros H. unfold ghost_lines.
  replace (1 <? List.length points)%nat with false; [reflexivity|].
  symmetry. apply Nat.ltb_ge. lia.
Qed.

(** The lines of an export up to the sentinel. *)
Lemma export_lines_before (this : LemLibFormatV0_4) (app : MainApp)
    (path : Path) :
  interestedPath app = Some path -> splines path <> [] ->
  let uc := new_UnitConverter (uol (gc this)) Inch in
  let points := calculatePoints app path (gc this) in
  exists text,
    exportPathFile this app = inr text
    /\ split nl text
       = ((map (point_body uc) points ++ ghost_lines uc points ++ ["endData"])
          ++ split nl (after_sentinel uc path (exportPathFileData app)))%list.
Proof.
  intros Hp Hs uc points. eexists.
  split; [apply (export_text this app path Hp Hs)|]. fold uc points.
  rewrite <- split_lines_then.
  - f_equal. rewrite join_point_lines, ghost_block_lines.
    rewrite !map_app, !join_app. cbn [map join fold_right].
    now rewrite !string_app_assoc.
  - rewrite !Forall_app. repeat split.
    + apply Forall_forall. intros l Hl. apply in_map_iff in Hl as (pt & <- & _).
      apply point_body_shape.
    + eapply Forall_impl; [|apply ghost_lines_shape]. now intros l [H _].
    + now repeat constructor.
Qed.

(** The lines of an export. *)
Lemma export_lines (this : LemLibFormatV0_4) (app : MainApp) (path : Path) :
  interestedPath app = Some path -> splines path <> [] ->
  Forall two_or_four (splines path) ->
  contains newline (exportPathFileData app) = false ->
  let uc := new_UnitConverter (uol (gc this)) Inch in
  let points := calculatePoints app path (gc this) in
  exists text,
    exportPathFile this app = inr text
    /\ split nl text
       = ((map (point_body uc) points ++ ghost_lines uc points)
          ++ ["endData"; "200"; toString (to (speedLimit (pc path))); "200"]
          ++ map (spline_line uc) (splines path)
          ++ [("#PATH.JERRYIO-DATA " ++ exportPathFileData app)%string])%list.
Proof.
  intros Hp Hs H4 Hj uc points. eexists. split; [apply (export_text this app path Hp Hs)|].
  fold uc points. unfold after_sentinel.
  set (L := ((map (point_body uc) points ++ ghost_lines uc points)
             ++ ["endData"; "200"; toString (to (speedLimit (pc path))); "200"]
             ++ map (spline_line uc) (splines path))%list).
  replace (join (map (point_line uc) points) ++ ghost_block uc points
           ++ "endData" ++ nl ++ "200" ++ nl
           ++ toString (to (speedLimit (pc path))) ++ nl ++ "200" ++ nl
           ++ join (map (spline_text uc) (splines path))
           ++ "#PATH.JERRYIO-DATA " ++ exportPathFileData app)
    with (join (map (fun l => l ++ nl) L)
          ++ "#PATH.JERRYIO-DATA " ++ exportPathFileData app).
  - rewrite split_lines.
    + unfold L. now rewrite <- !app_assoc.
    + unfold L. rewrite !Forall_app. repeat split.
      * apply Forall_forall. intros l Hl. apply in_map_iff in Hl as (pt & <- & _).
        apply point_body_shape.
      * eapply Forall_impl; [|apply ghost_lines_shape]. now intros l [H _].
      * repeat constructor. apply toString_no_newline.
      * apply Forall_forall. intros l Hl. apply in_map_iff in Hl as (sp & <- & _).
        apply spline_line_no_newline.
    + rewrite contains_app, Hj. reflexivity.
  - rewrite join_point_lines, ghost_block_lines, (join_spline_lines uc _ H4).
    unfold L. rewrite !map_app, !join_app. cbn [map join fold_right].
    unfold nl. rewrite !string_app_assoc. cbn [append]. reflexivity.
Qed.

(** ** Results of the arithmetic that are numbers *)

Lemma shr_1_nonneg (mrs : shr_record) :
  (0 <= shr_m mrs)%Z -> (0 <= shr_m (shr_1 mrs))%Z.
Proof.
  destruct mrs as [m r s]. destruct m as [|[p|p|]|[p|p|]]; simpl; lia.
Qed.

Lemma iter_pos_nonneg (p : positive) (mrs : shr_record) :
  (0 <= shr_m mrs)%Z -> (0 <= shr_m (iter_pos shr_1 p mrs))%Z.
Proof.
  revert mrs. induction p as [p IH|p IH|]; intros mrs H; simpl.
  - apply IH, IH, shr_1_nonneg, H.
  - apply IH, IH, H.
  - apply shr_1_nonneg, H.
Qed.

Lemma shr_fexp_nonneg (m e : Z) (l : location) :
  (0 <= m)%Z -> (0 <= shr_m (fst (shr_fexp prec emax m e l)))%Z.
Proof.
  intros H. unfold shr_fexp, shr.
  assert (H0 : (0 <= shr_m (shr_record_of_loc m l))%Z)
    by (destruct l as [|[]]; exact H).
  destruct (fexp prec emax (Zdigits2 m + e) - e)%Z; simpl; trivial.
  now apply iter_pos_nonneg.
Qed.

Lemma round_nearest_even_nonneg (m : Z) (l : location) :
  (0 <= m)%Z -> (0 <= round_nearest_even m l)%Z.
Proof.
  intros H. destruct l as [|[]]; simpl; try lia. destruct (Z.even m); lia.
Qed.

Lemma binary_round_aux_number (sx : bool) (mx ex : Z) (lx : location) :
  (0 <= mx)%Z -> isNaN (binary_round_aux prec emax sx mx ex lx) = false.
Proof.
  intros H. unfold binary_round_aux.
  pose proof (shr_fexp_nonneg mx ex lx H) as H1.
  destruct (shr_fexp prec emax mx ex lx) as [mrs' e']. cbn [fst] in H1.
  pose proof (shr_fexp_nonneg _ e' loc_Exact
                (round_nearest_even_nonneg _ (loc_of_shr_record mrs') H1)) as H2.
  destruct (shr_fexp prec emax _ e' loc_Exact) as [mrs'' e'']. cbn [fst] in H2.
  destruct (shr_m mrs''); try reflexivity; [|lia].
  now destruct (_ <=? _)%Z.
Qed.

Lemma binary_normalize_number (m e : Z) (szero : bool) :
  isNaN (binary_normalize prec emax m e szero) = false.
Proof.
  destruct m; simpl; [reflexivity| |];
    unfold binary_round; destruct (shl_align _ _ _);
    now apply binary_round_aux_number.
Qed.

Lemma of_ratio_number (neg : bool) (n d : positive) :
  isNaN (of_ratio neg n d) = false.
Proof.
  unfold of_ratio, SFdiv, SFdiv_core_binary.
  match goal with |- context [Z.div_eucl ?a ?b] =>
    pose proof (Z.div_eucl_eq a b ltac:(lia)) as E;
    pose proof (Z_div_mod a b ltac:(lia)) as B;
    assert (Ha : (0 <= a)%Z)
  end.
  { destruct (_ - _ - _)%Z; try lia. apply Z.shiftl_nonneg. lia. }
  destruct (Z.div_eucl _ _) as [q r].
  apply binary_round_aux_number. nia.
Qed.

Lemma of_decimal_number (neg : bool) (m e : Z) :
  isNaN (of_decimal neg m e) = false.
Proof.
  unfold of_decimal. destruct m; try reflexivity.
  destruct e; apply of_ratio_number.
Qed.

(** ** Reading a printed number *)

Lemma take_digits_app (a t : string) :
  all_chars is_digit a = true -> starts_with_digit t = false ->
  take_digits (a ++ t) = (a, t).
Proof.
  intros Ha Ht. induction a as [|c a IH]; cbn [append take_digits].
  - destruct t as [|c t]; [reflexivity|]. cbn [starts_with_digit] in Ht.
    cbn [take_digits]. now rewrite Ht.
  - cbn [all_chars] in Ha. apply andb_true_iff in Ha as [Hc Ha].
    now rewrite Hc, (IH Ha).
Qed.

Lemma take_digits_all (a : string) :
  all_chars is_digit a = true -> take_digits a = (a, EmptyString).
Proof.
  intros H. rewrite <- (string_app_nil_r a) at 1. now apply take_digits_app.
Qed.

Lemma digits_uint (d : Decimal.uint) :
  all_chars is_digit (NilEmpty.string_of_uint d) = true.
Proof. induction d; simpl; auto. Qed.

Lemma digits_of_Z_digits (z : Z) : all_chars is_digit (digits_of_Z z) = true.
Proof.
  unfold digits_of_Z, digits_of_N, NilZero.string_of_uint.
  destruct (N.to_uint (Z.to_N z)) eqn:E; try reflexivity;
    rewrite <- E; apply digits_uint.
Qed.

Lemma digits_of_Z_starts (z : Z) : starts_with_digit (digits_of_Z z) = true.
Proof.
  unfold digits_of_Z, digits_of_N, NilZero.string_of_uint.
  destruct (N.to_uint (Z.to_N z)); reflexivity.
Qed.

Lemma digit_not_sign (c : ascii) (s : string) :
  is_digit c = true -> take_sign (String c s) = (false, String c s).
Proof.
  ascii_cases c; try discriminate; reflexivity.
Qed.

Lemma digit_not_Infinity (c : ascii) (s : string) :
  is_digit c = true -> prefix "Infinity" (String c s) = false.
Proof.
  ascii_cases c; try discriminate; reflexivity.
Qed.

Lemma number_tail_read (t : string) :
  number_tail t ->
  starts_with_digit t = false
  /\ match t with
     | String "." r => take_digits r
     | _ => (EmptyString, t)
     end = (EmptyString, t)
  /\ exists v, match take_exponent t with
               | Some (v, r) => (v, r)
               | None => (0%Z, t)
               end = (v, EmptyString).
Proof.
  intros [->|[n ->]].
  - repeat split. now exists 0%Z.
  - unfold exponent_part. cbn [append]. repeat split.
    unfold take_exponent. cbn [nat_of_ascii Nat.eqb orb].
    change (nat_of_ascii "e" =? 101)%nat with true. cbn [orb].
    pose proof (digits_of_Z_digits (Z.abs (n - 1))) as Hd.
    pose proof (digits_of_Z_starts (Z.abs (n - 1))) as Hs.
    destruct (n - 1 <? 0)%Z; cbn [append take_sign];
      rewrite (take_digits_all _ Hd);
      destruct (digits_of_Z (Z.abs (n - 1))); try discriminate Hs; eauto.
Qed.

Lemma scan_unsigned_text (neg : bool) (s : string) :
  decimal_text s ->
  exists v, scan_unsigned neg s = Some (v, EmptyString) /\ isNaN v = false.
Proof.
  intros (a & t & Ha & Hs & Ht & Hshape).
  destruct (number_tail_read t Ht) as (Ht1 & Ht2 & (ex & Ht3)).
  destruct a as [|c a]; [discriminate Hs|]. cbn [starts_with_digit] in Hs.
  unfold scan_unsigned.
  destruct Hshape as [->|(b & Hb & ->)]; cbn [append].
  - rewrite (digit_not_Infinity c _ Hs).
    change (String c (a ++ t)) with (String c a ++ t).
    rewrite (take_digits_app _ t Ha Ht1), Ht2, Ht3.
    eexists. split; [reflexivity|apply of_decimal_number].
  - rewrite (digit_not_Infinity c _ Hs).
    change (String c (a ++ String "." (b ++ t)))
      with (String c a ++ String "." (b ++ t)).
    rewrite (take_digits_app _ (String "." (b ++ t)) Ha eq_refl).
    rewrite (take_digits_app _ t Hb Ht1), Ht3.
    eexists. split; [reflexivity|apply of_decimal_number].
Qed.

Lemma scan_unsigned_starts (neg : bool) (s : string) :
  starts_with_digit s = true ->
  exists v r, scan_unsigned neg s = Some (v, r) /\ isNaN v = false.
Proof.
  destruct s as [|c s]; [discriminate|]. cbn [starts_with_digit]. intros Hc.
  unfold scan_unsigned. rewrite (digit_not_Infinity c s Hc).
  cbn [take_digits]. rewrite Hc.
  destruct (take_digits s) as [d r1].
  destruct (match r1 with String "." r => take_digits r | _ => (EmptyString, r1) end)
    as [fp r2].
  destruct (match take_exponent r2 with Some (v, r) => (v, r) | None => (0%Z, r2) end)
    as [ex r3].
  eexists _, _. split; [reflexivity|apply of_decimal_number].
Qed.

Lemma decimal_text_starts (s : string) :
  decimal_text s -> starts_with_digit s = true.
Proof.
  intros (a & t & _ & Hs & _ & Hshape).
  destruct a as [|c a]; [discriminate Hs|].
  now destruct Hshape as [->|(b & _ & ->)].
Qed.

Lemma digits_app (a b : string) :
  all_chars is_digit a = true -> all_chars is_digit b = true ->
  all_chars is_digit (a ++ b) = true.
Proof. intros Ha Hb. now rewrite all_chars_app, Ha, Hb. Qed.

Lemma digits_zeros (k : nat) : all_chars is_digit (zeros k) = true.
Proof. induction k; simpl; auto. Qed.

Lemma starts_app (a b : string) :
  starts_with_digit a = true -> starts_with_digit (a ++ b) = true.
Proof. destruct a; [discriminate|trivial]. Qed.

Lemma starts_substring (a : string) (k : nat) :
  starts_with_digit a = true -> starts_with_digit (substring 0 (S k) a) = true.
Proof. destruct a; [discriminate|trivial]. Qed.

(** The layout of the digits of a number is a decimal text. *)
Lemma layout_text (ds : string) (k n : Z) :
  all_chars is_digit ds = true -> starts_with_digit ds = true ->
  decimal_text (layout ds k n).
Proof.
  intros Hd Hs. unfold layout, decimal_text.
  destruct ((k <=? n) && (n <=? 21))%Z.
  { exists (ds ++ zeros (Z.to_nat (n - k))), EmptyString.
    repeat split.
    - apply digits_app; [exact Hd|apply digits_zeros].
    - now apply starts_app.
    - now left.
    - left. now rewrite string_app_nil_r. }
  destruct ((0 <? n) && (n <=? 21))%Z eqn:E.
  { apply andb_true_iff in E as [E _]. apply Z.ltb_lt in E.
    destruct (Z.to_nat n) as [|j] eqn:Ej; [lia|].
    exists (substring 0 (S j) ds), EmptyString. repeat split.
    - now apply all_chars_substring.
    - now apply starts_substring.
    - now left.
    - right. exists (substring (S j) (Z.to_nat (k - n)) ds). split.
      + now apply all_chars_substring.
      + now rewrite string_app_nil_r. }
  destruct ((-6 <? n) && (n <=? 0))%Z.
  { exists "0", EmptyString. repeat split.
    - now left.
    - right. exists (zeros (Z.to_nat (- n)) ++ ds). split.
      + apply digits_app; [apply digits_zeros|exact Hd].
      + now rewrite string_app_nil_r. }
  destruct (k =? 1)%Z.
  { exists ds, (exponent_part n). repeat split; trivial.
    - right. now exists n.
    - now left. }
  exists (substring 0 1 ds), (exponent_part n). repeat split.
  - now apply all_chars_substring.
  - now apply starts_substring.
  - right. now exists n.
  - right. exists (substring 1 (Z.to_nat (k - 1)) ds). split.
    + now apply all_chars_substring.
    + reflexivity.
Qed.

Lemma toString_pos_text (m : positive) (e : Z) : decimal_text (toString_pos m e).
Proof.
  unfold toString_pos. destruct (fraction m e) as [num den].
  destruct (shortest _ _ _ _ _ _) as [[s n] k].
  apply layout_text; [apply digits_of_Z_digits|apply digits_of_Z_starts].
Qed.

Lemma number_char_not_space (c : ascii) :
  number_char c = true -> is_space c = false.
Proof.
  ascii_cases c; try discriminate; reflexivity.
Qed.

Lemma trim_end_number (s : string) :
  all_chars number_char s = true -> trim_end s = s.
Proof.
  induction s as [|c s IH]; [reflexivity|]. cbn [all_chars trim_end all_space].
  intros H. apply andb_true_iff in H as [Hc Hs].
  now rewrite (number_char_not_space c Hc), (IH Hs).
Qed.

Lemma trim_start_number (s : string) :
  all_chars number_char s = true -> trim_start s = s.
Proof.
  destruct s as [|c s]; [reflexivity|]. cbn [all_chars trim_start].
  intros H. apply andb_true_iff in H as [Hc _].
  now rewrite (number_char_not_space c Hc).
Qed.

Lemma trim_number (s : string) : all_chars number_char s = true -> trim s = s.
Proof.
  intros H. unfold trim. rewrite (trim_start_number s H).
  now apply trim_end_number.
Qed.

Lemma radix_literal_number (s : string) :
  all_chars number_char s = true -> radix_literal s = None.
Proof.
  destruct s as [|c0 s]; [reflexivity|].
  ascii_cases c0; try reflexivity.
  destruct s as [|c1 [|c2 r]]; try reflexivity.
  cbn [all_chars]. intros H.
  apply andb_true_iff in H as [_ H]. apply andb_true_iff in H as [H _].
  ascii_cases c1; try discriminate H; reflexivity.
Qed.

(** [Number] reads a decimal text, signed or not, as a number. *)
Lemma Number_text (neg : bool) (s : string) :
  decimal_text s -> all_chars number_char s = true ->
  isNaN (Number ((if neg then "-" else "") ++ s)) = false.
Proof.
  intros Ht Hc. pose proof (decimal_text_starts s Ht) as Hs.
  destruct (scan_unsigned_text neg s Ht) as (v & Hv & Hn).
  destruct s as [|c s]; [discriminate Hs|]. cbn [starts_with_digit] in Hs.
  assert (Hct : all_chars number_char ((if neg then "-" else "") ++ String c s)
                = true).
  { destruct neg; [|exact Hc]. cbn [append].
    change (all_chars number_char (String "-" (String c s)))
      with (all_chars number_char (String c s)). exact Hc. }
  unfold Number. rewrite (trim_number _ Hct), (radix_literal_number _ Hct).
  unfold scan_decimal. destruct neg; cbn [append].
  - cbn [take_sign]. now rewrite Hv.
  - now rewrite (digit_not_sign c s Hs), Hv.
Qed.

(** [Number] passes over white space at both ends, the no-break space
    included. *)
Lemma Number_no_break_space :
  Number ("100" ++ String (ascii_of_nat 160) EmptyString) = of_Z 100
  /\ Number (String (ascii_of_nat 160) "3") = of_Z 3
  /\ isNaN (Number ("1" ++ String (ascii_of_nat 160) "0")) = true.
Proof. repeat split; vm_compute; reflexivity. Qed.

(** What [toString] writes, [Number] reads as a number. *)
Lemma Number_toString_number (v : number) :
  isNaN v = false -> isNaN (Number (toString v)) = false.
Proof.
  destruct v as [s|s| |s m e]; try discriminate; intros _.
  - reflexivity.
  - destruct s; vm_compute; reflexivity.
  - cbn [toString].
    apply (Number_text s); [apply toString_pos_text|apply all_chars_toString_pos].
Qed.

Lemma length_zeros (k : nat) : String.length (zeros k) = k.
Proof. induction k; simpl; congruence. Qed.

Lemma string_length_app (a b : string) :
  String.length (a ++ b) = (String.length a + String.length b)%nat.
Proof. induction a; simpl; congruence. Qed.

Lemma fixed3_digits_starts (n : Z) :
  starts_with_digit (fixed3_digits n) = true.
Proof.
  unfold fixed3_digits.
  pose proof (digits_of_Z_starts n) as Hs.
  destruct (String.length (digits_of_Z n) <=? 3)%nat eqn:E.
  - apply Nat.leb_le in E.
    rewrite string_length_app, length_zeros.
    replace (4 - String.length (digits_of_Z n) + String.length (digits_of_Z n) - 3)%nat
      with 1%nat by lia.
    destruct (4 - String.length (digits_of_Z n))%nat eqn:E4; [lia|].
    reflexivity.
  - apply Nat.leb_gt in E.
    destruct (String.length (digits_of_Z n) - 3)%nat eqn:E3; [lia|].
    apply starts_app. now apply starts_substring.
Qed.

Lemma parseFloat_starts (neg : bool) (s : string) :
  starts_with_digit s = true ->
  isNaN (parseFloat ((if neg then "-" else "") ++ s)) = false.
Proof.
  intros Hs. destruct (scan_unsigned_starts neg s Hs) as (v & r & Hv & Hn).
  destruct s as [|c s]; [discriminate Hs|]. cbn [starts_with_digit] in Hs.
  unfold parseFloat, scan_decimal. destruct neg; cbn [append trim_start].
  - change (is_space "-") with false. cbv iota. cbn [take_sign]. now rewrite Hv.
  - cbn [trim_start]. replace (is_space c) with false.
    + now rewrite (digit_not_sign c s Hs), Hv.
    + clear - Hs. ascii_cases c; try discriminate;
        reflexivity.
Qed.

(** The rounding of a number to three decimals is a number. *)
Lemma fixPrecision_number (u : number) :
  isNaN u = false -> isNaN (fixPrecision u) = false.
Proof.
  unfold fixPrecision.
  destruct u as [s|s| |s m e]; try discriminate; intros _.
  - reflexivity.
  - destruct s; vm_compute; reflexivity.
  - cbn [toFixed3]. apply parseFloat_starts.
    destruct (SFltb _ _).
    + apply fixed3_digits_starts.
    + apply decimal_text_starts, toString_pos_text.
Qed.

Lemma rereads_number (v : number) : isNaN v = false -> rereads v = true.
Proof.
  intros H. unfold rereads, reread.
  pose proof (Number_toString_number v H) as H1.
  pose proof (fixPrecision_number _ H1) as H2. unfold fixPrecision in H2.
  now rewrite H1, H2.
Qed.

Lemma isFinite_number (v : number) : isFinite v = true -> isNaN v = false.
Proof. now destruct v. Qed.

Lemma div_finite (sx : bool) (mx : positive) (ex : Z) (sy : bool)
    (my : positive) (ey : Z) :
  isNaN (div (S754_finite sx mx ex) (S754_finite sy my ey)) = false.
Proof.
  unfold div, SFdiv, SFdiv_core_binary.
  match goal with |- context [Z.div_eucl ?a ?b] =>
    pose proof (Z_div_mod a b ltac:(lia)) as B;
    assert (Ha : (0 <= a)%Z)
  end.
  { destruct (_ - _ - _)%Z; try lia. apply Z.shiftl_nonneg. lia. }
  destruct (Z.div_eucl _ _) as [q r].
  apply binary_round_aux_number. nia.
Qed.

Lemma div_number (a : number) (s : bool) (m : positive) (e : Z) :
  isNaN a = false -> isNaN (div a (S754_finite s m e)) = false.
Proof.
  destruct a; try discriminate; intros _; try reflexivity. apply div_finite.
Qed.

Lemma mul_number (a : number) (s : bool) (m : positive) (e : Z) :
  isNaN a = false -> isNaN (mul a (S754_finite s m e)) = false.
Proof.
  destruct a; try discriminate; intros _; try reflexivity.
  apply binary_round_aux_number. lia.
Qed.

Lemma add_finite (a b : number) :
  isFinite a = true -> isFinite b = true -> isNaN (add a b) = false.
Proof.
  destruct a as [sa|sa| |sa ma ea], b as [sb|sb| |sb mb eb];
    try discriminate; intros _ _; try reflexivity.
  - now destruct sa, sb.
  - apply binary_normalize_number.
Qed.

Lemma inches_finite (u : UnitOfLength) :
  exists s m e, inches u = S754_finite s m e.
Proof. destruct u; vm_compute; eauto. Qed.

(** A number converted between units is a number. *)
Lemma fromAtoB_number (uc : UnitConverter) (a : number) :
  isNaN a = false -> isNaN (fromAtoB uc a) = false.
Proof.
  intros H. unfold fromAtoB.
  destruct (inches_finite (aUOL uc)) as (s1 & m1 & e1 & ->).
  destruct (inches_finite (bUOL uc)) as (s2 & m2 & e2 & ->).
  now apply fixPrecision_number, div_number, mul_number.
Qed.

Lemma written_rereads (uc : UnitConverter) (c : Vector) :
  isNaN (x c) = false -> isNaN (y c) = false ->
  rereads (fromAtoB uc (x c)) && rereads (fromAtoB uc (y c)) = true.
Proof.
  intros Hx Hy. now rewrite !rereads_number by now apply fromAtoB_number.
Qed.

(** The numbers written for a spline of finite controls are read back. *)
Lemma spline_rereads_finite (uc : UnitConverter) (s : Spline) :
  two_or_four s -> finite_controls s = true -> spline_rereads uc s = true.
Proof.
  unfold two_or_four, finite_controls, spline_rereads, written, controls.
  intros [H|H] Hf.
  - destruct (interior s) as [|c r]; [|discriminate]. cbn [List.app] in *.
    cbn [forallb] in Hf.
    split_andb.
    cbn [forallb].
    rewrite !written_rereads;
      try (cbn [x y Vector_divide Vector_add];
           first [ now apply isFinite_number
                 | apply div_number; now apply add_finite ]).
    reflexivity.
  - destruct (interior s) as [|c1 [|c2 [|c3 r]]]; try discriminate.
    cbn [List.app forallb] in *.
    split_andb.
    rewrite !written_rereads by now apply isFinite_number.
    reflexivity.
Qed.

(** ** The bounds of a clamped number *)

Lemma SFcompare_antisym (a b : number) :
  SFcompare b a = option_map CompOpp (SFcompare a b).
Proof.
  destruct a as [sa|sa| |sa ma ea], b as [sb|sb| |sb mb eb];
    try reflexivity;
    try (destruct sa; reflexivity); try (destruct sb; reflexivity);
    try (destruct sa, sb; reflexivity).
  destruct sa, sb; try reflexivity; cbn [SFcompare option_map];
    rewrite (Z.compare_antisym ea eb); destruct (ea ?= eb)%Z;
    cbn [CompOpp]; try reflexivity;
    rewrite (Pos.compare_cont_antisym ma mb Eq); cbn [CompOpp];
    now destruct (Pos.compare_cont Eq ma mb).
Qed.

Lemma lt_asym (a b : number) : lt a b = true -> lt b a = false.
Proof.
  unfold lt, SFltb. rewrite (SFcompare_antisym a b).
  now destruct (SFcompare a b) as [[]|].
Qed.

Lemma clamp_bounds (v : number) :
  isNaN v = false ->
  isNaN (clamp v (of_Z 0) (of_Z 127)) = false
  /\ lt (clamp v (of_Z 0) (of_Z 127)) (of_Z 0) = false
  /\ lt (of_Z 127) (clamp v (of_Z 0) (of_Z 127)) = false.
Proof.
  intros Hv.
  assert (K : forall w, w = of_Z 0 \/ w = of_Z 127 ->
            isNaN w = false /\ lt w (of_Z 0) = false /\ lt (of_Z 127) w = false)
    by (intros w [->| ->]; repeat split).
  unfold clamp, Math_min. rewrite Hv.
  change (isNaN (of_Z 127)) with false. cbn [orb].
  destruct (lt v (of_Z 127)) eqn:E1.
  - unfold Math_max. rewrite Hv. change (isNaN (of_Z 0)) with false. cbn [orb].
    destruct (lt v (of_Z 0)) eqn:E2.
    + apply K. now left.
    + destruct (lt (of_Z 0) v) eqn:E3.
      * split; [exact Hv|]. split; [exact E2|]. now apply lt_asym.
      * destruct (is_neg_zero v).
        -- apply K. now left.
        -- split; [exact Hv|]. split; [exact E2|]. now apply lt_asym.
  - destruct (lt (of_Z 127) v) eqn:E2.
    + apply K. now right.
    + destruct (is_neg_zero v) eqn:E3.
      * destruct v as [[]| | |]; discriminate.
      * apply K. now right.
Qed.

(** The text of a number with three decimals is a decimal text. *)
Lemma fixed3_digits_text (n : Z) : decimal_text (fixed3_digits n).
Proof.
  pose proof (fixed3_digits_starts n) as Hs. revert Hs.
  unfold fixed3_digits, decimal_text.
  set (ds := if (String.length (digits_of_Z n) <=? 3)%nat
             then zeros (4 - String.length (digits_of_Z n)) ++ digits_of_Z n
             else digits_of_Z n).
  assert (Hd : all_chars is_digit ds = true).
  { unfold ds. destruct (_ <=? _)%nat; [apply digits_app|];
      auto using digits_zeros, digits_of_Z_digits. }
  intros Hs.
  exists (substring 0 (String.length ds - 3) ds), EmptyString. repeat split.
  - now apply all_chars_substring.
  - destruct (substring 0 (String.length ds - 3) ds); [discriminate Hs|exact Hs].
  - now left.
  - right. exists (substring (String.length ds - 3) 3 ds). split.
    + now apply all_chars_substring.
    + now rewrite string_app_nil_r.
Qed.

Lemma all_chars_fixed3 (n : Z) : all_chars number_char (fixed3_digits n) = true.
Proof.
  unfold fixed3_digits.
  set (ds := if (String.length (digits_of_Z n) <=? 3)%nat
             then zeros (4 - String.length (digits_of_Z n)) ++ digits_of_Z n
             else digits_of_Z n).
  assert (Hd : all_chars number_char ds = true).
  { unfold ds. destruct (_ <=? _)%nat; [rewrite all_chars_app, all_chars_zeros|];
      apply all_chars_digits. }
  rewrite !all_chars_app, !(all_chars_substring _ _ _ _ Hd). reflexivity.
Qed.

(** [Number] reads the text of [toFixed] as a number. *)
Lemma Number_toFixed3_number (u : number) :
  isNaN u = false -> isNaN (Number (toFixed3 u)) = false.
Proof.
  destruct u as [s|s| |s m e]; try discriminate; intros _.
  - reflexivity.
  - destruct s; vm_compute; reflexivity.
  - cbn [toFixed3]. destruct (SFltb _ _).
    + apply (Number_text s); [apply fixed3_digits_text|apply all_chars_fixed3].
    + apply (Number_text s);
        [apply toString_pos_text|apply all_chars_toString_pos].
Qed.

(** ** Rounding to nearest in the format *)

Section Rounding.

Local Open Scope Z_scope.

Lemma digits2_pos_bounds (p : positive) :
  2 ^ (Zpos (digits2_pos p) - 1) <= Zpos p < 2 ^ Zpos (digits2_pos p).
Proof.
  induction p as [p IH|p IH|]; cbn [digits2_pos].
  - rewrite Pos2Z.inj_succ. change (Zpos p~1) with (2 * Zpos p + 1).
    replace (Z.succ (Zpos (digits2_pos p)) - 1) with (Z.succ (Zpos (digits2_pos p) - 1))
      by lia.
    rewrite !Z.pow_succ_r by lia.
    set (a := 2 ^ (Zpos (digits2_pos p) - 1)) in *.
    set (b := 2 ^ Zpos (digits2_pos p)) in *. clearbody a b. lia.
  - rewrite Pos2Z.inj_succ. change (Zpos p~0) with (2 * Zpos p).
    replace (Z.succ (Zpos (digits2_pos p)) - 1) with (Z.succ (Zpos (digits2_pos p) - 1))
      by lia.
    rewrite !Z.pow_succ_r by lia.
    set (a := 2 ^ (Zpos (digits2_pos p) - 1)) in *.
    set (b := 2 ^ Zpos (digits2_pos p)) in *. clearbody a b. lia.
  - cbn. lia.
Qed.

Lemma Zdigits2_bounds (m : Z) :
  0 < m -> 2 ^ (Zdigits2 m - 1) <= m < 2 ^ Zdigits2 m.
Proof.
  destruct m as [|p|p]; try lia. intros _. apply digits2_pos_bounds.
Qed.

Lemma Zdigits2_nonneg (m : Z) : 0 <= Zdigits2 m.
Proof. destruct m; cbn; lia. Qed.

Lemma Zdigits2_pos (m : Z) : 0 < m -> 0 < Zdigits2 m.
Proof. destruct m; cbn; lia. Qed.

Lemma Zdigits2_le (m d : Z) : 0 <= d -> 0 <= m < 2 ^ d -> Zdigits2 m <= d.
Proof.
  intros Hd [H0 H]. destruct (Z.eq_dec m 0) as [->|Hm]; [cbn; lia|].
  destruct (Zdigits2_bounds m ltac:(lia)) as [Hl _].
  destruct (Z_le_gt_dec (Zdigits2 m) d) as [|Hgt]; [assumption|exfalso].
  assert (2 ^ d <= 2 ^ (Zdigits2 m - 1)) by (apply Z.pow_le_mono_r; lia).
  lia.
Qed.

Lemma Zdigits2_ge (m d : Z) : 2 ^ d <= m -> d < Zdigits2 m.
Proof.
  intros H. pose proof (Zdigits2_nonneg m) as Hn.
  destruct (Z_lt_le_dec d 0) as [|Hd]; [lia|].
  pose proof (Z.pow_pos_nonneg 2 d ltac:(lia) Hd) as Hp.
  destruct (Zdigits2_bounds m ltac:(lia)) as [_ Hu].
  destruct (Z_lt_le_dec d (Zdigits2 m)) as [|Hle]; [assumption|exfalso].
  assert (2 ^ Zdigits2 m <= 2 ^ d) by (apply Z.pow_le_mono_r; lia).
  lia.
Qed.

(** One step to the right halves the fraction. *)
Lemma shr_1_stands_for (mrs : shr_record) (Y D : Z) :
  stands_for mrs Y D -> stands_for (shr_1 mrs) Y (2 * D)
  /\ shr_m (shr_1 mrs) = shr_m mrs / 2.
Proof.
  destruct mrs as [m r s]. unfold stands_for. cbn [shr_m shr_r shr_s].
  intros (HD & Hm & HR & Hr & Hs).
  assert (Hors : orb r s = true <-> Y - m * D <> 0).
  { rewrite orb_true_iff, Hr, Hs. lia. }
  destruct m as [|[p|p|]|p]; try lia; cbn [shr_1 shr_m shr_r shr_s];
    try change (Zpos p~1) with (2 * Zpos p + 1) in *;
    try change (Zpos p~0) with (2 * Zpos p) in *;
    (split;
     [repeat split; intros; rewrite ?Hors in *;
      solve [reflexivity | lia | easy | exfalso; lia]|]).
  - reflexivity.
  - apply (Z.div_unique _ _ _ 1); lia.
  - apply (Z.div_unique _ _ _ 0); lia.
  - reflexivity.
Qed.

Lemma stands_for_eq (mrs : shr_record) (Y D D' : Z) :
  D = D' -> stands_for mrs Y D -> stands_for mrs Y D'.
Proof. now intros ->. Qed.

Lemma iter_shr_1_stands_for (p : positive) :
  forall (mrs : shr_record) (Y D : Z),
  stands_for mrs Y D ->
  stands_for (iter_pos shr_1 p mrs) Y (2 ^ Zpos p * D)
  /\ shr_m (iter_pos shr_1 p mrs) = shr_m mrs / 2 ^ Zpos p.
Proof.
  induction p as [p IH|p IH|]; intros mrs Y D H; cbn [iter_pos].
  - destruct (shr_1_stands_for mrs Y D H) as [H1 E1].
    destruct (IH _ _ _ H1) as [H2 E2]. destruct (IH _ _ _ H2) as [H3 E3].
    assert (Hp : 2 ^ Zpos p~1 = 2 ^ Zpos p * (2 ^ Zpos p * 2)).
    { change (Zpos p~1) with (2 * Zpos p + 1).
      replace (2 * Zpos p + 1) with (Zpos p + (Zpos p + 1)) by lia.
      rewrite !Z.pow_add_r by lia. now rewrite Z.pow_1_r. }
    split.
    + eapply stands_for_eq; [|exact H3]. rewrite Hp. ring.
    + assert (0 < 2 ^ Zpos p) by (apply Z.pow_pos_nonneg; lia).
      rewrite E3, E2, E1, Hp, !Z.div_div by lia.
      f_equal. ring.
  - destruct (IH _ _ _ H) as [H2 E2]. destruct (IH _ _ _ H2) as [H3 E3].
    assert (Hp : 2 ^ Zpos p~0 = 2 ^ Zpos p * 2 ^ Zpos p).
    { change (Zpos p~0) with (2 * Zpos p).
      replace (2 * Zpos p) with (Zpos p + Zpos p) by lia.
      now rewrite Z.pow_add_r by lia. }
    split.
    + eapply stands_for_eq; [|exact H3]. rewrite Hp. ring.
    + assert (0 < 2 ^ Zpos p) by (apply Z.pow_pos_nonneg; lia).
      now rewrite E3, E2, Hp, Z.div_div by lia.
  - destruct (shr_1_stands_for mrs Y D H) as [H1 E1]. split.
    + eapply stands_for_eq; [|exact H1]. reflexivity.
    + now rewrite E1.
Qed.

Lemma fexp_eq (e : Z) : fexp prec emax e = Z.max (e - 53) (-1074).
Proof. reflexivity. Qed.

Lemma shr_record_of_loc_m (m : Z) (l : location) :
  shr_m (shr_record_of_loc m l) = m.
Proof. now destruct l as [|[]]. Qed.

(** [shr_fexp] moves the fraction to the exponent of its format. *)
Lemma shr_fexp_stands_for (m e : Z) (l : location) (Y D : Z) :
  stands_for (shr_record_of_loc m l) Y D ->
  let c := Z.max 0 (fexp prec emax (Zdigits2 m + e) - e) in
  stands_for (fst (shr_fexp prec emax m e l)) Y (2 ^ c * D)
  /\ shr_m (fst (shr_fexp prec emax m e l)) = m / 2 ^ c
  /\ snd (shr_fexp prec emax m e l) = e + c.
Proof.
  intros H c. unfold shr_fexp, shr. fold c.
  destruct (fexp prec emax (Zdigits2 m + e) - e) as [|p|p] eqn:E;
    cbn [fst snd]; subst c.
  - cbn [Z.max Z.compare Z.pow]. rewrite Z.div_1_r, shr_record_of_loc_m.
    split; [|split; [reflexivity|lia]].
    eapply stands_for_eq; [|exact H]. lia.
  - replace (Z.max 0 (Zpos p)) with (Zpos p) by lia.
    destruct (iter_shr_1_stands_for p _ _ _ H) as [H1 E1].
    rewrite shr_record_of_loc_m in E1.
    split; [exact H1|split; [exact E1|reflexivity]].
  - replace (Z.max 0 (Zneg p)) with 0 by lia.
    cbn [Z.pow]. rewrite Z.div_1_r, shr_record_of_loc_m.
    split; [|split; [reflexivity|lia]].
    eapply stands_for_eq; [|exact H]. lia.
Qed.

(** Rounding to nearest, ties to even, gives a nearest integer. *)
Lemma round_nearest_even_nearest (mrs : shr_record) (Y D : Z) :
  stands_for mrs Y D ->
  let M := round_nearest_even (shr_m mrs) (loc_of_shr_record mrs) in
  (M = shr_m mrs \/ M = shr_m mrs + 1)
  /\ forall K : Z, Z.abs (M * D - Y) <= Z.abs (K * D - Y).
Proof.
  destruct mrs as [m r s]. unfold stands_for. cbv zeta. cbn [shr_m shr_r shr_s].
  intros (HD & Hm & HR & Hr & Hs).
  assert (HK : forall K, (K <= m -> K * D <= m * D)
                         /\ (m + 1 <= K -> (m + 1) * D <= K * D)).
  { intros K. split; intros HK; apply Z.mul_le_mono_nonneg_r; lia. }
  assert (Hcases : forall K, K <= m \/ m + 1 <= K) by (intros; lia).
  destruct r, s; cbn [loc_of_shr_record round_nearest_even].
  - (* above one half *)
    assert (D <= 2 * (Y - m * D)) by now apply Hr.
    assert (2 * (Y - m * D) <> D) by now apply Hs.
    split; [now right|]. intros K. destruct (HK K) as [H1 H2].
    destruct (Hcases K) as [Hc|Hc]; [specialize (H1 Hc)|specialize (H2 Hc)]; lia.
  - (* at one half *)
    assert (D <= 2 * (Y - m * D)) by now apply Hr.
    assert (HD2 : 2 * (Y - m * D) = D).
    { destruct (Z.eq_dec (2 * (Y - m * D)) D) as [|Hne]; [assumption|].
      assert (false = true) by (apply Hs; lia). discriminate. }
    destruct (Z.even m); (split; [auto|]); intros K; destruct (HK K) as [H1 H2];
      destruct (Hcases K) as [Hc|Hc];
      try specialize (H1 Hc); try specialize (H2 Hc); lia.
  - (* below one half *)
    assert (~ D <= 2 * (Y - m * D)) by (intros H; apply Hr in H; discriminate).
    split; [now left|]. intros K. destruct (HK K) as [H1 H2].
    destruct (Hcases K) as [Hc|Hc]; [specialize (H1 Hc)|specialize (H2 Hc)]; lia.
  - (* exact *)
    assert (~ D <= 2 * (Y - m * D)) by (intros H; apply Hr in H; discriminate).
    split; [now left|]. intros K. destruct (HK K) as [H1 H2].
    destruct (Hcases K) as [Hc|Hc]; [specialize (H1 Hc)|specialize (H2 Hc)]; lia.
Qed.

Lemma Zdigits2_div (m c : Z) :
  0 <= m -> 0 <= c -> Zdigits2 (m / 2 ^ c) <= Z.max 0 (Zdigits2 m - c).
Proof.
  intros Hm Hc. assert (Hp : 0 < 2 ^ c) by (apply Z.pow_pos_nonneg; lia).
  destruct (Z.eq_dec m 0) as [->|Hne]; [rewrite Z.div_0_l by lia; cbn; lia|].
  destruct (Zdigits2_bounds m ltac:(lia)) as [_ Hu].
  pose proof (Zdigits2_pos m ltac:(lia)) as Hd.
  destruct (Z_le_gt_dec c (Zdigits2 m)) as [Hle|Hgt].
  - replace (Z.max 0 (Zdigits2 m - c)) with (Zdigits2 m - c) by lia.
    apply Zdigits2_le; [lia|]. split; [apply Z.div_pos; lia|].
    apply Z.div_lt_upper_bound; [lia|].
    rewrite <- Z.pow_add_r by lia. now replace (c + (Zdigits2 m - c)) with (Zdigits2 m) by lia.
  - assert (2 ^ Zdigits2 m <= 2 ^ c) by (apply Z.pow_le_mono_r; lia).
    rewrite Z.div_small by lia. cbn. lia.
Qed.

(** The rounding of a fraction: the result is a nearest multiple of
    [2 ^ E], where [E] is the exponent of the format at the fraction. *)
Lemma binary_round_aux_nearest (sx : bool) (mx ex : Z) (lx : location)
    (Y D : Z) :
  stands_for (shr_record_of_loc mx lx) Y D ->
  let E := ex + Z.max 0 (fexp prec emax (Zdigits2 mx + ex) - ex) in
  exists M : Z,
    0 <= M
    /\ (forall K, Z.abs (M * (2 ^ (E - ex) * D) - Y)
                  <= Z.abs (K * (2 ^ (E - ex) * D) - Y))
    /\ ((M = 0 /\ binary_round_aux prec emax sx mx ex lx = S754_zero sx)
        \/ exists (m' : positive) (E' : Z),
             binary_round_aux prec emax sx mx ex lx
             = (if E' <=? 971 then S754_finite sx m' E' else S754_infinity sx)
             /\ Zpos m' * 2 ^ (E' - E) = M /\ E <= E' <= E + 1).
Proof.
  intros H E.
  assert (Hmx : 0 <= mx).
  { destruct H as (_ & Hm & _). now rewrite shr_record_of_loc_m in Hm. }
  set (c := Z.max 0 (fexp prec emax (Zdigits2 mx + ex) - ex)) in *.
  destruct (shr_fexp_stands_for mx ex lx Y D H) as (H1 & Em1 & Ee1). fold c in H1, Em1, Ee1.
  unfold binary_round_aux.
  destruct (shr_fexp prec emax mx ex lx) as [mrs1 e1]. cbn [fst snd] in *.
  destruct (round_nearest_even_nearest mrs1 Y _ H1) as [HM Hnear].
  set (M := round_nearest_even (shr_m mrs1) (loc_of_shr_record mrs1)) in *.
  assert (Hm1 : 0 <= shr_m mrs1)
    by (rewrite Em1; apply Z.div_pos; [lia|apply Z.pow_pos_nonneg; lia]).
  assert (HM0 : 0 <= M) by lia.
  assert (Hfix : fexp prec emax (Zdigits2 (shr_m mrs1) + e1) <= e1).
  { pose proof (Zdigits2_div mx c Hmx ltac:(lia)) as Hd. rewrite <- Em1 in Hd.
    pose proof (Zdigits2_nonneg (shr_m mrs1)).
    rewrite fexp_eq. subst e1. unfold c in *. rewrite fexp_eq in *. lia. }
  assert (H2 : stands_for (shr_record_of_loc M loc_Exact) M 1).
  { unfold stands_for. cbn [shr_record_of_loc shr_m shr_r shr_s].
    repeat split; try lia; intros; try discriminate; lia. }
  destruct (shr_fexp_stands_for M e1 loc_Exact M 1 H2) as (_ & Em2 & Ee2).
  set (c2 := Z.max 0 (fexp prec emax (Zdigits2 M + e1) - e1)) in *.
  assert (Hc2 : c2 = 0 \/ (c2 = 1 /\ M = 2 * (M / 2))).
  { assert (HdM : Zdigits2 M <= Zdigits2 (shr_m mrs1) + 1).
    { pose proof (Zdigits2_nonneg (shr_m mrs1)).
      destruct (Z.eq_dec (shr_m mrs1) 0) as [E0|Hne].
      - apply Zdigits2_le; [lia|]. rewrite E0 in *. cbn. lia.
      - destruct (Zdigits2_bounds (shr_m mrs1) ltac:(lia)) as [_ Hu].
        apply Zdigits2_le; [lia|]. rewrite Z.pow_add_r, Z.pow_1_r by lia. lia. }
    unfold c2. rewrite fexp_eq in *.
    destruct (Z_le_gt_dec (Z.max (Zdigits2 M + e1 - 53) (-1074)) e1) as [|Hgt];
      [left; lia|right].
    assert (Hd : Zdigits2 M = Zdigits2 (shr_m mrs1) + 1) by lia.
    assert (Hd53 : Zdigits2 (shr_m mrs1) = 53) by lia.
    split; [lia|].
    assert (Hne : shr_m mrs1 <> 0) by (intros E0; rewrite E0 in Hd53; discriminate).
    destruct (Zdigits2_bounds (shr_m mrs1) ltac:(lia)) as [_ Hu].
    assert (HMne : 0 < M) by lia.
    destruct (Zdigits2_bounds M HMne) as [Hl _].
    rewrite Hd, Hd53 in Hl. rewrite Hd53 in Hu.
    replace (53 + 1 - 1) with 53 in Hl by lia.
    assert (EM : M = 2 ^ 53) by lia. rewrite EM. reflexivity. }
  destruct (shr_fexp prec emax M e1 loc_Exact) as [mrs2 e2]. cbn [fst snd] in *.
  exists M. split; [exact HM0|]. split.
  { intros K. subst E. replace (ex + c - ex) with c by lia. apply Hnear. }
  assert (Hval : shr_m mrs2 * 2 ^ c2 = M).
  { rewrite Em2. destruct Hc2 as [->|[-> HE]]; cbn [Z.pow Z.pow_pos Pos.iter];
      [rewrite Z.div_1_r; lia|]. change (2 * 1) with 2. lia. }
  assert (Hpow : 0 < 2 ^ c2) by (apply Z.pow_pos_nonneg; lia).
  destruct (shr_m mrs2) as [|m'|m'] eqn:Em.
  - left. split; [lia|reflexivity].
  - right. exists m', e2. split; [reflexivity|].
    subst E e2 e1. replace (ex + c + c2 - (ex + c)) with c2 by lia.
    split; [exact Hval|]. destruct Hc2 as [->|[-> _]]; lia.
  - exfalso. assert (Zneg m' * 2 ^ c2 < 0) by (apply Z.mul_neg_pos; lia). lia.
Qed.

(** The location of a remainder [r] of a division by [d]. *)
Lemma new_location_stands_for (q r d : Z) :
  0 <= q -> 0 <= r < d ->
  stands_for (shr_record_of_loc q (new_location d r)) (q * d + r) d.
Proof.
  intros Hq Hr. unfold stands_for. rewrite shr_record_of_loc_m.
  replace (q * d + r - q * d) with r by ring.
  split; [lia|]. split; [exact Hq|]. split; [exact Hr|].
  unfold new_location, new_location_even, new_location_odd.
  destruct (Z.even d) eqn:Ev.
  - destruct (Z.eqb_spec r 0) as [->|Hne]; cbn [shr_record_of_loc shr_r shr_s].
    + split; split; intros; try discriminate; lia.
    + destruct (Z.compare_spec (2 * r) d);
        cbn [shr_record_of_loc shr_r shr_s];
        split; split; intros; try discriminate; try reflexivity; lia.
  - assert (Hodd : 2 * r <> d).
    { intros <-. rewrite Z.even_mul in Ev. discriminate. }
    destruct (Z.eqb_spec r 0) as [->|Hne]; cbn [shr_record_of_loc shr_r shr_s].
    + split; split; intros; try discriminate; lia.
    + destruct (Z.compare_spec (2 * r + 1) d);
        cbn [shr_record_of_loc shr_r shr_s];
        split; split; intros; try discriminate; try reflexivity; lia.
Qed.

Lemma pow2_pos (k : Z) : 0 <= k -> 0 < 2 ^ k.
Proof. intros. apply Z.pow_pos_nonneg; lia. Qed.

Lemma pow2_split (a b : Z) : 0 <= a -> 0 <= b -> 2 ^ (a + b) = 2 ^ a * 2 ^ b.
Proof. intros. now apply Z.pow_add_r. Qed.

(** The number nearest to [n / 1000]: a nearest multiple [M * 2 ^ E] of
    the step [2 ^ E] of the format at [n / 1000]; the inequalities are
    scaled by [1000 * 2 ^ 1074]. *)
Lemma of_ratio_milli (neg : bool) (n : positive) :
  Zpos n < 2 ^ 81 ->
  exists M E : Z,
    -1074 <= E /\ 0 <= M
    /\ (forall K, Z.abs (1000 * (M * 2 ^ (E + 1074)) - Zpos n * 2 ^ 1074)
                  <= Z.abs (1000 * (K * 2 ^ (E + 1074)) - Zpos n * 2 ^ 1074))
    /\ (E <> -1074 -> 1000 * 2 ^ (E + 52 + 1074) <= Zpos n * 2 ^ 1074)
    /\ ((M = 0 /\ of_ratio neg n 1000 = S754_zero neg)
        \/ exists (m' : positive) (E' : Z),
             of_ratio neg n 1000 = S754_finite neg m' E'
             /\ Zpos m' * 2 ^ (E' - E) = M /\ E <= E' <= E + 1).
Proof.
  intros Hn. unfold of_ratio, SFdiv, SFdiv_core_binary.
  change (Zdigits2 1000) with 10.
  set (d1 := Zdigits2 (Zpos n)).
  assert (Hd1 : 0 < d1 <= 81).
  { split; [apply Zdigits2_pos; lia|]. apply Zdigits2_le; lia. }
  destruct (Zdigits2_bounds (Zpos n) ltac:(lia)) as [Hnl Hnu]. fold d1 in Hnl, Hnu.
  replace (d1 + 0 - (10 + 0)) with (d1 - 10) by lia.
  change (0 - 0) with 0. rewrite fexp_eq.
  set (e' := Z.min (Z.max (d1 - 10 - 53) (-1074)) 0).
  assert (He' : -1074 <= e' <= 0) by (unfold e'; lia).
  set (m' := match 0 - e' with
             | 0 => Zpos n
             | Zpos _ => Z.shiftl (Zpos n) (0 - e')
             | Zneg _ => 0
             end).
  assert (Em' : m' = Zpos n * 2 ^ (- e')).
  { unfold m'. replace (0 - e') with (- e') by lia.
    destruct (- e') as [|p|p] eqn:E; [cbn; lia| |lia].
    now rewrite Z.shiftl_mul_pow2 by lia. }
  clearbody m'.
  pose proof (Z_div_mod m' 1000 ltac:(lia)) as Hdm.
  destruct (Z.div_eucl m' 1000) as [q r]. destruct Hdm as [Hm' Hr].
  assert (Hp : 0 < 2 ^ (- e')) by (apply pow2_pos; lia).
  assert (Hq : 0 <= q) by nia.
  pose proof (new_location_stands_for q r 1000 Hq Hr) as Hst.
  replace (q * 1000 + r) with m' in Hst by lia.
  destruct (binary_round_aux_nearest (xorb neg false) q e' (new_location 1000 r)
              m' 1000 Hst) as (M & HM & Hnear & Hres).
  rewrite fexp_eq in *.
  set (c := Z.max 0 (Z.max (Zdigits2 q + e' - 53) (-1074) - e')) in *.
  set (E := e' + c) in *.
  replace (xorb neg false) with neg in * by now destruct neg.
  assert (Hc : 0 <= c) by (unfold c; lia).
  pose proof (Zdigits2_nonneg q) as Hdq0.
  (* the size of the quotient *)
  assert (Hdq : Zdigits2 q + e' <= 72).
  { assert (q < 2 ^ (72 - e')).
    { assert (m' < 2 ^ 81 * 2 ^ (- e')) by (rewrite Em'; nia).
      replace (72 - e') with (62 + (10 + - e')) by lia.
      rewrite !pow2_split by lia.
      change (2 ^ 81) with (2 ^ 62 * 2 ^ 19) in H. change (2 ^ 10) with 1024.
      assert (0 < 2 ^ 62) by (apply pow2_pos; lia).
      nia. }
    assert (Zdigits2 q <= 72 - e') by (apply Zdigits2_le; lia). lia. }
  exists M, E. split; [unfold E; lia|]. split; [exact HM|]. split; [|split].
  - (* nearest *)
    intros K. specialize (Hnear K).
    replace (E - e') with c in Hnear by (unfold E; lia).
    assert (Hs : 0 < 2 ^ (1074 + e')) by (apply pow2_pos; lia).
    assert (E1 : 2 ^ (E + 1074) = 2 ^ c * 2 ^ (1074 + e')).
    { unfold E. replace (e' + c + 1074) with (c + (1074 + e')) by lia.
      apply pow2_split; lia. }
    assert (E2 : Zpos n * 2 ^ 1074 = m' * 2 ^ (1074 + e')).
    { rewrite Em', <- Z.mul_assoc, <- pow2_split by lia.
      do 2 f_equal. lia. }
    rewrite E1, E2.
    replace (1000 * (M * (2 ^ c * 2 ^ (1074 + e'))) - m' * 2 ^ (1074 + e'))
      with ((M * (2 ^ c * 1000) - m') * 2 ^ (1074 + e')) by ring.
    replace (1000 * (K * (2 ^ c * 2 ^ (1074 + e'))) - m' * 2 ^ (1074 + e'))
      with ((K * (2 ^ c * 1000) - m') * 2 ^ (1074 + e')) by ring.
    rewrite !Z.abs_mul, (Z.abs_eq (2 ^ (1074 + e'))) by lia.
    apply Z.mul_le_mono_nonneg_r; [lia|exact Hnear].
  - (* the step is that of the format at n / 1000 *)
    intros HE.
    assert (E2 : Zpos n * 2 ^ 1074 = m' * 2 ^ (1074 + e')).
    { rewrite Em', <- Z.mul_assoc, <- pow2_split by lia.
      do 2 f_equal. lia. }
    destruct (Z_le_gt_dec (Z.max (Zdigits2 q + e' - 53) (-1074)) e') as [Hle|Hgt].
    + (* no shift: E = e' *)
      assert (EE : E = e') by (unfold E, c; lia).
      rewrite EE in *. unfold e' in HE |- *.
      destruct (Z_le_gt_dec (d1 - 10 - 53) 0) as [H0|H0].
      * replace (Z.min (Z.max (d1 - 10 - 53) (-1074)) 0)
          with (d1 - 63) in * by lia.
        replace (d1 - 63 + 52 + 1074) with ((d1 - 1) + 1064) by lia.
        rewrite pow2_split by lia.
        change (2 ^ 1074) with (1024 * 2 ^ 1064).
        assert (0 < 2 ^ 1064) by (apply pow2_pos; lia). nia.
      * replace (Z.min (Z.max (d1 - 10 - 53) (-1074)) 0) with 0 in * by lia.
        assert (2 ^ 63 <= 2 ^ (d1 - 1)) by (apply Z.pow_le_mono_r; lia).
        change (0 + 52 + 1074) with (52 + 1074). rewrite pow2_split by lia.
        assert (0 < 2 ^ 1074) by (apply pow2_pos; lia).
        change (2 ^ 63) with (2048 * 2 ^ 52) in H.
        assert (0 < 2 ^ 52) by (apply pow2_pos; lia). nia.
    + (* shift: E is the exponent of the format at the quotient *)
      assert (EE : E = Zdigits2 q + e' - 53) by (unfold E, c in *; lia).
      assert (Hq0 : 0 < q).
      { destruct (Z.eq_dec q 0) as [E0|]; [|lia].
        rewrite E0 in *. cbn in Hgt. lia. }
      destruct (Zdigits2_bounds q Hq0) as [Hql _].
      rewrite E2, EE.
      replace (Zdigits2 q + e' - 53 + 52 + 1074)
        with ((Zdigits2 q - 1) + (1074 + e')) by lia.
      pose proof (Zdigits2_pos q Hq0).
      rewrite pow2_split by lia.
      assert (0 < 2 ^ (1074 + e')) by (apply pow2_pos; lia).
      assert (1000 * 2 ^ (Zdigits2 q - 1) <= m') by lia.
      rewrite Z.mul_assoc. apply Z.mul_le_mono_nonneg_r; lia.
  - (* the result *)
    destruct Hres as [[HM0 Hz]|(mr & E' & Hr' & Hv & HE')]; [left; now split|right].
    exists mr, E'. split; [|split; assumption].
    rewrite Hr'. fold E in HE'.
    assert (E <= 19) by (unfold E, c; lia).
    destruct (Z.leb_spec E' 971); [reflexivity|lia].
Qed.

(** ** The value of a printed integer *)

Lemma digits_val_uint_acc (d : Decimal.uint) :
  forall acc : positive,
  digits_val (Zpos acc) (NilEmpty.string_of_uint d) = Zpos (Pos.of_uint_acc d acc).
Proof.
  induction d; intros acc; cbn [NilEmpty.string_of_uint digits_val Pos.of_uint_acc];
    try reflexivity;
    rewrite <- IHd; f_equal;
    match goal with
    | |- context [digit_val ?c] =>
        let v := eval vm_compute in (digit_val c) in change (digit_val c) with v
    end; lia.
Qed.

Lemma digits_val_uint (d : Decimal.uint) :
  digits_val 0 (NilEmpty.string_of_uint d) = Z.of_N (Pos.of_uint d).
Proof.
  induction d; cbn [NilEmpty.string_of_uint digits_val Pos.of_uint];
    try reflexivity; try exact IHd;
    match goal with
    | |- digits_val ?a _ = _ =>
        let v := eval cbv in a in change a with v
    end; apply digits_val_uint_acc.
Qed.

Lemma digits_val_digits_of_Z (n : Z) : 0 <= n -> digits_val 0 (digits_of_Z n) = n.
Proof.
  intros Hn. unfold digits_of_Z, digits_of_N.
  pose proof (DecimalN.Unsigned.of_to (Z.to_N n)) as H.
  unfold N.of_uint in H.
  assert (E : forall d, digits_val 0 (NilZero.string_of_uint d)
                        = Z.of_N (Pos.of_uint d)).
  { intros d. unfold NilZero.string_of_uint.
    destruct d; try apply digits_val_uint. reflexivity. }
  rewrite E, H. lia.
Qed.

Lemma digits_val_zeros (k : nat) (s : string) :
  digits_val 0 (zeros k ++ s) = digits_val 0 s.
Proof. induction k; [reflexivity|exact IHk]. Qed.

Lemma substring_all (s : string) : substring 0 (String.length s) s = s.
Proof. induction s as [|c s IH]; [reflexivity|]. cbn. now rewrite IH. Qed.

Lemma substring_split (s : string) (a : nat) :
  (a <= String.length s)%nat ->
  (substring 0 a s ++ substring a (String.length s - a) s)%string = s.
Proof.
  revert a. induction s as [|c s IH]; intros [|a] Ha; cbn [String.length] in *;
    try lia.
  - reflexivity.
  - rewrite Nat.sub_0_r.
    change (substring 0 0 (String c s)) with EmptyString. cbn [append].
    exact (substring_all (String c s)).
  - change (substring 0 (S a) (String c s)) with (String c (substring 0 a s)).
    change (substring (S a) (S (String.length s) - S a) (String c s))
      with (substring a (String.length s - a) s).
    cbn [append]. f_equal. apply IH. lia.
Qed.

Lemma length_substring (s : string) (a b : nat) :
  (a + b <= String.length s)%nat -> String.length (substring a b s) = b.
Proof.
  revert a b. induction s as [|c s IH]; intros [|a] [|b] H;
    cbn [String.length substring] in *; try reflexivity; try lia.
  - f_equal. apply (IH 0%nat). lia.
  - apply IH. lia.
  - apply IH. lia.
Qed.

(** The digits of [fixed3_digits]: an integer part and three decimals. *)
Lemma fixed3_digits_parts (n : Z) :
  0 <= n ->
  exists ip fp : string,
    fixed3_digits n = (ip ++ "." ++ fp)%string
    /\ all_chars is_digit ip = true /\ starts_with_digit ip = true
    /\ all_chars is_digit fp = true /\ String.length fp = 3%nat
    /\ digits_val 0 (ip ++ fp) = n.
Proof.
  intros Hn. pose proof (fixed3_digits_starts n) as Hs. revert Hs.
  unfold fixed3_digits.
  set (ds := if (String.length (digits_of_Z n) <=? 3)%nat
             then (zeros (4 - String.length (digits_of_Z n)) ++ digits_of_Z n)%string
             else digits_of_Z n).
  assert (Hd : all_chars is_digit ds = true).
  { unfold ds. destruct (_ <=? _)%nat; [apply digits_app|];
      auto using digits_zeros, digits_of_Z_digits. }
  assert (Hv : digits_val 0 ds = n).
  { unfold ds. destruct (_ <=? _)%nat;
      rewrite ?digits_val_zeros; now apply digits_val_digits_of_Z. }
  assert (Hl : (4 <= String.length ds)%nat).
  { unfold ds. destruct (String.length (digits_of_Z n) <=? 3)%nat eqn:E.
    - apply Nat.leb_le in E. rewrite string_length_app, length_zeros. lia.
    - apply Nat.leb_gt in E. lia. }
  clearbody ds. intros Hs.
  exists (substring 0 (String.length ds - 3) ds),
         (substring (String.length ds - 3) 3 ds).
  split; [reflexivity|]. split; [now apply all_chars_substring|].
  split.
  { destruct (substring 0 (String.length ds - 3) ds); [discriminate Hs|exact Hs]. }
  split; [now apply all_chars_substring|].
  split; [apply length_substring; lia|].
  pose proof (substring_split ds (String.length ds - 3) ltac:(lia)) as H.
  replace (String.length ds - (String.length ds - 3))%nat with 3%nat in H by lia.
  now rewrite H.
Qed.

(** Reading the text of [toFixed(3)]: the number nearest to
    [n / 1000]. *)
Lemma parseFloat_fixed3 (neg : bool) (n : Z) :
  0 <= n ->
  parseFloat ((if neg then "-" else "") ++ fixed3_digits n)
  = of_decimal neg n (-3).
Proof.
  intros Hn.
  destruct (fixed3_digits_parts n Hn) as (ip & fp & -> & Hip & Hsp & Hfp & Hlen & Hv).
  destruct ip as [|c ip]; [discriminate Hsp|]. cbn [starts_with_digit] in Hsp.
  assert (Hscan : scan_unsigned neg (String c ip ++ "." ++ fp)
                  = Some (of_decimal neg n (-3), EmptyString)).
  { unfold scan_unsigned.
    change (String c ip ++ "." ++ fp)%string
      with (String c (ip ++ "." ++ fp))%string at 1.
    rewrite (digit_not_Infinity c _ Hsp).
    rewrite (take_digits_app (String c ip) ("." ++ fp)%string Hip eq_refl).
    cbn [append]. rewrite (take_digits_all fp Hfp).
    destruct fp as [|f0 fp]; [discriminate Hlen|].
    cbn [take_exponent append] in Hv |- *. rewrite Hv, Hlen. reflexivity. }
  unfold parseFloat, scan_decimal. destruct neg; cbn [append trim_start].
  - change (is_space "-") with false. cbv iota. cbn [take_sign].
    exact (f_equal (fun o => match o with Some (v, _) => v | None => NaN end) Hscan).
  - replace (is_space c) with false
      by (clear - Hsp; ascii_cases c; try discriminate; reflexivity).
    rewrite (digit_not_sign c _ Hsp).
    exact (f_equal (fun o => match o with Some (v, _) => v | None => NaN end) Hscan).
Qed.

(** ** Rounding to three decimals *)

(** [round_milli] is within one half of [1000 * m * 2 ^ e]; the inequality
    is scaled by [2 ^ 1074]. *)
Lemma round_milli_close (m : positive) (e : Z) :
  -1074 <= e ->
  0 <= round_milli m e
  /\ 2 * Z.abs (1000 * (Zpos m * 2 ^ (e + 1074)) - round_milli m e * 2 ^ 1074)
     <= 2 ^ 1074.
Proof.
  intros He. unfold round_milli, fraction.
  destruct e as [|k|k].
  - (* e = 0 *)
    replace (Zpos m * 2 ^ 0) with (Zpos m) by (cbn; lia).
    replace (2 * (Zpos m * 1000) + 1) with ((Zpos m * 1000) * (2 * 1) + 1) by ring.
    rewrite Z.div_add_l by lia. change (1 / (2 * 1)) with 0.
    change (0 + 1074) with 1074.
    assert (0 < 2 ^ 1074) by (apply pow2_pos; lia). split; [lia|].
    replace (1000 * (Zpos m * 2 ^ 1074) - (Zpos m * 1000 + 0) * 2 ^ 1074) with 0 by ring.
    cbn [Z.abs]. lia.
  - (* e > 0 *)
    set (v := Zpos m * 2 ^ Zpos k).
    assert (0 < 2 ^ Zpos k) by (apply pow2_pos; lia).
    assert (Hv : 0 < v) by (unfold v; lia).
    replace (2 * (v * 1000) + 1) with ((v * 1000) * (2 * 1) + 1) by ring.
    rewrite Z.div_add_l by lia. change (1 / (2 * 1)) with 0.
    assert (0 < 2 ^ 1074) by (apply pow2_pos; lia). split; [lia|].
    rewrite pow2_split by lia. fold v.
    replace (1000 * (Zpos m * (2 ^ Zpos k * 2 ^ 1074)) - (v * 1000 + 0) * 2 ^ 1074)
      with 0 by (unfold v; ring).
    cbn [Z.abs]. lia.
  - (* e < 0 *)
    set (den := 2 ^ Zpos k).
    assert (Hden : 0 < den) by (apply pow2_pos; lia).
    set (n := (2 * (Zpos m * 1000) + den) / (2 * den)).
    pose proof (Z.div_mod (2 * (Zpos m * 1000) + den) (2 * den) ltac:(lia)) as Hdm.
    pose proof (Z.mod_pos_bound (2 * (Zpos m * 1000) + den) (2 * den) ltac:(lia)) as Hmod.
    fold n in Hdm.
    set (r := (2 * (Zpos m * 1000) + den) mod (2 * den)) in *.
    assert (Hn : 0 <= n) by (apply Z.div_pos; lia).
    split; [exact Hn|].
    assert (ES : 2 ^ 1074 = den * 2 ^ (Zneg k + 1074)).
    { unfold den. rewrite <- pow2_split by lia. f_equal. lia. }
    set (t := 2 ^ (Zneg k + 1074)) in *.
    assert (Ht : 0 < t) by (apply pow2_pos; lia).
    rewrite ES.
    replace (1000 * (Zpos m * t) - n * (den * t))
      with ((1000 * Zpos m - n * den) * t) by ring.
    rewrite Z.abs_mul, (Z.abs_eq t) by lia.
    assert (2 * Z.abs (1000 * Zpos m - n * den) <= den) by lia.
    nia.
Qed.

Lemma canonical_bounds (s : bool) (m : positive) (e : Z) :
  valid_binary prec emax (S754_finite s m e) = true ->
  -1074 <= e /\ Zpos m < 2 ^ 53.
Proof.
  cbn [valid_binary]. unfold bounded, canonical_mantissa. intros H.
  apply andb_true_iff in H as [H _]. apply Z.eqb_eq in H. rewrite fexp_eq in H.
  split; [lia|].
  destruct (digits2_pos_bounds m) as [_ Hu].
  assert (2 ^ Zpos (digits2_pos m) <= 2 ^ 53) by (apply Z.pow_le_mono_r; lia).
  lia.
Qed.

Lemma below_1e21 (m : positive) (e : Z) :
  SFltb (S754_finite false m e) (of_decimal false 1 21) = true -> e <= 17.
Proof.
  assert (E : of_decimal false 1 21 = S754_finite false 7629394531250000 17)
    by (vm_compute; reflexivity).
  rewrite E. unfold SFltb, SFcompare.
  destruct (Z.compare_spec e 17); try lia; discriminate.
Qed.

(** The number that [fixPrecision] gives for a number of the format below
    [10 ^ 21]: within [1 / 1000]; the inequality is scaled by [2 ^ 1074]. *)
Lemma fixPrecision_scaled (s : bool) (m : positive) (e : Z) :
  valid_binary prec emax (S754_finite s m e) = true ->
  SFltb (S754_finite false m e) (of_decimal false 1 21) = true ->
  (fixPrecision (S754_finite s m e) = S754_zero s
   /\ 1000 * (Zpos m * 2 ^ (e + 1074)) <= 2 ^ 1074)
  \/ exists (m' : positive) (E' : Z),
       fixPrecision (S754_finite s m e) = S754_finite s m' E'
       /\ -1074 <= E'
       /\ 1000 * Z.abs (Zpos m' * 2 ^ (E' + 1074) - Zpos m * 2 ^ (e + 1074))
          <= 2 ^ 1074.
Proof.
  intros Hvalid Hlt.
  destruct (canonical_bounds s m e Hvalid) as [He Hm].
  pose proof (below_1e21 m e Hlt) as He17.
  destruct (round_milli_close m e He) as [Hn Hclose].
  unfold fixPrecision. cbn [toFixed3]. rewrite Hlt.
  rewrite (parseFloat_fixed3 s _ Hn).
  set (n := round_milli m e) in *.
  set (U := Zpos m * 2 ^ (e + 1074)) in *.
  set (S := 2 ^ 1074) in *.
  assert (HS : 0 < S) by (apply pow2_pos; lia).
  assert (HU : 0 < U) by (unfold U; assert (0 < 2 ^ (e + 1074)) by (apply pow2_pos; lia); lia).
  destruct n as [|p|p] eqn:En; [|clear Hn|lia].
  - left. split; [reflexivity|]. lia.
  - right. cbn [of_decimal]. change (Pos.pow 10 3) with 1000%positive.
    assert (Hp : Zpos p < 2 ^ 81).
    { assert (HU70 : U < 2 ^ 70 * S).
      { unfold U, S.
        assert (2 ^ (e + 1074) <= 2 ^ (17 + 1074)) by (apply Z.pow_le_mono_r; lia).
        change (2 ^ 70 * 2 ^ 1074) with (2 ^ 53 * 2 ^ (17 + 1074)).
        assert (0 < 2 ^ (e + 1074)) by (apply pow2_pos; lia). nia. }
      change (2 ^ 81) with (2048 * 2 ^ 70).
      assert (0 < 2 ^ 70) by (apply pow2_pos; lia). nia. }
    destruct (of_ratio_milli s p Hp)
      as (M & E & HE & HM & Hnear & Hstep & [[HM0 Hz]|(m' & E' & Hr & Hv & HE')]).
    + (* the quotient rounds to zero: impossible, 2 ^ -1074 is nearer *)
      exfalso. subst M. fold S in Hnear.
      specialize (Hnear 1).
      assert (0 < 2 ^ (E + 1074)) by (apply pow2_pos; lia).
      assert (HEmin : E = -1074).
      { destruct (Z.eq_dec E (-1074)) as [|Hne]; [assumption|exfalso].
        specialize (Hstep Hne). fold S in Hstep.
        assert (Hg : 2 ^ (E + 52 + 1074) = 4503599627370496 * 2 ^ (E + 1074)).
        { replace (E + 52 + 1074) with (52 + (E + 1074)) by lia.
          now rewrite pow2_split by lia. }
        rewrite Hg in Hstep. lia. }
      rewrite HEmin in Hnear. change (2 ^ (-1074 + 1074)) with 1 in Hnear.
      assert (1000 <= S).
      { unfold S. change (2 ^ 1074) with (1024 * 2 ^ 1064).
        assert (0 < 2 ^ 1064) by (apply pow2_pos; lia). lia. }
      nia.
    + exists m', E'. split; [exact Hr|]. split; [lia|].
      fold S in Hnear, Hstep.
      assert (EW : Zpos m' * 2 ^ (E' + 1074) = M * 2 ^ (E + 1074)).
      { rewrite <- Hv, <- Z.mul_assoc, <- pow2_split by lia.
        do 2 f_equal. lia. }
      rewrite EW. set (W := M * 2 ^ (E + 1074)) in *.
      assert (Hgoal : 2 * Z.abs (1000 * W - Zpos p * S) <= S).
      { destruct (Z_le_gt_dec E e) as [Hle|Hgt].
        - (* the number itself is a multiple of the step *)
          specialize (Hnear (Zpos m * 2 ^ (e - E))).
          replace (Zpos m * 2 ^ (e - E) * 2 ^ (E + 1074)) with U in Hnear.
          + fold W in Hnear. lia.
          + unfold U. rewrite <- Z.mul_assoc, <- pow2_split by lia.
            do 2 f_equal. lia.
        - (* the step is coarser: the power of two between is a multiple *)
          specialize (Hstep ltac:(lia)).
          specialize (Hnear (2 ^ 52)).
          rewrite <- pow2_split in Hnear by lia.
          replace (52 + (E + 1074)) with (E + 52 + 1074) in Hnear by lia.
          fold W in Hnear.
          assert (U < 2 ^ (E + 52 + 1074)).
          { unfold U.
            assert (2 ^ (e + 1074 + 1) <= 2 ^ (E + 1074)) by (apply Z.pow_le_mono_r; lia).
            rewrite pow2_split, Z.pow_1_r in H by lia.
            replace (E + 52 + 1074) with (52 + (E + 1074)) by lia.
            rewrite (pow2_split 52 (E + 1074)) by lia.
            change (2 ^ 53) with (2 * 2 ^ 52) in Hm.
            assert (0 < 2 ^ 52) by (apply pow2_pos; lia).
            assert (0 < 2 ^ (e + 1074)) by (apply pow2_pos; lia).
            nia. }
          lia. }
      lia.
Qed.

Lemma exact_scaled (s : bool) (m : positive) (e : Z) :
  -1074 <= e ->
  (exact (S754_finite s m e) * inject_Z (2 ^ 1074)
   == inject_Z ((if s then -1 else 1) * (Zpos m * 2 ^ (e + 1074))))%Q.
Proof.
  intros He. cbn [exact].
  rewrite !inject_Z_mult, !Zpower_Qpower by lia.
  replace (e + 1074) with (e + 1074)%Z by reflexivity.
  rewrite (Qpower_plus 2 e 1074) by (intros H; discriminate H).
  destruct s; cbn [inject_Z]; ring.
Qed.

Lemma within_milli_scaled (a b : Q) (A B : Z) :
  (a * inject_Z (2 ^ 1074) == inject_Z A)%Q ->
  (b * inject_Z (2 ^ 1074) == inject_Z B)%Q ->
  1000 * Z.abs (A - B) <= 2 ^ 1074 ->
  (Qabs (a - b) <= 1 # 1000)%Q.
Proof.
  intros Ha Hb H.
  assert (HS : (0 < inject_Z (2 ^ 1074))%Q).
  { rewrite <- (Zlt_Qlt 0). apply pow2_pos. lia. }
  set (S := inject_Z (2 ^ 1074)) in *.
  assert (Hd : ((a - b) * S == inject_Z (A - B))%Q).
  { unfold Z.sub. rewrite inject_Z_plus, inject_Z_opp, <- Ha, <- Hb. ring. }
  assert (H1 : (inject_Z (1000 * (A - B)) <= S)%Q)
    by (unfold S; rewrite <- Zle_Qle; lia).
  assert (H2 : (inject_Z (1000 * (B - A)) <= S)%Q)
    by (unfold S; rewrite <- Zle_Qle; lia).
  rewrite inject_Z_mult in H1, H2.
  replace (B - A) with (- (A - B)) in H2 by lia.
  rewrite inject_Z_opp, <- Hd in H2. rewrite <- Hd in H1.
  change (inject_Z 1000) with (1000 # 1)%Q in *.
  apply Qabs_Qle_condition. split.
  - apply (Qmult_le_r _ _ S HS). lra.
  - apply (Qmult_le_r _ _ S HS). lra.
Qed.

(** [fixPrecision] moves a number by one thousandth at most. *)
Lemma fixPrecision_within_milli (u : number) :
  roundable u = true -> within_milli (fixPrecision u) u.
Proof.
  unfold roundable, within_milli. intros H.
  apply andb_true_iff in H as [H Hlt]. apply andb_true_iff in H as [Hv Hf].
  destruct u as [s|s| |s m e]; try discriminate Hf.
  - assert (E : fixPrecision (S754_zero s) = S754_zero false)
      by (vm_compute; reflexivity).
    rewrite E. cbn [exact]. cbn. discriminate.
  - cbn [SFabs] in Hlt. unfold lt in Hlt.
    destruct (canonical_bounds s m e Hv) as [He _].
    destruct (fixPrecision_scaled s m e Hv Hlt)
      as [[-> Hz]|(m' & E' & -> & HE' & Hc)].
    + apply (within_milli_scaled _ _ 0 ((if s then -1 else 1) * (Zpos m * 2 ^ (e + 1074)))).
      * cbn [exact]. ring.
      * now apply exact_scaled.
      * assert (0 < 2 ^ (e + 1074)) by (apply pow2_pos; lia).
        destruct s; lia.
    + apply (within_milli_scaled _ _
               ((if s then -1 else 1) * (Zpos m' * 2 ^ (E' + 1074)))
               ((if s then -1 else 1) * (Zpos m * 2 ^ (e + 1074)))).
      * now apply exact_scaled.
      * now apply exact_scaled.
      * destruct s; lia.
Qed.

(** The rounding of a fraction that is a multiple of the step gives it
    back. *)
Lemma binary_round_aux_exact (sx : bool) (mx ex : Z) (lx : location)
    (Y D : Z) (m : positive) (e : Z) :
  stands_for (shr_record_of_loc mx lx) Y D ->
  valid_binary prec emax (S754_finite sx m e) = true ->
  e = ex + Z.max 0 (fexp prec emax (Zdigits2 mx + ex) - ex) ->
  Y = Zpos m * (2 ^ (e - ex) * D) ->
  binary_round_aux prec emax sx mx ex lx = S754_finite sx m e.
Proof.
  intros H Hvalid He HY.
  assert (HD : 0 < D) by apply H.
  assert (Hmx : 0 <= mx).
  { destruct H as (_ & Hm & _). now rewrite shr_record_of_loc_m in Hm. }
  set (c := Z.max 0 (fexp prec emax (Zdigits2 mx + ex) - ex)) in *.
  assert (Hc : e - ex = c) by lia.
  destruct (shr_fexp_stands_for mx ex lx Y D H) as (H1 & Em1 & Ee1).
  fold c in H1, Em1, Ee1.
  unfold binary_round_aux.
  destruct (shr_fexp prec emax mx ex lx) as [mrs1 e1]. cbn [fst snd] in *.
  destruct (round_nearest_even_nearest mrs1 Y _ H1) as [_ Hnear].
  set (M := round_nearest_even (shr_m mrs1) (loc_of_shr_record mrs1)) in *.
  assert (Hp : 0 < 2 ^ c) by (apply pow2_pos; lia).
  assert (EM : M = Zpos m).
  { specialize (Hnear (Zpos m)). rewrite Hc in HY. rewrite <- HY in Hnear.
    rewrite Z.sub_diag in Hnear. cbn [Z.abs] in Hnear.
    assert (M * (2 ^ c * D) = Y) by lia.
    assert (0 < 2 ^ c * D) by (apply Z.mul_pos_pos; lia).
    rewrite HY in H0. apply Z.mul_cancel_r in H0; lia. }
  rewrite EM.
  assert (Ee : e1 = e) by lia. rewrite Ee.
  cbn [valid_binary] in Hvalid. unfold bounded, canonical_mantissa in Hvalid.
  apply andb_true_iff in Hvalid as [Hcan Hb].
  apply Z.eqb_eq in Hcan.
  unfold shr_fexp. cbn [Zdigits2]. rewrite Hcan, Z.sub_diag.
  cbn [shr shr_record_of_loc shr_m].
  now rewrite Hb.
Qed.

Lemma Zdigits2_mul_pow2 (m : positive) (k : Z) :
  0 <= k -> Zdigits2 (Zpos m * 2 ^ k) = Zpos (digits2_pos m) + k.
Proof.
  intros Hk. destruct (digits2_pos_bounds m) as [Hl Hu].
  assert (Hp : 0 < 2 ^ k) by (apply pow2_pos; lia).
  assert (Hd : 0 < Zpos (digits2_pos m)) by lia.
  apply Z.le_antisymm.
  - apply Zdigits2_le; [lia|]. split; [lia|].
    rewrite pow2_split by lia. apply Z.mul_lt_mono_pos_r; lia.
  - assert (Zpos (digits2_pos m) + k - 1 < Zdigits2 (Zpos m * 2 ^ k)); [|lia].
    apply Zdigits2_ge.
    replace (Zpos (digits2_pos m) + k - 1) with (Zpos (digits2_pos m) - 1 + k) by lia.
    rewrite pow2_split by lia. apply Z.mul_le_mono_nonneg_r; lia.
Qed.

(** Multiplying and dividing a number of the format by 1 gives it back. *)
Lemma mul_one (v : number) :
  valid_binary prec emax v = true -> isFinite v = true -> mul v (of_Z 1) = v.
Proof.
  intros Hv Hf.
  assert (E1 : of_Z 1 = S754_finite false 4503599627370496 (-52))
    by (vm_compute; reflexivity).
  rewrite E1. destruct v as [s|s| |s m e]; try discriminate Hf.
  - cbn. now destruct s.
  - unfold mul, SFmul. replace (xorb s false) with s by now destruct s.
    pose proof Hv as Hv'. cbn [valid_binary] in Hv'.
    unfold bounded, canonical_mantissa in Hv'.
    apply andb_true_iff in Hv' as [Hcan _]. apply Z.eqb_eq in Hcan.
    assert (Hmul : Zpos (m * 4503599627370496) = Zpos m * 2 ^ 52) by reflexivity.
    apply (binary_round_aux_exact s _ _ loc_Exact (Zpos m * 2 ^ 52) 1 m e).
    + unfold stands_for. cbn [shr_record_of_loc shr_m shr_r shr_s].
      rewrite Hmul. repeat split; try lia; intros; try discriminate; lia.
    + exact Hv.
    + rewrite Hmul, Zdigits2_mul_pow2 by lia.
      replace (Zpos (digits2_pos m) + 52 + (e + -52)) with (Zpos (digits2_pos m) + e)
        by lia.
      rewrite Hcan. lia.
    + replace (e - (e + -52)) with 52 by lia. ring.
Qed.

Lemma div_one (v : number) :
  valid_binary prec emax v = true -> isFinite v = true -> div v (of_Z 1) = v.
Proof.
  intros Hv Hf.
  assert (E1 : of_Z 1 = S754_finite false 4503599627370496 (-52))
    by (vm_compute; reflexivity).
  rewrite E1. destruct v as [s|s| |s m e]; try discriminate Hf.
  - cbn. now destruct s.
  - unfold div, SFdiv, SFdiv_core_binary.
    replace (xorb s false) with s by now destruct s.
    pose proof Hv as Hv'. cbn [valid_binary] in Hv'.
    unfold bounded, canonical_mantissa in Hv'.
    apply andb_true_iff in Hv' as [Hcan _]. apply Z.eqb_eq in Hcan.
    change (Zdigits2 4503599627370496) with 53.
    cbn [Zdigits2]. set (d := Zpos (digits2_pos m)) in *.
    replace (d + e - (53 + -52)) with (d + e - 1) by lia.
    replace (e - -52) with (e + 52) by lia.
    rewrite fexp_eq in *.
    set (e' := Z.min (Z.max (d + e - 1 - 53) (-1074)) (e + 52)).
    assert (He' : e' <= e) by (unfold e'; lia).
    assert (Hs : e + 52 - e' = 52 + (e - e')) by lia.
    set (m' := match e + 52 - e' with
               | 0 => Zpos m
               | Zpos _ => Z.shiftl (Zpos m) (e + 52 - e')
               | Zneg _ => 0
               end).
    assert (Em' : m' = Zpos m * 2 ^ (e - e') * 4503599627370496).
    { unfold m'. destruct (e + 52 - e') as [|p|p] eqn:E; try lia.
      rewrite Z.shiftl_mul_pow2, Hs, pow2_split by lia.
      change (2 ^ 52) with 4503599627370496. ring. }
    clearbody m'.
    assert (Hp : 0 < 2 ^ (e - e')) by (apply pow2_pos; lia).
    pose proof (Z_div_mod m' 4503599627370496 ltac:(lia)) as Hdm.
    destruct (Z.div_eucl m' 4503599627370496) as [q r]. destruct Hdm as [Hm' Hr].
    assert (Eq : q = Zpos m * 2 ^ (e - e') /\ r = 0).
    { apply (Z.div_mod_unique 4503599627370496); [lia|lia|]. rewrite <- Hm', Em'. ring. }
    destruct Eq as [-> ->].
    change (new_location 4503599627370496 0) with loc_Exact.
    apply (binary_round_aux_exact s _ _ loc_Exact (Zpos m * 2 ^ (e - e')) 1 m e).
    + unfold stands_for. cbn [shr_record_of_loc shr_m shr_r shr_s].
      repeat split; try lia; intros; try discriminate; lia.
    + exact Hv.
    + rewrite Zdigits2_mul_pow2, fexp_eq by lia. fold d.
      replace (d + (e - e') + e') with (d + e) by lia. lia.
    + ring.
Qed.

(** In inches the converter rounds the length itself. *)
Lemma converted_inch (v : number) :
  valid_binary prec emax v = true -> isFinite v = true ->
  converted (new_UnitConverter Inch Inch) v = v.
Proof.
  intros Hv Hf. unfold converted. cbn [aUOL bUOL inches].
  now rewrite (mul_one v Hv Hf), (div_one v Hv Hf).
Qed.

End Rounding.

(** ** Decoding what the encoder wrote *)

Lemma rounded_linked (uc : UnitConverter) (s0 : Spline) (ss : list Spline) :
  rounded_continuous uc (s0 :: ss) -> linked uc (decoded uc s0) ss.
Proof.
  revert s0. induction ss as [|s1 ss IH]; intros s0 H; [exact I|].
  destruct H as [Hg H]. split; [exact Hg|now apply IH].
Qed.

(** Splines that share their end points share them once rounded. *)
Lemma continuous_rounded (uc : UnitConverter) (ss : list Spline) :
  Forall two_or_four ss ->
  Forall (fun s => spline_rereads uc s = true) ss ->
  continuous ss -> rounded_continuous uc ss.
Proof.
  induction ss as [|s0 [|s1 ss] IH]; intros H4 Hr Hc; try exact I.
  destruct (continuous_linked uc s0 (s1 :: ss) H4 Hr Hc) as [Hg _].
  inversion H4; subst. inversion Hr; subst. destruct Hc as [_ Hc].
  split; [exact Hg|now apply IH].
Qed.

(** The loop over the lines of splines that meet once rounded. *)
Lemma scan_export_rounded (this : LemLibFormatV0_4) (maxSpeed : number)
    (uc : UnitConverter) (i : nat) (ss : list Spline) :
  ss <> [] ->
  Forall two_or_four ss ->
  Forall (fun s => spline_rereads uc s = true) ss ->
  rounded_continuous uc ss ->
  scan this maxSpeed i (map (spline_line uc) ss) []
  = inr [new_Path_with
           (new_PathConfig
              (set_to (speedLimit (buildPathConfig this))
                 (clamp (Number (toFixed3 maxSpeed)) (of_Z 0) (of_Z 127))))
           (map (decoded uc) ss)].
Proof.
  intros Hne H4 Hr Hc. destruct ss as [|s0 ss]; [now destruct Hne|].
  pose proof (rounded_linked uc s0 ss Hc) as Hl.
  inversion H4 as [|? ? H40 H4']; subst. inversion Hr as [|? ? Hr0 Hr']; subst.
  cbn [map scan]. rewrite (parse_spline_line uc i s0 H40 Hr0). cbn [bind].
  unfold push at 1. cbn [List.length Nat.eqb List.app new_Path splines pc bind].
  exact (scan_spline_lines this maxSpeed uc ss H4' Hr' (S i) _ [] (decoded uc s0) Hl).
Qed.

(** The export of a path whose splines meet once rounded, and what the
    decoder reads in it. *)
Lemma encode_decode_rounded (this : LemLibFormatV0_4) (app : MainApp)
    (path : Path) :
  interestedPath app = Some path ->
  splines path <> [] ->
  Forall two_or_four (splines path) ->
  rounded_continuous (new_UnitConverter (uol (gc this)) Inch) (splines path) ->
  Forall (fun s => spline_rereads (new_UnitConverter (uol (gc this)) Inch) s = true)
    (splines path) ->
  isNaN (Number (toString (to (speedLimit (pc path))))) = false ->
  contains newline (exportPathFileData app) = false ->
  let uc := new_UnitConverter (uol (gc this)) Inch in
  let points := calculatePoints app path (gc this) in
  exists text,
    exportPathFile this app = inr text
    /\ recoverPathFileData this text
       = inr (new_PathFileData (gc this) [decoded_path this uc path])
    /\ forall k point, nth_error points k = Some point ->
         nth_error (split nl text) k = Some (point_body uc point).
Proof.
  intros Hp Hs H4 Hc Hr Hto Hj uc points.
  destruct (export_lines this app path Hp Hs H4 Hj) as (text & Het & Hlines).
  exists text. split; [exact Het|].
  fold uc points in Hlines.
  set (pre := (map (point_body uc) points ++ ghost_lines uc points)%list) in *.
  set (TO := toString (to (speedLimit (pc path)))) in *.
  set (SL := map (spline_line uc) (splines path)) in *.
  set (meta := "#PATH.JERRYIO-DATA " ++ exportPathFileData app) in *.
  split.
  - assert (Hi : findIndex is_sentinel (split nl text) = Some (List.length pre)).
    { rewrite Hlines. cbn [List.app]. apply findIndex_first; [|reflexivity].
      unfold pre. apply Forall_app. split.
      - apply Forall_forall. intros l Hl. apply in_map_iff in Hl as (pt & <- & _).
        apply comma_not_sentinel, point_body_shape.
      - eapply Forall_impl; [|apply ghost_lines_shape].
        intros l [_ H]. now apply comma_not_sentinel. }
    assert (Hl : nth_error (split nl text) (List.length pre + 2) = Some TO).
    { rewrite Hlines, nth_error_app2 by lia.
      now replace (List.length pre + 2 - List.length pre)%nat with 2%nat by lia. }
    rewrite (recover_after_header this text _ TO Hi Hl Hto).
    replace (lines_from (split nl text) (List.length pre + 4)) with SL.
    + unfold SL. rewrite (scan_export_rounded this (Number TO) uc _ _ Hs H4 Hr Hc).
      reflexivity.
    + rewrite Hlines.
      replace (pre ++ ["endData"; "200"; TO; "200"] ++ SL ++ [meta])%list
        with ((pre ++ ["endData"; "200"; TO; "200"] ++ SL) ++ [meta])%list
        by (now rewrite <- !app_assoc).
      rewrite lines_from_last, skipn_app, skipn_all2 by lia.
      now replace (List.length pre + 4 - List.length pre)%nat with 4%nat by lia.
  - intros k point Hk. rewrite Hlines. unfold pre.
    assert (Hlen : (k < List.length points)%nat)
      by (apply nth_error_Some; now rewrite Hk).
    rewrite <- app_assoc, nth_error_app1 by now rewrite length_map.
    now apply map_nth_error.
Qed.

(** C1, as the code has it. For a path of splines of two or four controls,
    with finite coordinates, whose adjacent end points are equal once
    converted to inches and rounded to three decimals, and with an upper
    speed limit that is a number, the export succeeds and the decoder reads
    it as one path with as many splines: the splines of the written
    controls, in inches and rounded again to three decimals. The line of
    every sampled point holds its coordinates converted to inches and its
    speed, each rounded by [fixPrecision]; a value that is a number of the
    format below [10 ^ 21] is moved by one thousandth at most, so that the
    written speed is within one thousandth of the speed, the written
    coordinates are within one thousandth of the converted coordinates and,
    when the unit of the path is the inch, of the coordinates themselves.
    The decoder's result holds nothing of these lines. *)
Theorem encode_decode_splines (this : LemLibFormatV0_4) (app : MainApp)
    (path : Path) :
  interestedPath app = Some path ->
  splines path <> [] ->
  Forall two_or_four (splines path) ->
  rounded_continuous (new_UnitConverter (uol (gc this)) Inch) (splines path) ->
  Forall (fun s => finite_controls s = true) (splines path) ->
  isNaN (to (speedLimit (pc path))) = false ->
  contains newline (exportPathFileData app) = false ->
  let uc := new_UnitConverter (uol (gc this)) Inch in
  let points := calculatePoints app path (gc this) in
  exists text p,
    exportPathFile this app = inr text
    /\ recoverPathFileData this text = inr (new_PathFileData (gc this) [p])
    /\ List.length (splines p) = List.length (splines path)
    /\ p = decoded_path this uc path
    /\ forall k point, nth_error points k = Some point ->
         let px := x (vector point) in
         let py := y (vector point) in
         nth_error (split nl text) k
         = Some (toString (fromAtoB uc px) ++ ", " ++ toString (fromAtoB uc py)
                 ++ ", " ++ toString (fixPrecision (speed point)))
         /\ (roundable (converted uc px) = true ->
             within_milli (fromAtoB uc px) (converted uc px))
         /\ (roundable (converted uc py) = true ->
             within_milli (fromAtoB uc py) (converted uc py))
         /\ (roundable (speed point) = true ->
             within_milli (fixPrecision (speed point)) (speed point))
         /\ (uol (gc this) = Inch -> roundable px = true ->
             within_milli (fromAtoB uc px) px)
         /\ (uol (gc this) = Inch -> roundable py = true ->
             within_milli (fromAtoB uc py) py).
Proof.
  intros Hp Hs H4 Hc Hf Hto Hj uc points.
  destruct (encode_decode_rounded this app path Hp Hs H4 Hc)
    as (text & He & Hd & Hlines); trivial.
  - rewrite Forall_forall in *. intros s Hin.
    apply spline_rereads_finite; auto.
  - now apply Number_toString_number.
  - exists text, (decoded_path this uc path).
    split; [exact He|]. split; [exact Hd|].
    split; [unfold decoded_path; cbn [splines]; apply length_map|].
    split; [reflexivity|].
    intros k point Hk px py. split; [exact (Hlines k point Hk)|].
    assert (Hinch : forall v, uol (gc this) = Inch -> roundable v = true ->
                          within_milli (fromAtoB uc v) v).
    { intros v Hu Hround.
      change (fromAtoB uc v) with (fixPrecision (converted uc v)).
      unfold uc. rewrite Hu.
      pose proof Hround as Hv. unfold roundable in Hv.
      apply andb_true_iff in Hv as [Hv _]. apply andb_true_iff in Hv as [Hv Hfin].
      rewrite (converted_inch v Hv Hfin).
      now apply fixPrecision_within_milli. }
    split; [|split; [|split; [|split]]].
    + intros Hround. exact (fixPrecision_within_milli (converted uc px) Hround).
    + intros Hround. exact (fixPrecision_within_milli (converted uc py) Hround).
    + intros Hround. exact (fixPrecision_within_milli (speed point) Hround).
    + apply Hinch.
    + apply Hinch.
Qed.

(** The path [path_nearly], in inches: its first spline ends at
    (10.0004, 0) and its second starts at (10, 0). The first sampled point,
    (10.0004, 0.12345) with speed 49.9996, is written [10, 0.123, 50], and
    each written number is within one thousandth of the point's. *)
Lemma encode_decode_splines_witness :
  exists text p,
    exportPathFile format0 (app_with path_nearly points_fine) = inr text
    /\ recoverPathFileData format0 text = inr (new_PathFileData (gc format0) [p])
    /\ List.length (splines p) = 2%nat
    /\ nth_error (split nl text) 0 = Some "10, 0.123, 50"
    /\ within_milli (fromAtoB inch_to_inch (of_decimal false 100004 (-4)))
         (of_decimal false 100004 (-4))
    /\ within_milli (fromAtoB inch_to_inch (of_decimal false 12345 (-5)))
         (of_decimal false 12345 (-5))
    /\ within_milli (fixPrecision (of_decimal false 499996 (-4)))
         (of_decimal false 499996 (-4)).
Proof.
  destruct (encode_decode_splines format0 (app_with path_nearly points_fine)
              path_nearly)
    as (text & p & He & Hd & Hlen & _ & Hlines).
  - reflexivity.
  - discriminate.
  - apply Forall_cons; [left; reflexivity|].
    apply Forall_cons; [right; reflexivity|apply Forall_nil].
  - split; [vm_compute; reflexivity|exact I].
  - apply Forall_cons; [vm_compute; reflexivity|].
    apply Forall_cons; [vm_compute; reflexivity|apply Forall_nil].
  - vm_compute. reflexivity.
  - reflexivity.
  - exists text, p. split; [exact He|]. split; [exact Hd|]. split; [exact Hlen|].
    destruct (Hlines 0%nat _ eq_refl) as (Hline & _ & _ & Hspeed & Hx & Hy).
    split; [rewrite Hline; vm_compute; reflexivity|].
    split; [apply Hx; [reflexivity|vm_compute; reflexivity]|].
    split; [apply Hy; [reflexivity|vm_compute; reflexivity]|].
    apply Hspeed. vm_compute. reflexivity.
Defined.

(** C1, as stated, fails. In the path [path_short], in centimetres, the
    first spline ends at (1.2714, 0) and the second starts at (1.2711, 0):
    the same point at three decimals. The path is exported, and the decoder
    refuses the text at the line of the second spline, for in inches the
    two ends are written 0.501 and 0.5. And with the centimetre as unit the
    coordinate 10 is written 3.937, which is not within one thousandth of
    10: what is written is near the converted value. *)
Lemma rounded_continuity_refused :
  (fixPrecision (x (position (last short_a)))
   = fixPrecision (x (position (first short_b)))
   /\ y (position (last short_a)) = y (position (first short_b)))
  /\ (exists text,
        exportPathFile format_cm (app_with path_short []) = inr text
        /\ recoverPathFileData format_cm text
           = inl (new_Error "Invalid file format, unable to parse spline at line 6"))
  /\ (toString (fromAtoB (new_UnitConverter Centimeter Inch) (of_Z 10)) = "3.937"
      /\ ~ within_milli (fromAtoB (new_UnitConverter Centimeter Inch) (of_Z 10))
             (of_Z 10)).
Proof.
  split; [split; vm_compute; reflexivity|]. split.
  - eexists. split; [vm_compute; reflexivity|]. vm_compute. reflexivity.
  - split; [vm_compute; reflexivity|].
    unfold within_milli. intros H. vm_compute in H. now apply H.
Qed.

(** The decoder does not read the lines of the sampled points. The export
    of a path with two sampled points and its export with none decode to
    the same data, which hold the splines and nothing of the samples. *)
Lemma decode_forgets_samples :
  exists text2 text0,
    exportPathFile format0 (app_with path_straight points_two) = inr text2
    /\ exportPathFile format0 (app_with path_straight []) = inr text0
    /\ List.length (split nl text2) = (List.length (split nl text0) + 3)%nat
    /\ recoverPathFileData format0 text2 = recoverPathFileData format0 text0
    /\ recoverPathFileData format0 text2
       = inr (new_PathFileData (gc format0)
                [decoded_path format0 inch_to_inch path_straight]).
Proof.
  do 2 eexists.
  split; [vm_compute; reflexivity|]. split; [vm_compute; reflexivity|].
  repeat split; vm_compute; reflexivity.
Qed.

(** ** What the encoder guarantees *)

(** C3. When more than one point is sampled, the encoder writes, between
    the lines of the sampled points and the sentinel line, exactly one line:
    that of the ghost point
    [last2.interpolate(last1, last2.distance(last1) + c)], where [last2] and
    [last1] are the last two sampled points and [c] is 20 inches in the unit
    of the path, with speed 0; with no or one sampled point it writes
    nothing there. *)
Theorem encode_ghost_line (this : LemLibFormatV0_4) (app : MainApp)
    (path : Path) :
  interestedPath app = Some path -> splines path <> [] ->
  let uc := new_UnitConverter (uol (gc this)) Inch in
  let points := calculatePoints app path (gc this) in
  exists text,
    exportPathFile this app = inr text
    /\ (forall pre last2 last1, points = (pre ++ [last2; last1])%list ->
        let ghostPoint :=
          Vector_interpolate (vector last2) (vector last1)
            (add (Vector_distance (vector last2) (vector last1))
               (fromBtoA uc (of_Z 20))) in
        text = join (map (point_line uc) points)
               ++ ghost_line uc ghostPoint
               ++ "endData" ++ nl
               ++ after_sentinel uc path (exportPathFileData app)
        /\ firstn (List.length points + 2) (split nl text)
           = (map (point_body uc) points
              ++ [(toString (fromAtoB uc (x ghostPoint)) ++ ", "
                   ++ toString (fromAtoB uc (y ghostPoint)) ++ ", 0")%string;
                  "endData"])%list)
    /\ ((List.length points <= 1)%nat ->
        text = join (map (point_line uc) points)
               ++ "endData" ++ nl
               ++ after_sentinel uc path (exportPathFileData app)
        /\ firstn (List.length points + 1) (split nl text)
           = (map (point_body uc) points ++ ["endData"])%list).
Proof.
  intros Hp Hs uc points.
  destruct (export_lines_before this app path Hp Hs) as (text & He & Hl).
  fold uc points in Hl. exists text. split; [exact He|].
  rewrite (export_text this app path Hp Hs) in He. fold uc points in He.
  injection He as <-. split.
  - intros pre last2 last1 E ghostPoint. split.
    + now rewrite E, ghost_block_two.
    + rewrite Hl, E, ghost_lines_two. fold ghostPoint.
      apply firstn_app_exact. rewrite !length_app, length_map, length_app.
      reflexivity.
  - intros Hlen. split.
    + now rewrite (ghost_block_short uc points Hlen).
    + rewrite Hl, (ghost_lines_short uc points Hlen).
      apply firstn_app_exact. rewrite !length_app, length_map. reflexivity.
Qed.

Lemma encode_ghost_line_witness :
  exists text,
    exportPathFile format0 (app_with path_straight points_two) = inr text
    /\ text = "10, 0, 50" ++ nl ++ "14, 0, 50" ++ nl
              ++ ghost_line inch_to_inch (new_Vector (of_Z 34) (of_Z 0))
              ++ "endData" ++ nl
              ++ after_sentinel inch_to_inch path_straight "{}"
    /\ firstn 4 (split nl text)
       = ["10, 0, 50"; "14, 0, 50"; "34, 0, 0"; "endData"].
Proof.
  destruct (encode_ghost_line format0 (app_with path_straight points_two)
              path_straight eq_refl ltac:(discriminate))
    as (text & He & H & _).
  exists text. split; [exact He|].
  destruct (H [] _ _ eq_refl) as [-> Hl]. split.
  - vm_compute. reflexivity.
  - vm_compute. reflexivity.
Defined.

(** The ghost point of the example, evaluated. *)
Lemma ghost_of_example :
  ghost_line inch_to_inch
    (Vector_interpolate (new_Vector (of_Z 10) (of_Z 0))
       (new_Vector (of_Z 14) (of_Z 0))
       (add (Vector_distance (new_Vector (of_Z 10) (of_Z 0))
               (new_Vector (of_Z 14) (of_Z 0)))
          (fromBtoA inch_to_inch (of_Z 20))))
  = "34, 0, 0" ++ nl.
Proof. vm_compute. reflexivity. Qed.

(** C2, as the code has it. With the inch as the unit of the path and
    sampled points that end with (10, 0) and (14, 0), the line written
    before the sentinel line is that of the point (34, 0) with speed 0: the
    point 4 + 20 away from (10, 0) toward (14, 0). *)
Theorem encode_ghost_example (this : LemLibFormatV0_4) (app : MainApp)
    (path : Path) (pre : list Point) (s2 s1 : number) :
  uol (gc this) = Inch ->
  interestedPath app = Some path -> splines path <> [] ->
  calculatePoints app path (gc this)
  = (pre ++ [new_Point (new_Vector (of_Z 10) (of_Z 0)) s2;
             new_Point (new_Vector (of_Z 14) (of_Z 0)) s1])%list ->
  exportPathFile this app
  = inr (join (map (point_line inch_to_inch) (calculatePoints app path (gc this)))
         ++ ("34, 0, 0" ++ nl)
         ++ "endData" ++ nl
         ++ after_sentinel inch_to_inch path (exportPathFileData app)).
Proof.
  intros Hu Hp Hs E.
  rewrite (export_text this app path Hp Hs), E, ghost_block_two, Hu.
  cbn [vector]. fold inch_to_inch. now rewrite ghost_of_example.
Qed.

Lemma encode_ghost_example_witness :
  exportPathFile format0 (app_with path_straight points_two)
  = inr ("10, 0, 50" ++ nl ++ "14, 0, 50" ++ nl ++ "34, 0, 0" ++ nl
         ++ "endData" ++ nl ++ "200" ++ nl ++ "100" ++ nl ++ "200" ++ nl
         ++ "0, 0, 5, 0, 5, 0, 10, 0" ++ nl ++ "#PATH.JERRYIO-DATA {}").
Proof.
  rewrite (encode_ghost_example format0 (app_with path_straight points_two)
             path_straight [] (of_Z 50) (of_Z 50) eq_refl eq_refl
             ltac:(discriminate) eq_refl).
  vm_compute. reflexivity.
Defined.

(** C2, as stated, fails: with the inch as the unit and the sampled points
    (10, 0) and (14, 0), the third line of the export, the line of the ghost
    point, is [34, 0, 0] and not [18, 0, 0]. *)
Lemma ghost_example_not_18 :
  exists text,
    exportPathFile format0 (app_with path_straight points_two) = inr text
    /\ split nl text
       = ["10, 0, 50"; "14, 0, 50"; "34, 0, 0"; "endData"; "200"; "100";
          "200"; "0, 0, 5, 0, 5, 0, 10, 0"; "#PATH.JERRYIO-DATA {}"]
    /\ nth_error (split nl text) 2 <> Some "18, 0, 0".
Proof.
  eexists. split; [vm_compute; reflexivity|].
  split; [vm_compute; reflexivity|]. vm_compute. discriminate.
Qed.

(** C7. The encoder writes the control section after the header, one line
    for each spline, and the line of a spline of two controls [p0] and [p1]
    has four pairs: [p0], the middle of [p0] and [p1] twice, and [p1], each
    converted to inches. *)
Theorem encode_straight_spline (this : LemLibFormatV0_4) (app : MainApp)
    (path : Path) :
  interestedPath app = Some path -> splines path <> [] ->
  let uc := new_UnitConverter (uol (gc this)) Inch in
  let points := calculatePoints app path (gc this) in
  exportPathFile this app
  = inr (join (map (point_line uc) points) ++ ghost_block uc points
         ++ "endData" ++ nl ++ "200" ++ nl
         ++ toString (to (speedLimit (pc path))) ++ nl ++ "200" ++ nl
         ++ join (map (spline_text uc) (splines path))
         ++ "#PATH.JERRYIO-DATA " ++ exportPathFileData app)
  /\ forall s, In s (splines path) -> interior s = [] ->
       let p0 := position (first s) in
       let p1 := position (last s) in
       let center := Vector_divide (Vector_add p0 p1)
                       (new_Vector (of_Z 2) (of_Z 2)) in
       spline_text uc s
       = toString (fromAtoB uc (x p0)) ++ ", "
         ++ toString (fromAtoB uc (y p0)) ++ ", "
         ++ toString (fromAtoB uc (x center)) ++ ", "
         ++ toString (fromAtoB uc (y center)) ++ ", "
         ++ toString (fromAtoB uc (x center)) ++ ", "
         ++ toString (fromAtoB uc (y center)) ++ ", "
         ++ toString (fromAtoB uc (x p1)) ++ ", "
         ++ toString (fromAtoB uc (y p1)) ++ nl.
Proof.
  intros Hp Hs uc points. split.
  - rewrite (export_text this app path Hp Hs). reflexivity.
  - intros s _ Hi p0 p1 center. unfold spline_text, controls. rewrite Hi.
    cbn [List.app]. fold p0 p1 center. unfold output.
    now rewrite !string_app_assoc.
Qed.

(** The straight spline from (0, 0) to (10, 0) is written as
    [0, 0, 5, 0, 5, 0, 10, 0]. *)
Lemma encode_straight_spline_witness :
  spline_text inch_to_inch straight = "0, 0, 5, 0, 5, 0, 10, 0" ++ nl
  /\ exportPathFile format0 (app_with path_straight points_two)
     = inr ("10, 0, 50" ++ nl ++ "14, 0, 50" ++ nl ++ "34, 0, 0" ++ nl
            ++ "endData" ++ nl ++ "200" ++ nl ++ "100" ++ nl ++ "200" ++ nl
            ++ "0, 0, 5, 0, 5, 0, 10, 0" ++ nl ++ "#PATH.JERRYIO-DATA {}").
Proof.
  destruct (encode_straight_spline format0 (app_with path_straight points_two)
              path_straight eq_refl ltac:(discriminate)) as [H1 H2].
  split.
  - etransitivity; [exact (H2 straight (or_introl eq_refl) eq_refl)|].
    vm_compute. reflexivity.
  - rewrite H1. vm_compute. reflexivity.
Defined.

(** ** What the decoder guarantees *)

(** C8. A text none of whose lines is exactly [endData] is refused as a
    whole: the decoder throws the missing-sentinel error and returns no
    data, so no path, complete or partial. *)
Theorem decode_missing_sentinel (this : LemLibFormatV0_4) (text : string) :
  ~ In "endData" (split nl text) ->
  recoverPathFileData this text = inl MissingSentinel
  /\ forall data, recoverPathFileData this text <> inr data.
Proof.
  intros H.
  assert (E : recoverPathFileData this text = inl MissingSentinel).
  { open_recover.
    rewrite findIndex_None; [reflexivity|].
    intros line Hin. apply String.eqb_neq. intros ->. now apply H. }
  split; [exact E|]. intros data. now rewrite E.
Qed.

Lemma decode_missing_sentinel_witness :
  recoverPathFileData format0 text_no_sentinel = inl MissingSentinel
  /\ forall data, recoverPathFileData format0 text_no_sentinel <> inr data.
Proof.
  apply (decode_missing_sentinel format0 text_no_sentinel).
  vm_compute. intuition discriminate.
Defined.

(** C9. When the sentinel is found and the line two after it is a number,
    but no line lies between index sentinel + 4 and the second-to-last
    line, the decoder returns a result whose list of paths is empty: no
    path is built and nothing is thrown. *)
Theorem decode_no_spline_lines (this : LemLibFormatV0_4) (text : string)
    (i : nat) (l : string) :
  findIndex is_sentinel (split nl text) = Some i ->
  nth_error (split nl text) (i + 2) = Some l ->
  isNaN (Number l) = false ->
  (List.length (split nl text) - 1 <= i + 4)%nat ->
  recoverPathFileData this text = inr (new_PathFileData (gc this) []).
Proof.
  intros Hi Hl Hn Hlen.
  rewrite (recover_after_header this text i l Hi Hl Hn).
  now rewrite lines_from_nil.
Qed.

Lemma decode_no_spline_lines_witness :
  recoverPathFileData format0 (header "100")
  = inr (new_PathFileData (gc format0) []).
Proof.
  apply (decode_no_spline_lines format0 (header "100") 0 "100").
  - reflexivity.
  - reflexivity.
  - reflexivity.
  - vm_compute. lia.
Defined.

(** C10. The last line of the text, what follows the final newline, is
    never read: two texts that agree up to and including the final newline,
    with the sentinel and the maximum-speed line before it, decode to the
    same result. *)
Theorem decode_ignores_last_line (this : LemLibFormatV0_4)
    (p t1 t2 : string) (i : nat) :
  contains newline t1 = false ->
  contains newline t2 = false ->
  findIndex is_sentinel (split nl p) = Some i ->
  (i + 2 < List.length (split nl p))%nat ->
  recoverPathFileData this (p ++ nl ++ t1)
  = recoverPathFileData this (p ++ nl ++ t2).
Proof.
  intros H1 H2 Hi Hlen.
  destruct (nth_error (split nl p) (i + 2)) as [l|] eqn:Hl;
    [|apply nth_error_None in Hl; lia].
  assert (E : forall t, contains newline t = false ->
    recoverPathFileData this (p ++ nl ++ t)
    = if isNaN (Number l) then inl InvalidMaxSpeed
      else let* paths := scan this (Number l) (i + 4)
                           (skipn (i + 4) (split nl p)) [] in
           inr (new_PathFileData (gc this) paths)).
  { intros t Ht. open_recover.
    rewrite split_newline, (split_one_line t Ht).
    rewrite (findIndex_app _ _ _ _ _ Hi), nth_error_app1, Hl by lia.
    destruct (isNaN (Number l)); [reflexivity|].
    now rewrite lines_from_last. }
  now rewrite (E t1 H1), (E t2 H2).
Qed.

(** An unterminated last line that is a well-formed spline line is dropped:
    the text decodes as the text without it, to no path at all. *)
Lemma decode_ignores_last_line_witness :
  recoverPathFileData format0 (header "100" ++ line_a ++ nl ++ line_b)
  = recoverPathFileData format0 (header "100" ++ line_a ++ nl ++ EmptyString)
  /\ recoverPathFileData format0 ("endData" ++ nl ++ "200" ++ nl ++ "100"
                                    ++ nl ++ "200" ++ nl ++ line_a)
     = inr (new_PathFileData (gc format0) []).
Proof.
  split.
  - apply (decode_ignores_last_line format0 (header "100" ++ line_a)
             line_b EmptyString 0); try reflexivity.
    vm_compute. lia.
  - transitivity (recoverPathFileData format0 (header "100")); [|reflexivity].
    apply (decode_ignores_last_line format0
             ("endData" ++ nl ++ "200" ++ nl ++ "100" ++ nl ++ "200")
             line_a EmptyString 0); try reflexivity.
    vm_compute. lia.
Defined.

(** C6. A line that the loop reaches (index [k], from sentinel + 4 and
    before the last line) is split on [", "]; unless that gives exactly
    eight tokens that are all numbers, the decoder throws the spline error
    naming line [k + 1]. *)
Theorem decode_malformed_line (this : LemLibFormatV0_4) (text : string)
    (i : nat) (l : string) (k : nat) (line : string) (paths : list Path) :
  findIndex is_sentinel (split nl text) = Some i ->
  nth_error (split nl text) (i + 2) = Some l ->
  isNaN (Number l) = false ->
  (i + 4 <= k)%nat -> (k + 1 < List.length (split nl text))%nat ->
  nth_error (split nl text) k = Some line ->
  scan this (Number l) (i + 4)
    (firstn (k - (i + 4)) (skipn (i + 4) (split nl text))) [] = inr paths ->
  List.length (split ", " line) <> 8%nat
  \/ (exists tok, In tok (split ", " line) /\ isNaN (Number tok) = true) ->
  recoverPathFileData this text
  = inl (new_Error ("Invalid file format, unable to parse spline at line "
                    ++ digits_of_nat (k + 1))).
Proof.
  intros Hi Hl Hn Hik Hk Hline Hscan Hbad.
  apply (recover_stops this text i l k line paths _ Hi Hl Hn Hik Hk Hline Hscan).
  now rewrite (parse_spline_malformed k line Hbad).
Qed.

Lemma decode_malformed_line_witness :
  recoverPathFileData format0 text_seven
  = inl (new_Error "Invalid file format, unable to parse spline at line 6")
  /\ recoverPathFileData format0 text_nine
     = inl (new_Error "Invalid file format, unable to parse spline at line 6")
  /\ recoverPathFileData format0 text_word
     = inl (new_Error "Invalid file format, unable to parse spline at line 6").
Proof.
  pose (ps := scanned (scan format0 (Number "100") 4 [line_a] [])).
  split; [|split].
  - apply (decode_malformed_line format0 text_seven 0 "100" 5
             "3, 3, 4, 4, 5, 5, 6" ps); try reflexivity.
    + vm_compute. lia.
    + vm_compute. lia.
    + left. vm_compute. lia.
  - apply (decode_malformed_line format0 text_nine 0 "100" 5
             "3, 3, 4, 4, 5, 5, 6, 7, 8" ps); try reflexivity.
    + vm_compute. lia.
    + vm_compute. lia.
    + left. vm_compute. lia.
  - apply (decode_malformed_line format0 text_word 0 "100" 5
             "3, 3, 4, 4, five, 5, 6, 7" ps); try reflexivity.
    + vm_compute. lia.
    + vm_compute. lia.
    + right. exists "five". split; [vm_compute; tauto|reflexivity].
Defined.

(** C4, as the code has it. A line after the first spline line that is
    well formed is compared with the last spline read before it; when its
    first end point differs from that spline's last end point in a
    coordinate, the decoder throws the spline error naming line [k + 1],
    the very error of a malformed line. *)
Theorem decode_discontinuous_line (this : LemLibFormatV0_4) (text : string)
    (i : nat) (l : string) (k : nat) (line : string) (paths : list Path)
    (spline : Spline) :
  findIndex is_sentinel (split nl text) = Some i ->
  nth_error (split nl text) (i + 2) = Some l ->
  isNaN (Number l) = false ->
  (i + 4 < k)%nat -> (k + 1 < List.length (split nl text))%nat ->
  nth_error (split nl text) k = Some line ->
  scan this (Number l) (i + 4)
    (firstn (k - (i + 4)) (skipn (i + 4) (split nl text))) [] = inr paths ->
  parse_spline k line = inr spline ->
  exists path lastSpline,
    paths = [path] /\ last_of (splines path) = Some lastSpline /\
    (strict_neq (x (position (last lastSpline))) (x (position (first spline)))
     || strict_neq (y (position (last lastSpline))) (y (position (first spline)))
     = true ->
     recoverPathFileData this text
     = inl (new_Error ("Invalid file format, unable to parse spline at line "
                       ++ digits_of_nat (k + 1)))).
Proof.
  intros Hi Hl Hn Hik Hk Hline Hscan Hparse.
  destruct (scan_one_path _ _ _ _ _ _ (or_introl eq_refl) Hscan)
    as [[Hnil _]|(path & lastSpline & -> & Hlast)].
  - apply (f_equal (@List.length string)) in Hnil.
    rewrite length_firstn, length_skipn in Hnil. simpl in Hnil. lia.
  - exists path, lastSpline. split; [reflexivity|]. split; [exact Hlast|].
    intros Hdiff.
    apply (recover_stops this text i l k line [path] _ Hi Hl Hn); trivial;
      [lia|].
    rewrite Hparse. cbn [bind]. unfold push.
    change (List.length [path] =? 0)%nat with false.
    change (last_of [path]) with (Some path). cbv iota.
    now rewrite Hlast, Hdiff.
Qed.

Lemma decode_discontinuous_line_witness :
  recoverPathFileData format0 text_gap
  = inl (new_Error "Invalid file format, unable to parse spline at line 6").
Proof.
  pose (ps := scanned (scan format0 (Number "100") 4 [line_a] [])).
  pose (sp := new_Spline (new_EndPointControl (of_decimal false 35 (-1))
                            (of_Z 3) (of_Z 0))
                [new_Control (of_Z 4) (of_Z 4); new_Control (of_Z 5) (of_Z 5)]
                (new_EndPointControl (of_Z 6) (of_Z 7) (of_Z 0))).
  destruct (decode_discontinuous_line format0 text_gap 0 "100" 5
              "3.5, 3, 4, 4, 5, 5, 6, 7" ps sp
              ltac:(vm_compute; reflexivity) ltac:(vm_compute; reflexivity)
              ltac:(vm_compute; reflexivity) ltac:(lia) ltac:(vm_compute; lia)
              ltac:(vm_compute; reflexivity) ltac:(vm_compute; reflexivity)
              ltac:(vm_compute; reflexivity))
    as (path & lastSpline & Hps & Hlast & H).
  apply H. subst ps sp. vm_compute in Hps. injection Hps as <-.
  vm_compute in Hlast. injection Hlast as <-. vm_compute. reflexivity.
Defined.

(** C4, as stated, fails: the text [text_gap], whose spline lines are both
    well formed and whose second spline starts away from the end of the
    first, and the text [text_seven], whose second spline line has seven
    tokens, are refused with one and the same error. *)
Lemma discontinuity_error_not_distinct :
  (exists sp, parse_spline 5 "3.5, 3, 4, 4, 5, 5, 6, 7" = inr sp)
  /\ List.length (split ", " "3, 3, 4, 4, 5, 5, 6") = 7%nat
  /\ recoverPathFileData format0 text_gap
     = inl (new_Error "Invalid file format, unable to parse spline at line 6")
  /\ recoverPathFileData format0 text_seven
     = recoverPathFileData format0 text_gap.
Proof.
  split; [eexists; vm_compute; reflexivity|].
  repeat split; vm_compute; reflexivity.
Qed.

(** C5, as the code has it. The line two after the sentinel is read by
    [Number]; when it is missing or not a number the decoder throws the
    maximum-speed error; otherwise every path of the result has, as the
    upper bound of its speed limit, that number rounded to three decimals
    and clamped into [0, 127]: a number that is neither below 0 nor above
    127. *)
Theorem decode_max_speed (this : LemLibFormatV0_4) (text : string) (i : nat) :
  findIndex is_sentinel (split nl text) = Some i ->
  match nth_error (split nl text) (i + 2) with
  | Some l =>
      if isNaN (Number l)
      then recoverPathFileData this text = inl InvalidMaxSpeed
      else forall data p,
             recoverPathFileData this text = inr data -> In p (paths data) ->
             to (speedLimit (pc p))
             = clamp (Number (toFixed3 (Number l))) (of_Z 0) (of_Z 127)
             /\ isNaN (to (speedLimit (pc p))) = false
             /\ lt (to (speedLimit (pc p))) (of_Z 0) = false
             /\ lt (of_Z 127) (to (speedLimit (pc p))) = false
  | None => recoverPathFileData this text = inl InvalidMaxSpeed
  end.
Proof.
  intros Hi.
  destruct (nth_error (split nl text) (i + 2)) as [l|] eqn:Hl.
  - destruct (isNaN (Number l)) eqn:Hn.
    + open_recover.
      now rewrite Hi, Hl, Hn.
    + intros data p. rewrite (recover_after_header this text i l Hi Hl Hn).
      destruct (scan _ _ _ _ _) as [e|ps] eqn:Hscan; cbn [bind];
        [discriminate|].
      intros [= <-] Hp. cbn [paths] in Hp.
      pose proof (scan_speed_limit _ _ _ _ _ _ (Forall_nil _) Hscan)
        as H.
      rewrite Forall_forall in H. rewrite (H p Hp).
      split; [reflexivity|].
      apply clamp_bounds, Number_toFixed3_number, Hn.
  - open_recover.
    now rewrite Hi, Hl.
Qed.

(** A maximum speed of 130 is recovered as 127. *)
Lemma decode_max_speed_witness :
  exists data p,
    recoverPathFileData format0 (text_two "130") = inr data
    /\ paths data = [p]
    /\ List.length (splines p) = 2%nat
    /\ to (speedLimit (pc p)) = of_Z 127.
Proof.
  pose proof (decode_max_speed format0 (text_two "130") 0 eq_refl) as H.
  change (nth_error (split nl (text_two "130")) (0 + 2)) with (Some "130") in H.
  change (isNaN (Number "130")) with false in H. cbv iota in H.
  destruct (recoverPathFileData format0 (text_two "130")) as [e|data] eqn:E;
    [vm_compute in E; discriminate E|].
  destruct (paths data) as [|p [|q r]] eqn:Ep;
    try (vm_compute in E; injection E as <-; discriminate Ep).
  exists data, p. split; [reflexivity|]. split; [exact Ep|]. split.
  - vm_compute in E. injection E as <-. injection Ep as <-. reflexivity.
  - destruct (H data p eq_refl) as [-> _]; [|reflexivity]. rewrite Ep. now left.
Defined.

(** C5, as stated, fails: a maximum-speed line [Infinity] is not a finite
    number, yet the decoder does not throw; the bound it recovers is 127. *)
Lemma decode_accepts_infinite_speed :
  Number "Infinity" = S754_infinity false
  /\ recoverPathFileData format0 (text_two "Infinity") <> inl InvalidMaxSpeed
  /\ map (fun p => to (speedLimit (pc p)))
       (paths_of (recoverPathFileData format0 (text_two "Infinity")))
     = [of_Z 127].
Proof.
  split; [reflexivity|]. split; [|reflexivity].
  vm_compute. discriminate.
Qed.

(** ** The invariant of the loop *)

Lemma parse_spline_error (i : nat) (line : string) (e : Error) :
  parse_spline i line = inl e -> e = error i.
Proof.
  unfold parse_spline.
  destruct (split ", " line) as [|t0 [|t1 [|t2 [|t3 [|t4 [|t5 [|t6 [|t7 [|t8 r]]]]]]]]];
    try (now intros [= <-]).
  unfold num.
  repeat match goal with
  | |- context [isNaN (Number ?t)] =>
      destruct (isNaN (Number t)) eqn:?; cbn [bind]; [now intros [= <-]|]
  end.
  discriminate.
Qed.

Lemma parse_spline_shape (i : nat) (line : string) (s : Spline) :
  parse_spline i line = inr s -> decoder_spline s.
Proof.
  unfold parse_spline.
  destruct (split ", " line) as [|t0 [|t1 [|t2 [|t3 [|t4 [|t5 [|t6 [|t7 [|t8 r]]]]]]]]];
    try discriminate.
  unfold num.
  repeat match goal with
  | |- context [isNaN (Number ?t)] =>
      destruct (isNaN (Number t)) eqn:?; cbn [bind]; [discriminate|]
  end.
  intros [= <-]. unfold decoder_spline, controls. cbn.
  repeat split; trivial.
  repeat constructor; cbn [x y]; now apply (fixPrecision_number (Number _)).
Qed.

(** The result of the loop body does not depend on the index, but for the
    line number in the error. *)
Lemma parse_spline_index (i j : nat) (line : string) (s : Spline) :
  parse_spline i line = inr s -> parse_spline j line = inr s.
Proof.
  unfold parse_spline.
  destruct (split ", " line) as [|t0 [|t1 [|t2 [|t3 [|t4 [|t5 [|t6 [|t7 [|t8 r]]]]]]]]];
    try discriminate.
  unfold num.
  repeat match goal with
  | |- context [isNaN (Number ?t)] =>
      destruct (isNaN (Number t)) eqn:?; cbn [bind]; [discriminate|]
  end.
  trivial.
Qed.

Lemma joined_snoc (ss : list Spline) (l s : Spline) :
  joined ss -> last_of ss = Some l ->
  strict_eq (x (position (last l))) (x (position (first s))) = true ->
  strict_eq (y (position (last l))) (y (position (first s))) = true ->
  joined (ss ++ [s]).
Proof.
  intros Hj Hl Hx Hy. induction ss as [|a ss IH]; [discriminate Hl|].
  destruct ss as [|b ss].
  - injection Hl as ->. cbn. auto.
  - destruct Hj as [Hab Hj]. cbn [List.app joined]. split; [exact Hab|].
    apply IH; [exact Hj|]. unfold last_of in *. cbn [List.length] in *.
    replace (S (S (List.length ss)) - 1)%nat with (S (S (List.length ss) - 1))
      in Hl by lia. exact Hl.
Qed.

Lemma strict_neq_false (a b : number) :
  strict_neq a b = false -> strict_eq a b = true.
Proof. unfold strict_neq. now destruct (strict_eq a b). Qed.

Section LoopInvariant.

Variable this : LemLibFormatV0_4.
Variable maxSpeed : number.

(** [push] either adds the spline, keeping the invariant, or calls
    [error]. *)
Lemma push_invariant (i : nat) (ps : list Path) (s : Spline) :
  loop_invariant ps -> decoder_spline s ->
  (exists ps', push this maxSpeed i ps s = inr ps'
               /\ loop_invariant ps' /\ ps' <> []
               /\ spline_count ps' = S (spline_count ps))
  \/ (push this maxSpeed i ps s = inl (error i) /\ ps <> []).
Proof.
  intros [->|(p & -> & Hne & Hd & Hj)] Hs; unfold push.
  - left. cbn [List.length Nat.eqb List.app]. eexists. split; [reflexivity|].
    split; [|split; [discriminate|reflexivity]].
    right. eexists. split; [reflexivity|]. cbn [splines new_Path].
    split; [discriminate|]. split; [now constructor|exact I].
  - change (List.length [p] =? 0)%nat with false.
    change (last_of [p]) with (Some p). cbv iota.
    destruct (last_of (splines p)) as [l|] eqn:Hl.
    + destruct (strict_neq _ _ || strict_neq _ _) eqn:E.
      * right. split; [reflexivity|discriminate].
      * left. apply orb_false_iff in E as [Ex Ey].
        eexists. split; [reflexivity|]. cbn [removelast List.app].
        split; [|split; [discriminate|]].
        -- right. eexists. split; [reflexivity|]. cbn [splines].
           split; [now destruct (splines p)|]. split.
           ++ apply Forall_app. split; [exact Hd|now constructor].
           ++ eapply joined_snoc; eauto using strict_neq_false.
        -- unfold spline_count. simpl. rewrite length_app. simpl. lia.
    + exfalso. unfold last_of in Hl. apply nth_error_None in Hl.
      destruct (splines p); [now apply Hne|cbn [List.length] in Hl; lia].
Qed.

(** The loop ends with the invariant and one spline more for each line, or
    it stops with [error] at one of the lines. *)
Lemma scan_invariant (rest : list string) :
  forall (i : nat) (ps : list Path),
  loop_invariant ps ->
  (exists ps', scan this maxSpeed i rest ps = inr ps'
               /\ loop_invariant ps'
               /\ spline_count ps' = (spline_count ps + List.length rest)%nat)
  \/ (exists k, scan this maxSpeed i rest ps = inl (error k)
                /\ (i <= k < i + List.length rest)%nat).
Proof.
  induction rest as [|line rest IH]; intros i ps Hps.
  - left. exists ps. cbn [scan List.length].
    split; [reflexivity|]. split; [exact Hps|lia].
  - cbn [scan]. destruct (parse_spline i line) as [e|s] eqn:Hp; cbn [bind].
    + right. exists i. rewrite (parse_spline_error _ _ _ Hp). cbn. split; [reflexivity|lia].
    + destruct (push_invariant i ps s Hps (parse_spline_shape _ _ _ Hp))
        as [(ps1 & -> & H1 & _ & Hc)|[-> _]]; cbn [bind].
      * destruct (IH (S i) ps1 H1) as [(ps' & -> & H' & Hc')|(k & -> & Hk)].
        -- left. exists ps'. repeat split; trivial. cbn [List.length]. lia.
        -- right. exists k. split; [reflexivity|]. cbn [List.length]. lia.
      * right. exists i. split; [reflexivity|]. cbn [List.length]. lia.
Qed.

(** Reading the same lines from another index succeeds with the same
    paths. *)
Lemma scan_index (rest : list string) :
  forall (i j : nat) (ps ps' : list Path),
  scan this maxSpeed i rest ps = inr ps' ->
  scan this maxSpeed j rest ps = inr ps'.
Proof.
  induction rest as [|line rest IH]; intros i j ps ps'; cbn [scan]; [trivial|].
  destruct (parse_spline i line) as [e|s] eqn:Hp; cbn [bind]; [discriminate|].
  rewrite (parse_spline_index i j line s Hp). cbn [bind].
  assert (Hpush : forall r, push this maxSpeed i ps s = inr r ->
                            push this maxSpeed j ps s = inr r).
  { unfold push. destruct (_ =? _)%nat; [trivial|].
    destruct (last_of ps) as [p|]; [|discriminate].
    destruct (last_of (splines p)); [|discriminate].
    destruct (_ || _); [discriminate|trivial]. }
  destruct (push this maxSpeed i ps s) as [e|ps1]; cbn [bind]; [discriminate|].
  rewrite (Hpush ps1 eq_refl). cbn [bind].
  apply IH.
Qed.

End LoopInvariant.

(** ** The outcomes of the decoder *)

Lemma length_lines_from (l : list string) (i : nat) :
  List.length (lines_from l i) = (List.length l - 1 - i)%nat.
Proof. unfold lines_from. rewrite length_firstn, length_skipn. lia. Qed.

Lemma findIndex_sentinel_None (l : list string) :
  findIndex is_sentinel l = None -> ~ In "endData" l.
Proof.
  induction l as [|a l IH]; cbn [findIndex]; [now intros _ []|].
  destruct (is_sentinel a) eqn:E; [discriminate|].
  destruct (findIndex is_sentinel l); [discriminate|].
  intros _ [->|H]; [discriminate E|now apply IH].
Qed.

Lemma findIndex_sentinel_Some (l : list string) (i : nat) :
  findIndex is_sentinel l = Some i -> In "endData" l.
Proof.
  revert i. induction l as [|a l IH]; intros i; cbn [findIndex]; [discriminate|].
  destruct (is_sentinel a) eqn:E.
  - intros _. left. now apply String.eqb_eq in E.
  - destruct (findIndex is_sentinel l) as [j|]; [|discriminate].
    intros _. right. now apply (IH j).
Qed.

(** The four outcomes of the decoder. *)
Lemma recover_outcome (this : LemLibFormatV0_4) (text : string) :
  (findIndex is_sentinel (split nl text) = None
   /\ recoverPathFileData this text = inl MissingSentinel)
  \/ exists i, findIndex is_sentinel (split nl text) = Some i
     /\ (recoverPathFileData this text = inl InvalidMaxSpeed
         \/ (exists ps,
               recoverPathFileData this text = inr (new_PathFileData (gc this) ps)
               /\ loop_invariant ps
               /\ spline_count ps = (List.length (split nl text) - 1 - (i + 4))%nat)
         \/ (exists k,
               recoverPathFileData this text = inl (error k)
               /\ (i + 4 <= k)%nat /\ (k + 1 < List.length (split nl text))%nat)).
Proof.
  destruct (findIndex is_sentinel (split nl text)) as [i|] eqn:Hi.
  - right. exists i. split; [reflexivity|].
    destruct (nth_error (split nl text) (i + 2)) as [l|] eqn:Hl.
    + destruct (isNaN (Number l)) eqn:Hn.
      * left. open_recover. now rewrite Hi, Hl, Hn.
      * right. rewrite (recover_after_header this text i l Hi Hl Hn).
        destruct (scan_invariant this (Number l)
                    (lines_from (split nl text) (i + 4)) (i + 4) []
                    (or_introl eq_refl))
          as [(ps & -> & Hinv & Hc)|(k & -> & Hk)]; cbn [bind].
        -- left. exists ps. rewrite length_lines_from in Hc. now repeat split.
        -- right. exists k. rewrite length_lines_from in Hk.
           split; [reflexivity|]. lia.
    + left. open_recover. now rewrite Hi, Hl.
  - left. split; [reflexivity|]. open_recover. now rewrite Hi.
Qed.

Lemma error_not_header (k : nat) :
  error k <> MissingSentinel /\ error k <> InvalidMaxSpeed.
Proof. split; intros [=]. Qed.

(** ** The lines that the decoder reads *)

Lemma split_unlines (L : list string) (t : string) :
  Forall one_line L -> one_line t -> split nl (unlines L t) = (L ++ [t])%list.
Proof. apply split_lines. Qed.

(** The decoder reads the index of the sentinel, the line two after it and
    the lines from the fourth after it to the last but one. *)
Lemma recover_by_lines (this : LemLibFormatV0_4) (t1 t2 : string) (i : nat) :
  findIndex is_sentinel (split nl t1) = Some i ->
  findIndex is_sentinel (split nl t2) = Some i ->
  nth_error (split nl t1) (i + 2) = nth_error (split nl t2) (i + 2) ->
  lines_from (split nl t1) (i + 4) = lines_from (split nl t2) (i + 4) ->
  recoverPathFileData this t1 = recoverPathFileData this t2.
Proof.
  intros H1 H2 Hn Hl. open_recover. now rewrite H1, H2, Hn, Hl.
Qed.

Lemma findIndex_skip (pre : list string) (l : list string) :
  ~ In "endData" pre ->
  findIndex is_sentinel (pre ++ l)
  = option_map (Nat.add (List.length pre)) (findIndex is_sentinel l).
Proof.
  intros H. induction pre as [|a pre IH]; cbn [List.app findIndex List.length].
  - now destruct (findIndex is_sentinel l).
  - destruct (is_sentinel a) eqn:E.
    + exfalso. apply H. left. symmetry. now apply String.eqb_eq in E.
    + rewrite IH by (intros Hin; apply H; now right).
      now destruct (findIndex is_sentinel l).
Qed.

Lemma lines_from_skip (pre l : list string) (j : nat) :
  lines_from (pre ++ l) (List.length pre + j) = lines_from l j.
Proof.
  unfold lines_from. rewrite length_app, skipn_app, skipn_all2 by lia.
  replace (List.length pre + j - List.length pre)%nat with j by lia.
  cbn [List.app]. f_equal. lia.
Qed.

Lemma lines_from_body (pre body : list string) (t : string) :
  lines_from (pre ++ body ++ [t]) (List.length pre) = body.
Proof.
  replace (List.length pre) with (List.length pre + 0)%nat at 1 by lia.
  rewrite lines_from_skip. unfold lines_from. cbn [skipn].
  rewrite length_app. cbn [List.length].
  replace (List.length body + 1 - 1 - 0)%nat with (List.length body + 0)%nat by lia.
  now rewrite firstn_app_2, app_nil_r.
Qed.

(** ** The accepted texts *)

Lemma parse_spline_values (i : nat) (line : string) :
  match line_values line with
  | Some vs =>
      exists s, parse_spline i line = inr s
        /\ x (position (first s)) = nth 0 vs NaN
        /\ y (position (first s)) = nth 1 vs NaN
        /\ x (position (last s)) = nth 6 vs NaN
        /\ y (position (last s)) = nth 7 vs NaN
  | None => parse_spline i line = inl (error i)
  end.
Proof.
  unfold line_values, parse_spline.
  destruct (split ", " line) as [|t0 [|t1 [|t2 [|t3 [|t4 [|t5 [|t6 [|t7 [|t8 r]]]]]]]]];
    try reflexivity.
  cbn [List.length Nat.eqb andb forallb map]. unfold num.
  repeat match goal with
  | |- context [isNaN (Number ?t)] =>
      destruct (isNaN (Number t)) eqn:?; cbn [bind negb andb]; [reflexivity|]
  end.
  eexists. split; [reflexivity|]. repeat split.
Qed.

Section Accepted.

Variable this : LemLibFormatV0_4.
Variable maxSpeed : number.

Lemma push_end (i : nat) (ps : list Path) (s : Spline) :
  loop_invariant ps ->
  match end_of ps with
  | None =>
      exists ps', push this maxSpeed i ps s = inr ps'
        /\ end_of ps' = Some (x (position (last s)), y (position (last s)))
  | Some (px, py) =>
      if strict_eq px (x (position (first s)))
         && strict_eq py (y (position (first s)))
      then exists ps', push this maxSpeed i ps s = inr ps'
             /\ end_of ps' = Some (x (position (last s)), y (position (last s)))
      else push this maxSpeed i ps s = inl (error i)
  end.
Proof.
  intros [->|(p & -> & Hne & _)]; unfold push, end_of.
  - cbn [List.length Nat.eqb List.app]. change (last_of (@nil Path)) with (@None Path).
    cbv iota. eexists. split; [reflexivity|]. reflexivity.
  - change (List.length [p] =? 0)%nat with false.
    change (last_of [p]) with (Some p). cbv iota.
    destruct (last_of (splines p)) as [l|] eqn:Hl.
    + unfold strict_neq.
      destruct (strict_eq (x (position (last l))) (x (position (first s))));
        destruct (strict_eq (y (position (last l))) (y (position (first s))));
        cbn [negb orb andb]; try reflexivity.
      eexists. split; [reflexivity|]. cbn [removelast List.app].
      change (last_of [?q]) with (Some q). cbv iota. cbn [splines].
      now rewrite last_of_snoc.
    + exfalso. unfold last_of in Hl. apply nth_error_None in Hl.
      destruct (splines p); [now apply Hne|cbn [List.length] in Hl; lia].
Qed.

Lemma scan_chained (rest : list string) :
  forall (i : nat) (ps : list Path),
  loop_invariant ps ->
  chained (end_of ps) rest = true
  <-> exists ps', scan this maxSpeed i rest ps = inr ps'.
Proof.
  induction rest as [|line rest IH]; intros i ps Hps; cbn [chained scan].
  - split; [eauto|trivial].
  - pose proof (parse_spline_values i line) as Hv.
    destruct (line_values line) as [vs|].
    + destruct Hv as (s & Hp & Hx1 & Hy1 & Hx4 & Hy4). rewrite Hp. cbn [bind].
      pose proof (push_end i ps s Hps) as He.
      pose proof (push_invariant this maxSpeed i ps s Hps
                    (parse_spline_shape _ _ _ Hp)) as Hi.
      rewrite <- Hx1, <- Hy1, <- Hx4, <- Hy4.
      assert (K : forall ps', push this maxSpeed i ps s = inr ps' ->
                  end_of ps' = Some (x (position (last s)), y (position (last s))) ->
                  (chained (Some (x (position (last s)), y (position (last s)))) rest
                   = true
                   <-> exists r, (let* paths' := push this maxSpeed i ps s in
                                  scan this maxSpeed (S i) rest paths') = inr r)).
      { intros ps' E1 E2. rewrite E1. cbn [bind]. rewrite <- E2. apply IH.
        destruct Hi as [(q & Hq & Hinv & _)|[Hq _]]; rewrite E1 in Hq;
          [now injection Hq as <-|discriminate]. }
      destruct (end_of ps) as [[px py]|].
      * destruct (strict_eq px _ && strict_eq py _).
        -- destruct He as (ps' & E1 & E2). cbn [andb]. now apply (K ps').
        -- rewrite He. cbn [andb bind]. split; [discriminate|now intros [r Hr]].
      * destruct He as (ps' & E1 & E2). cbn [andb]. now apply (K ps').
    + rewrite Hv. cbn [bind]. split; [discriminate|now intros [r Hr]].
Qed.

End Accepted.

(** ** The lines of any export *)

Lemma written_spline_two_or_four (s : Spline) :
  written_spline s = true <-> two_or_four s.
Proof.
  unfold written_spline, two_or_four, controls.
  cbn [List.length]. rewrite length_app. cbn [List.length].
  rewrite orb_true_iff, !Nat.eqb_eq. lia.
Qed.

Lemma spline_text_skipped (uc : UnitConverter) (s : Spline) :
  written_spline s = false -> spline_text uc s = EmptyString.
Proof.
  unfold written_spline, spline_text, controls.
  destruct (interior s) as [|a [|b [|c r]]]; cbn [List.app List.length Nat.eqb orb];
    try discriminate; try reflexivity.
  intros _. now destruct r.
Qed.

Lemma join_spline_lines_written (uc : UnitConverter) (ss : list Spline) :
  join (map (spline_text uc) ss)
  = join (map (fun l => l ++ nl) (map (spline_line uc) (filter written_spline ss))).
Proof.
  induction ss as [|s ss IH]; [reflexivity|].
  cbn [map filter join fold_right]. fold (join (map (spline_text uc) ss)).
  destruct (written_spline s) eqn:E.
  - rewrite spline_text_line by now apply written_spline_two_or_four.
    cbn [map join fold_right]. now rewrite IH.
  - now rewrite spline_text_skipped.
Qed.

Lemma before_sentinel (uc : UnitConverter) (points : list Point) :
  Forall (fun l => is_sentinel l = false)
    (map (point_body uc) points ++ ghost_lines uc points).
Proof.
  apply Forall_app. split.
  - apply Forall_forall. intros l Hl. apply in_map_iff in Hl as (pt & <- & _).
    apply comma_not_sentinel, point_body_shape.
  - eapply Forall_impl; [|apply ghost_lines_shape].
    intros l [_ H]. now apply comma_not_sentinel.
Qed.

(** The lines of an export up to the spline lines. *)
Lemma export_split (this : LemLibFormatV0_4) (app : MainApp) (path : Path) :
  interestedPath app = Some path -> splines path <> [] ->
  let uc := new_UnitConverter (uol (gc this)) Inch in
  let points := calculatePoints app path (gc this) in
  exists text,
    exportPathFile this app = inr text
    /\ split nl text
       = ((map (point_body uc) points ++ ghost_lines uc points)
          ++ ["endData"; "200"; toString (to (speedLimit (pc path))); "200"]
          ++ split nl (join (map (spline_text uc) (splines path))
                       ++ "#PATH.JERRYIO-DATA " ++ exportPathFileData app))%list.
Proof.
  intros Hp Hs uc points.
  destruct (export_lines_before this app path Hp Hs) as (text & He & Hl).
  exists text. split; [exact He|]. rewrite Hl. fold uc points.
  rewrite <- !app_assoc. do 2 f_equal. cbn [List.app]. f_equal.
  unfold after_sentinel.
  change (?a :: ?b :: ?c :: split nl ?r) with ([a; b; c] ++ split nl r)%list.
  rewrite <- split_lines_then
    by (repeat constructor; apply toString_no_newline).
  cbn [map join fold_right]. now rewrite !string_app_assoc.
Qed.

(** The lines of an export. *)
Lemma export_lines_written (this : LemLibFormatV0_4) (app : MainApp)
    (path : Path) :
  interestedPath app = Some path -> splines path <> [] ->
  contains newline (exportPathFileData app) = false ->
  let uc := new_UnitConverter (uol (gc this)) Inch in
  let points := calculatePoints app path (gc this) in
  exists text,
    exportPathFile this app = inr text
    /\ split nl text
       = ((map (point_body uc) points ++ ghost_lines uc points)
          ++ ["endData"; "200"; toString (to (speedLimit (pc path))); "200"]
          ++ map (spline_line uc) (filter written_spline (splines path))
          ++ [("#PATH.JERRYIO-DATA " ++ exportPathFileData app)%string])%list.
Proof.
  intros Hp Hs Hj uc points.
  destruct (export_split this app path Hp Hs) as (text & He & Hl).
  exists text. split; [exact He|]. rewrite Hl. fold uc points.
  do 2 f_equal. rewrite join_spline_lines_written. apply split_lines.
  - apply Forall_forall. intros l Hin. apply in_map_iff in Hin as (sp & <- & _).
    apply spline_line_no_newline.
  - rewrite contains_app, Hj. reflexivity.
Qed.

Lemma export_path (this : LemLibFormatV0_4) (app : MainApp) (text : string) :
  exportPathFile this app = inr text ->
  exists path, interestedPath app = Some path /\ splines path <> [].
Proof.
  unfold exportPathFile. destruct (interestedPath app) as [path|]; [|discriminate].
  destruct (splines path) eqn:E; [discriminate|]. intros _. exists path.
  split; [reflexivity|]. now rewrite E.
Qed.

Lemma length_ghost_lines (uc : UnitConverter) (points : list Point) :
  List.length (ghost_lines uc points)
  = if (1 <? List.length points)%nat then 1%nat else 0%nat.
Proof.
  unfold ghost_lines. destruct (1 <? List.length points)%nat eqn:E; [|reflexivity].
  apply Nat.ltb_lt in E.
  destruct (nth_error points (List.length points - 2)) eqn:E2;
    [|apply nth_error_None in E2; lia].
  destruct (nth_error points (List.length points - 1)) eqn:E1;
    [|apply nth_error_None in E1; lia].
  reflexivity.
Qed.

Lemma written_rereads_finite (uc : UnitConverter) (path : Path) :
  Forall (fun s => finite_controls s = true) (splines (written_path path)) ->
  Forall (fun s => spline_rereads uc s = true) (splines (written_path path)).
Proof.
  cbn [written_path splines]. rewrite !Forall_forall. intros H s Hin.
  apply spline_rereads_finite; [|now apply H].
  apply filter_In in Hin. now apply written_spline_two_or_four.
Qed.

(** What the decoder reads in the export of any path whose written numbers
    are read back as numbers. *)
Lemma export_recover_written (this : LemLibFormatV0_4) (app : MainApp)
    (path : Path) :
  interestedPath app = Some path ->
  splines path <> [] ->
  continuous (splines (written_path path)) ->
  Forall (fun s => spline_rereads (new_UnitConverter (uol (gc this)) Inch) s = true)
    (splines (written_path path)) ->
  isNaN (Number (toString (to (speedLimit (pc path))))) = false ->
  one_line (exportPathFileData app) ->
  exists text,
    exportPathFile this app = inr text
    /\ recoverPathFileData this text
       = inr (new_PathFileData (gc this)
                match splines (written_path path) with
                | [] => []
                | _ => [decoded_path this (new_UnitConverter (uol (gc this)) Inch)
                          (written_path path)]
                end).
Proof.
  intros Hp Hs Hc Hr Hto Hj.
  destruct (export_lines_written this app path Hp Hs Hj) as (text & Het & Hlines).
  exists text. split; [exact Het|].
  unfold written_path in *. cbn [splines] in *.
  set (uc := new_UnitConverter (uol (gc this)) Inch) in *.
  set (pre := (map (point_body uc) (calculatePoints app path (gc this))
               ++ ghost_lines uc (calculatePoints app path (gc this)))%list) in *.
  set (TO := toString (to (speedLimit (pc path)))) in *.
  set (ss := filter written_spline (splines path)) in *.
  set (meta := "#PATH.JERRYIO-DATA " ++ exportPathFileData app) in *.
  assert (Hi : findIndex is_sentinel (split nl text) = Some (List.length pre)).
  { rewrite Hlines. cbn [List.app]. apply findIndex_first; [|reflexivity].
    apply before_sentinel. }
  assert (Hl : nth_error (split nl text) (List.length pre + 2) = Some TO).
  { rewrite Hlines, nth_error_app2 by lia.
    now replace (List.length pre + 2 - List.length pre)%nat with 2%nat by lia. }
  rewrite (recover_after_header this text _ TO Hi Hl Hto).
  replace (lines_from (split nl text) (List.length pre + 4))
    with (map (spline_line uc) ss).
  - assert (H4 : Forall two_or_four ss).
    { apply Forall_forall. intros s Hin. apply written_spline_two_or_four.
      unfold ss in Hin. now apply filter_In in Hin. }
    destruct ss as [|s0 ss0]; [reflexivity|].
    rewrite (scan_export this (Number TO) uc _ (s0 :: ss0)
               ltac:(discriminate) H4 Hr Hc).
    reflexivity.
  - rewrite Hlines. symmetry.
    pose proof (lines_from_body (pre ++ ["endData"; "200"; TO; "200"])
                  (map (spline_line uc) ss) meta) as H.
    rewrite length_app, <- app_assoc in H. exact H.
Qed.

(** ** The two revisions *)

Lemma map_removelast (A B : Type) (f : A -> B) (l : list A) :
  map f (removelast l) = removelast (map f l).
Proof.
  induction l as [|a [|b l] IH]; try reflexivity.
  cbn [removelast map] in *. now rewrite IH.
Qed.

Lemma earlier_push (this : LemLibFormatV0_4) (maxSpeed : number) (i : nat)
    (ps1 : list Earlier.Path) (ps2 : list Path) (s : Spline) :
  map Earlier.splines ps1 = map splines ps2 ->
  match Earlier.push i ps1 s, push this maxSpeed i ps2 s with
  | inl e1, inl e2 => e1 = e2
  | inr r1, inr r2 => map Earlier.splines r1 = map splines r2
  | _, _ => False
  end.
Proof.
  intros H. unfold Earlier.push, push.
  assert (Hlen : List.length ps1 = List.length ps2)
    by (rewrite <- (length_map Earlier.splines ps1), H; apply length_map).
  rewrite Hlen. destruct (List.length ps2 =? 0)%nat.
  - rewrite !map_app, H. reflexivity.
  - assert (Hlast : option_map Earlier.splines (last_of ps1)
                    = option_map splines (last_of ps2)).
    { unfold last_of. rewrite <- !nth_error_map, H, Hlen. reflexivity. }
    destruct (last_of ps1) as [p1|], (last_of ps2) as [p2|];
      try discriminate Hlast; [|reflexivity].
    injection Hlast as Hs. rewrite Hs.
    destruct (last_of (splines p2)) as [l|]; [|reflexivity].
    destruct (_ || _); [reflexivity|].
    rewrite !map_app. cbn [map Earlier.splines splines]. f_equal.
    rewrite !map_removelast. now rewrite H.
Qed.

Lemma earlier_scan (this : LemLibFormatV0_4) (maxSpeed : number)
    (rest : list string) :
  forall (i : nat) (ps1 : list Earlier.Path) (ps2 : list Path),
  map Earlier.splines ps1 = map splines ps2 ->
  match Earlier.scan i rest ps1, scan this maxSpeed i rest ps2 with
  | inl e1, inl e2 => e1 = e2
  | inr r1, inr r2 => map Earlier.splines r1 = map splines r2
  | _, _ => False
  end.
Proof.
  induction rest as [|line rest IH]; intros i ps1 ps2 H; cbn [Earlier.scan scan].
  - exact H.
  - destruct (parse_spline i line) as [e|s]; cbn [bind]; [reflexivity|].
    pose proof (earlier_push this maxSpeed i ps1 ps2 s H) as Hp.
    destruct (Earlier.push i ps1 s) as [e1|r1],
             (push this maxSpeed i ps2 s) as [e2|r2]; cbn [bind];
      try contradiction.
    + exact Hp.
    + now apply IH.
Qed.

(** The two decoders stop with the same error or read the same splines. *)
Lemma earlier_recover_same (this0 : Earlier.LemLibFormatV0_4)
    (this : LemLibFormatV0_4) (text : string) :
  match Earlier.recoverPathFileData this0 text, recoverPathFileData this text with
  | inl e1, inl e2 => e1 = e2
  | inr d1, inr d2 =>
      map Earlier.splines (Earlier.pfd_paths d1) = map splines (paths d2)
      /\ Forall (fun p => to (speedLimit (pc p))
                          = to (Earlier.speedLimit (Earlier.pfd_sc d1)))
           (paths d2)
  | _, _ => False
  end.
Proof.
  unfold Earlier.recoverPathFileData, recoverPathFileData.
  destruct (findIndex _ _) as [i|]; [|reflexivity].
  set (maxSpeed := match nth_error _ (i + 2) with
                   | Some line => Number line
                   | None => NaN
                   end).
  destruct (isNaN maxSpeed); [reflexivity|].
  set (region := lines_from _ _).
  pose proof (earlier_scan this maxSpeed region (i + 4) [] [] eq_refl) as Hs.
  pose proof (scan_speed_limit this maxSpeed (i + 4) region [])
    as Hl.
  destruct (Earlier.scan (i + 4) region []) as [e1|r1],
           (scan this maxSpeed (i + 4) region []) as [e2|r2]; cbn [bind];
    try contradiction.
  - exact Hs.
  - split; [exact Hs|]. exact (Hl r2 (Forall_nil _) eq_refl).
Qed.

(** The configurations in the result of the earlier decoder. *)
Lemma earlier_recover_configs (this0 : Earlier.LemLibFormatV0_4)
    (text : string) (d : Earlier.PathFileData) :
  Earlier.recoverPathFileData this0 text = inr d ->
  exists i l,
    findIndex is_sentinel (split nl text) = Some i
    /\ nth_error (split nl text) (i + 2) = Some l
    /\ Earlier.format d = "LemLib v0.4.x (inch, byte-voltage)"
    /\ Earlier.pfd_gc d = Earlier.GeneralConfigImpl
    /\ Earlier.pfd_sc d
       = Earlier.new_SpeedConfig
           (set_to (Earlier.speedLimit Earlier.SpeedConfigImpl)
              (Math_max (Math_min (Number (toFixed3 (Number l))) (of_Z 127))
                 (of_Z 0)))
           (Earlier.applicationRange Earlier.SpeedConfigImpl)
           (Earlier.transitionRange Earlier.SpeedConfigImpl)
    /\ isNaN (to (Earlier.speedLimit (Earlier.pfd_sc d))) = false
    /\ lt (to (Earlier.speedLimit (Earlier.pfd_sc d))) (of_Z 0) = false
    /\ lt (of_Z 127) (to (Earlier.speedLimit (Earlier.pfd_sc d))) = false.
Proof.
  unfold Earlier.recoverPathFileData.
  change (String "010" EmptyString) with nl.
  change (fun line : string => String.eqb line sentinel) with is_sentinel.
  destruct (findIndex is_sentinel (split nl text)) as [i|] eqn:Hi; [|discriminate].
  destruct (nth_error (split nl text) (i + 2)) as [l|] eqn:Hl; [|discriminate].
  destruct (isNaN (Number l)) eqn:Hn; [discriminate|].
  destruct (Earlier.scan _ _ _) as [e|ps]; cbn [bind]; [discriminate|].
  intros [= <-]. exists i, l.
  cbn [Earlier.format Earlier.pfd_gc Earlier.pfd_sc Earlier.speedLimit set_to to].
  split; [reflexivity|]. split; [exact Hl|]. do 3 (split; [reflexivity|]).
  exact (clamp_bounds _ (Number_toFixed3_number _ Hn)).
Qed.

(** The two encoders write the same text from the same path. *)
Lemma earlier_export_same (this0 : Earlier.LemLibFormatV0_4)
    (app0 : Earlier.MainApp) (this : LemLibFormatV0_4) (app : MainApp)
    (path0 : Earlier.Path) (others : list Earlier.Path) (path : Path) :
  Earlier.paths app0 = path0 :: others ->
  interestedPath app = Some path ->
  Earlier.splines path0 = splines path ->
  Earlier.uol (Earlier.gc app0) = uol (gc this) ->
  to (Earlier.speedLimit (Earlier.sc app0)) = to (speedLimit (pc path)) ->
  Earlier.calculateKnots app0 path0 (Earlier.gc app0) (Earlier.sc app0)
  = calculatePoints app path (gc this) ->
  Earlier.exportPathFileData app0 = exportPathFileData app ->
  Earlier.exportPathFile this0 app0 = exportPathFile this app.
Proof.
  intros Hp0 Hp Hs Hu Hto Hk Hj.
  unfold Earlier.exportPathFile, exportPathFile.
  rewrite Hp0, Hp. cbn [List.length Nat.eqb nth_error].
  now rewrite Hs, Hu, Hto, Hk, Hj.
Qed.

(** The line of the maximum speed in an export. *)
Lemma export_speed_line (this : LemLibFormatV0_4) (app : MainApp)
    (path : Path) (text : string) :
  interestedPath app = Some path ->
  exportPathFile this app = inr text ->
  exists i,
    findIndex is_sentinel (split nl text) = Some i
    /\ nth_error (split nl text) (i + 2)
       = Some (toString (to (speedLimit (pc path)))).
Proof.
  intros Hp He. destruct (export_path this app text He) as (path' & Hp' & Hs).
  rewrite Hp in Hp'. injection Hp' as <-.
  destruct (export_split this app path Hp Hs) as (text' & He' & Hl).
  rewrite He in He'. injection He' as <-.
  set (pre := (map (point_body _) (calculatePoints app path (gc this))
               ++ ghost_lines _ (calculatePoints app path (gc this)))%list) in *.
  exists (List.length pre). split.
  - rewrite Hl. cbn [List.app]. apply findIndex_first; [|reflexivity].
    apply before_sentinel.
  - rewrite Hl, nth_error_app2 by lia.
    now replace (List.length pre + 2 - List.length pre)%nat with 2%nat by lia.
Qed.

(** ** The configuration of a decoded path *)

Section Config.

Variable this : LemLibFormatV0_4.
Variable maxSpeed : number.

(** Every path the loop holds has the configuration of a new path but for
    the upper speed limit. *)
Lemma push_config (i : nat) (ps ps' : list Path) (sp : Spline) :
  Forall (fun p => exists v,
            pc p = new_PathConfig (set_to (speedLimit PathConfigImpl) v)) ps ->
  push this maxSpeed i ps sp = inr ps' ->
  Forall (fun p => exists v,
            pc p = new_PathConfig (set_to (speedLimit PathConfigImpl) v)) ps'.
Proof.
  intros Hps. unfold push.
  destruct (List.length ps =? 0)%nat.
  - intros [= <-]. apply Forall_app. split; [exact Hps|].
    constructor; [|constructor]. eexists. reflexivity.
  - destruct (last_of ps) as [path|] eqn:Hlast; [|discriminate].
    destruct (last_of (splines path)) as [lastSpline|]; [|discriminate].
    destruct (_ || _); [discriminate|]. intros [= <-].
    apply Forall_app. split.
    + rewrite Forall_forall in *. intros p Hp. apply Hps.
      now apply removelast_In.
    + constructor; [|constructor]. cbn [pc].
      rewrite Forall_forall in Hps. apply Hps.
      unfold last_of in Hlast. now apply nth_error_In in Hlast.
Qed.

Lemma scan_config (rest : list string) :
  forall (i : nat) (ps ps' : list Path),
  Forall (fun p => exists v,
            pc p = new_PathConfig (set_to (speedLimit PathConfigImpl) v)) ps ->
  scan this maxSpeed i rest ps = inr ps' ->
  Forall (fun p => exists v,
            pc p = new_PathConfig (set_to (speedLimit PathConfigImpl) v)) ps'.
Proof.
  induction rest as [|line rest IH]; intros i ps ps' Hps; cbn [scan].
  - now intros [= <-].
  - destruct (parse_spline i line) as [e|sp]; cbn [bind]; [discriminate|].
    destruct (push this maxSpeed i ps sp) as [e|ps1] eqn:Hpush; cbn [bind];
      [discriminate|].
    apply IH. eapply push_config; eauto.
Qed.

End Config.

(** ** More of what the decoder guarantees *)

(** X1. A result of the decoder holds the general configuration of the
    format and at most one path: no path when no line lies between the
    fourth line after the sentinel and the last line, and otherwise one path
    with one spline for each of these lines. *)
Theorem decode_one_path (this : LemLibFormatV0_4) (text : string)
    (data : PathFileData) :
  recoverPathFileData this text = inr data ->
  pfd_gc data = gc this
  /\ exists i, findIndex is_sentinel (split nl text) = Some i
     /\ ((paths data = [] /\ (List.length (split nl text) - 1 <= i + 4)%nat)
         \/ exists p, paths data = [p]
              /\ List.length (splines p)
                 = (List.length (split nl text) - 1 - (i + 4))%nat
              /\ (0 < List.length (splines p))%nat).
Proof.
  intros H.
  destruct (recover_outcome this text) as [[_ E]|(i & Hi & [E|[(ps & E & Hinv & Hc)|(k & E & _)]])];
    rewrite E in H; try discriminate H.
  injection H as <-. split; [reflexivity|]. exists i. split; [exact Hi|].
  cbn [paths].
  destruct Hinv as [->|(p & -> & Hne & _)].
  - left. split; [reflexivity|]. cbn in Hc. lia.
  - right. exists p. split; [reflexivity|].
    unfold spline_count in Hc. cbn in Hc. rewrite Nat.add_0_r in Hc.
    split; [exact Hc|]. destruct (splines p); [now destruct Hne|cbn; lia].
Qed.

Lemma decode_one_path_witness :
  exists data,
    recoverPathFileData format0 (text_two "100") = inr data
    /\ pfd_gc data = gc format0
    /\ exists i, findIndex is_sentinel (split nl (text_two "100")) = Some i
       /\ ((paths data = []
            /\ (List.length (split nl (text_two "100")) - 1 <= i + 4)%nat)
           \/ exists p, paths data = [p]
                /\ List.length (splines p)
                   = (List.length (split nl (text_two "100")) - 1 - (i + 4))%nat
                /\ (0 < List.length (splines p))%nat).
Proof.
  destruct (recoverPathFileData format0 (text_two "100")) as [e|data] eqn:E;
    [vm_compute in E; discriminate E|].
  exists data. split; [reflexivity|].
  exact (decode_one_path format0 (text_two "100") data E).
Defined.

(** X2. Every spline of a decoded path has four controls, end points of
    heading 0, and no coordinate that is NaN. *)
Theorem decode_splines_cubic (this : LemLibFormatV0_4) (text : string)
    (data : PathFileData) (p : Path) (s : Spline) :
  recoverPathFileData this text = inr data ->
  In p (paths data) -> In s (splines p) ->
  List.length (controls s) = 4%nat
  /\ heading (first s) = of_Z 0 /\ heading (last s) = of_Z 0
  /\ Forall (fun c => isNaN (x c) = false /\ isNaN (y c) = false) (controls s).
Proof.
  intros H Hp Hs.
  destruct (recover_outcome this text) as [[_ E]|(i & Hi & [E|[(ps & E & Hinv & Hc)|(k & E & _)]])];
    rewrite E in H; try discriminate H.
  injection H as <-. cbn [paths] in Hp.
  destruct Hinv as [->|(q & -> & _ & Hd & _)]; [destruct Hp|].
  destruct Hp as [<-|[]]. rewrite Forall_forall in Hd.
  destruct (Hd s Hs) as (H2 & Hf & Hl & Hn).
  repeat split; trivial. unfold controls. cbn [List.length].
  rewrite length_app, H2. reflexivity.
Qed.

Lemma decode_splines_cubic_witness :
  exists data p s,
    recoverPathFileData format0 (text_two "100") = inr data
    /\ In p (paths data) /\ In s (splines p)
    /\ List.length (controls s) = 4%nat
    /\ heading (first s) = of_Z 0 /\ heading (last s) = of_Z 0
    /\ Forall (fun c => isNaN (x c) = false /\ isNaN (y c) = false) (controls s).
Proof.
  destruct (recoverPathFileData format0 (text_two "100")) as [e|data] eqn:E;
    [vm_compute in E; discriminate E|].
  destruct (paths data) as [|p r] eqn:Ep;
    [vm_compute in E; injection E as <-; discriminate Ep|].
  destruct (splines p) as [|s r'] eqn:Es;
    [vm_compute in E; injection E as <-; injection Ep as <- _; discriminate Es|].
  exists data, p, s. split; [reflexivity|].
  assert (Hp : In p (paths data)) by (rewrite Ep; now left).
  assert (Hs : In s (splines p)) by (rewrite Es; now left).
  split; [exact Hp|]. split; [exact Hs|].
  exact (decode_splines_cubic format0 (text_two "100") data p s E Hp Hs).
Defined.

(** X3. In a decoded path every spline starts where the spline before it
    ends: the coordinates are equal under [===]. *)
Theorem decode_paths_joined (this : LemLibFormatV0_4) (text : string)
    (data : PathFileData) (p : Path) :
  recoverPathFileData this text = inr data ->
  In p (paths data) -> joined (splines p).
Proof.
  intros H Hp.
  destruct (recover_outcome this text) as [[_ E]|(i & Hi & [E|[(ps & E & Hinv & Hc)|(k & E & _)]])];
    rewrite E in H; try discriminate H.
  injection H as <-. cbn [paths] in Hp.
  destruct Hinv as [->|(q & -> & _ & _ & Hj)]; [destruct Hp|].
  now destruct Hp as [<-|[]].
Qed.

Lemma decode_paths_joined_witness :
  exists data p,
    recoverPathFileData format0 (text_two "100") = inr data
    /\ In p (paths data) /\ List.length (splines p) = 2%nat
    /\ joined (splines p).
Proof.
  destruct (recoverPathFileData format0 (text_two "100")) as [e|data] eqn:E;
    [vm_compute in E; discriminate E|].
  destruct (paths data) as [|p r] eqn:Ep;
    [vm_compute in E; injection E as <-; discriminate Ep|].
  exists data, p. split; [reflexivity|].
  assert (Hp : In p (paths data)) by (rewrite Ep; now left).
  split; [exact Hp|]. split.
  - vm_compute in E. injection E as <-. injection Ep as <- _. reflexivity.
  - exact (decode_paths_joined format0 (text_two "100") data p E Hp).
Defined.

(** X4. Every decoded path has the speed limit of a new path but for its
    upper bound: the limits 0 and 127, the step 1 and the lower bound 20,
    whatever the maximum speed of the text. *)
Theorem decode_speed_range (this : LemLibFormatV0_4) (text : string)
    (data : PathFileData) (p : Path) :
  recoverPathFileData this text = inr data -> In p (paths data) ->
  value (minLimit (speedLimit (pc p))) = of_Z 0
  /\ value (maxLimit (speedLimit (pc p))) = of_Z 127
  /\ step (speedLimit (pc p)) = of_Z 1
  /\ from (speedLimit (pc p)) = of_Z 20.
Proof.
  open_recover.
  destruct (findIndex is_sentinel (split nl text)) as [i|]; [|discriminate].
  set (maxSpeed := match nth_error _ (i + 2) with
                   | Some line => Number line
                   | None => NaN
                   end).
  destruct (isNaN maxSpeed); [discriminate|].
  destruct (scan _ _ _ _ _) as [e|ps] eqn:Hscan; cbn [bind]; [discriminate|].
  intros [= <-] Hp. cbn [paths] in Hp.
  pose proof (scan_config this maxSpeed _ _ _ _ (Forall_nil _) Hscan) as H.
  rewrite Forall_forall in H. destruct (H p Hp) as [v ->].
  repeat split.
Qed.

(** With a maximum speed of 10 the recovered range runs from 20 to 10. *)
Lemma decode_speed_range_witness :
  exists data p,
    recoverPathFileData format0 (text_two "10") = inr data
    /\ In p (paths data)
    /\ to (speedLimit (pc p)) = of_Z 10
    /\ value (minLimit (speedLimit (pc p))) = of_Z 0
    /\ value (maxLimit (speedLimit (pc p))) = of_Z 127
    /\ step (speedLimit (pc p)) = of_Z 1
    /\ from (speedLimit (pc p)) = of_Z 20.
Proof.
  destruct (recoverPathFileData format0 (text_two "10")) as [e|data] eqn:E;
    [vm_compute in E; discriminate E|].
  destruct (paths data) as [|p r] eqn:Ep;
    [vm_compute in E; injection E as <-; discriminate Ep|].
  exists data, p. split; [reflexivity|].
  assert (Hp : In p (paths data)) by (rewrite Ep; now left).
  split; [exact Hp|]. split.
  - vm_compute in E. injection E as <-. injection Ep as <- _. reflexivity.
  - exact (decode_speed_range format0 (text_two "10") data p E Hp).
Defined.

(** X5. When the decoder throws, it throws the missing-sentinel error and no
    line is [endData], or the maximum-speed error and some line is
    [endData], or the spline error that names line [k + 1], for an index [k]
    from the fourth line after the sentinel to the last line but one. *)
Theorem decode_failures (this : LemLibFormatV0_4) (text : string) (e : Error) :
  recoverPathFileData this text = inl e ->
  (e = MissingSentinel /\ ~ In "endData" (split nl text))
  \/ (e = InvalidMaxSpeed /\ In "endData" (split nl text))
  \/ exists i k,
       findIndex is_sentinel (split nl text) = Some i
       /\ (i + 4 <= k)%nat /\ (k + 1 < List.length (split nl text))%nat
       /\ e = new_Error ("Invalid file format, unable to parse spline at line "
                         ++ digits_of_nat (k + 1)).
Proof.
  intros H.
  destruct (recover_outcome this text) as [[Hi E]|(i & Hi & [E|[(ps & E & _)|(k & E & Hk)]])];
    rewrite E in H; try discriminate H; injection H as <-.
  - left. split; [reflexivity|]. intros Hin.
    apply findIndex_sentinel_None in Hi. now apply Hi.
  - right. left. split; [reflexivity|]. now apply (findIndex_sentinel_Some _ i).
  - right. right. exists i, k. now repeat split.
Qed.

Lemma decode_failures_witness :
  exists e,
    recoverPathFileData format0 text_gap = inl e
    /\ ((e = MissingSentinel /\ ~ In "endData" (split nl text_gap))
        \/ (e = InvalidMaxSpeed /\ In "endData" (split nl text_gap))
        \/ exists i k, findIndex is_sentinel (split nl text_gap) = Some i
             /\ (i + 4 <= k)%nat /\ (k + 1 < List.length (split nl text_gap))%nat
             /\ e = new_Error ("Invalid file format, unable to parse spline at line "
                               ++ digits_of_nat (k + 1))).
Proof.
  destruct (recoverPathFileData format0 text_gap) as [e|data] eqn:E;
    [|vm_compute in E; discriminate E].
  exists e. split; [reflexivity|].
  exact (decode_failures format0 text_gap e E).
Defined.

(** X6. The decoder returns a result for exactly the texts that [accepted]
    tells from their lines: a line [endData], a number two lines after it,
    and from the fourth line after it to the last line but one only lines of
    eight numbers which, rounded to three decimals, start with the two
    numbers that the line before ends with. *)
Theorem decode_accepts (this : LemLibFormatV0_4) (text : string) :
  accepted text = true <-> exists data, recoverPathFileData this text = inr data.
Proof.
  unfold accepted. open_recover. fold is_sentinel.
  destruct (findIndex is_sentinel (split nl text)) as [i|];
    [|split; [discriminate|now intros [d Hd]]].
  destruct (nth_error (split nl text) (i + 2)) as [l|];
    [|split; [discriminate|now intros [d Hd]]].
  destruct (isNaN (Number l)); cbn [negb andb];
    [split; [discriminate|now intros [d Hd]]|].
  change (chained None) with (chained (end_of [])).
  rewrite (scan_chained this (Number l) _ (i + 4) [] (or_introl eq_refl)).
  split.
  - intros [ps ->]. cbn [bind]. eauto.
  - destruct (scan _ _ _ _ _) as [e|ps]; cbn [bind]; [now intros [d Hd]|eauto].
Qed.

(** X7. Lines put before a text, none of them [endData], change no result:
    the longer text decodes to some data exactly when the text itself does.
    *)
Theorem decode_ignores_lines_before (this : LemLibFormatV0_4)
    (pre : list string) (rest : string) (data : PathFileData) :
  Forall one_line pre -> ~ In "endData" pre ->
  (recoverPathFileData this (unlines pre rest) = inr data
   <-> recoverPathFileData this rest = inr data).
Proof.
  intros Hpre Hno.
  assert (Hs : split nl (unlines pre rest) = (pre ++ split nl rest)%list)
    by now apply split_lines_then.
  destruct (findIndex is_sentinel (split nl rest)) as [i|] eqn:Hi.
  - assert (Hi' : findIndex is_sentinel (split nl (unlines pre rest))
                  = Some (List.length pre + i)%nat)
      by now rewrite Hs, findIndex_skip, Hi.
    assert (Hn : nth_error (split nl (unlines pre rest)) (List.length pre + i + 2)
                 = nth_error (split nl rest) (i + 2)).
    { rewrite Hs, nth_error_app2 by lia. f_equal. lia. }
    destruct (nth_error (split nl rest) (i + 2)) as [l|] eqn:Hl.
    + destruct (isNaN (Number l)) eqn:Hnan.
      * open_recover. rewrite Hi', Hn, Hi, Hl, Hnan. tauto.
      * rewrite (recover_after_header this _ _ l Hi' Hn Hnan).
        rewrite (recover_after_header this _ _ l Hi Hl Hnan).
        rewrite Hs.
        replace (List.length pre + i + 4)%nat with (List.length pre + (i + 4))%nat
          by lia.
        rewrite lines_from_skip.
        set (region := lines_from (split nl rest) (i + 4)).
        split.
        -- destruct (scan this (Number l) (List.length pre + (i + 4)) region [])
             as [e|ps] eqn:E; cbn [bind]; [discriminate|].
           intros [= <-].
           now rewrite (scan_index this (Number l) region _ (i + 4)%nat _ _ E).
        -- destruct (scan this (Number l) (i + 4) region []) as [e|ps] eqn:E;
             cbn [bind]; [discriminate|].
           intros [= <-].
           now rewrite (scan_index this (Number l) region _
                          (List.length pre + (i + 4))%nat _ _ E).
    + open_recover. rewrite Hi', Hn, Hi, Hl. tauto.
  - open_recover. rewrite Hs, findIndex_skip, Hi by assumption. cbn. tauto.
Qed.

Lemma decode_ignores_lines_before_witness :
  exists data,
    recoverPathFileData format0
      (unlines ["10, 0, 50"; "14, 0, 50"; "34, 0, 0"] (text_two "100")) = inr data
    /\ recoverPathFileData format0 (text_two "100") = inr data.
Proof.
  destruct (recoverPathFileData format0 (text_two "100")) as [e|data] eqn:E;
    [vm_compute in E; discriminate E|].
  exists data. split; [|reflexivity].
  apply (decode_ignores_lines_before format0
           ["10, 0, 50"; "14, 0, 50"; "34, 0, 0"] (text_two "100") data).
  - repeat (apply Forall_cons; [reflexivity|]). apply Forall_nil.
  - vm_compute. intuition discriminate.
  - exact E.
Defined.

(** X8. Of the lines from the sentinel on, the decoder reads the line of the
    maximum speed and the lines of the splines only: two texts that differ
    in the line after the sentinel, in the third line after it and in the
    last line have the same outcome, result or error. *)
Theorem decode_reads_speed_and_splines (this : LemLibFormatV0_4)
    (d1 d2 speed m1 m2 : string) (body : list string) (t1 t2 : string) :
  one_line d1 -> one_line d2 -> one_line speed -> one_line m1 -> one_line m2 ->
  Forall one_line body -> one_line t1 -> one_line t2 ->
  recoverPathFileData this (unlines ("endData" :: d1 :: speed :: m1 :: body) t1)
  = recoverPathFileData this (unlines ("endData" :: d2 :: speed :: m2 :: body) t2).
Proof.
  intros Hd1 Hd2 Hs Hm1 Hm2 Hb Ht1 Ht2.
  assert (E : forall d m t, one_line d -> one_line m -> one_line t ->
    split nl (unlines ("endData" :: d :: speed :: m :: body) t)
    = ("endData" :: d :: speed :: m :: body ++ [t])%list).
  { intros d m t Hd Hm Ht. apply (split_unlines (_ :: _ :: _ :: _ :: body) t); trivial.
    repeat (apply Forall_cons; trivial). reflexivity. }
  apply (recover_by_lines this _ _ 0); rewrite ?E by trivial; try reflexivity.
  transitivity body.
  - exact (lines_from_body ["endData"; d1; speed; m1] body t1).
  - symmetry. exact (lines_from_body ["endData"; d2; speed; m2] body t2).
Qed.

Lemma decode_reads_speed_and_splines_witness :
  recoverPathFileData format0
    (unlines ["endData"; "200"; "100"; "200"; line_a; line_b] "")
  = recoverPathFileData format0
      (unlines ["endData"; "deceleration"; "100"; ""; line_a; line_b]
         "#PATH.JERRYIO-DATA {}").
Proof.
  apply (decode_reads_speed_and_splines format0 "200" "deceleration" "100"
           "200" "" [line_a; line_b] "" "#PATH.JERRYIO-DATA {}");
    try reflexivity.
  repeat (apply Forall_cons; [reflexivity|]). apply Forall_nil.
Defined.

(** ** More of what the encoder guarantees *)

(** X9. When the encoder returns a text and the metadata holds no newline,
    the lines of the text are the lines of the sampled points, the line of
    the ghost point when more than one point is sampled, [endData], [200],
    the upper speed limit, [200], one line for each spline of four or of two
    controls, in their order and with no line for a spline of another size,
    and the line of the metadata. *)
Theorem export_lines_of (this : LemLibFormatV0_4) (app : MainApp)
    (text : string) :
  exportPathFile this app = inr text ->
  one_line (exportPathFileData app) ->
  exists path,
    interestedPath app = Some path
    /\ let uc := new_UnitConverter (uol (gc this)) Inch in
       let points := calculatePoints app path (gc this) in
       let written := filter written_spline (splines path) in
       split nl text
       = (map (point_body uc) points ++ ghost_lines uc points
          ++ ["endData"; "200"; toString (to (speedLimit (pc path))); "200"]
          ++ map (spline_line uc) written
          ++ [("#PATH.JERRYIO-DATA " ++ exportPathFileData app)%string])%list
       /\ List.length (split nl text)
          = (List.length points + (if (1 <? List.length points)%nat then 1 else 0)
             + 4 + List.length written + 1)%nat.
Proof.
  intros He Hj. destruct (export_path this app text He) as (path & Hp & Hs).
  exists path. split; [exact Hp|]. intros uc points written.
  destruct (export_lines_written this app path Hp Hs Hj) as (text' & He' & Hl).
  rewrite He in He'. injection He' as <-. fold uc points written in Hl.
  rewrite Hl, <- app_assoc. split; [reflexivity|].
  rewrite !length_app, !length_map, length_ghost_lines. cbn [List.length]. lia.
Qed.

Lemma export_lines_of_witness :
  exists text path,
    exportPathFile format_cm (app_with path_three points_two) = inr text
    /\ interestedPath (app_with path_three points_two) = Some path
    /\ List.length (split nl text) = 10%nat
    /\ let uc := new_UnitConverter (uol (gc format_cm)) Inch in
       let points :=
         calculatePoints (app_with path_three points_two) path (gc format_cm) in
       let written := filter written_spline (splines path) in
       split nl text
       = (map (point_body uc) points ++ ghost_lines uc points
          ++ ["endData"; "200"; toString (to (speedLimit (pc path))); "200"]
          ++ map (spline_line uc) written
          ++ [("#PATH.JERRYIO-DATA "
               ++ exportPathFileData (app_with path_three points_two))%string])%list
       /\ List.length (split nl text)
          = (List.length points + (if (1 <? List.length points)%nat then 1 else 0)
             + 4 + List.length written + 1)%nat.
Proof.
  destruct (exportPathFile format_cm (app_with path_three points_two))
    as [e|text] eqn:E; [vm_compute in E; discriminate E|].
  destruct (export_lines_of format_cm (app_with path_three points_two) text E
              eq_refl) as (path & Hp & H).
  exists text, path. split; [reflexivity|]. split; [exact Hp|].
  split; [|exact H].
  vm_compute in E. injection E as <-. vm_compute. reflexivity.
Defined.

(** X10. The decoder never throws the missing-sentinel error on a text that
    the encoder returned, and it throws the maximum-speed error on it
    exactly when the upper speed limit of the path is NaN. *)
Theorem export_decode_header (this : LemLibFormatV0_4) (app : MainApp)
    (text : string) :
  exportPathFile this app = inr text ->
  exists path,
    interestedPath app = Some path
    /\ recoverPathFileData this text <> inl MissingSentinel
    /\ (recoverPathFileData this text = inl InvalidMaxSpeed
        <-> isNaN (to (speedLimit (pc path))) = true).
Proof.
  intros He. destruct (export_path this app text He) as (path & Hp & Hs).
  exists path. split; [exact Hp|].
  destruct (export_split this app path Hp Hs) as (text' & He' & Hl).
  rewrite He in He'. injection He' as <-.
  set (uc := new_UnitConverter (uol (gc this)) Inch) in *.
  set (pre := (map (point_body uc) (calculatePoints app path (gc this))
               ++ ghost_lines uc (calculatePoints app path (gc this)))%list) in *.
  set (TO := to (speedLimit (pc path))) in *.
  assert (Hi : findIndex is_sentinel (split nl text) = Some (List.length pre)).
  { rewrite Hl. cbn [List.app]. apply findIndex_first; [|reflexivity].
    apply before_sentinel. }
  assert (Hn : nth_error (split nl text) (List.length pre + 2) = Some (toString TO)).
  { rewrite Hl, nth_error_app2 by lia.
    now replace (List.length pre + 2 - List.length pre)%nat with 2%nat by lia. }
  destruct (isNaN TO) eqn:Hto.
  - assert (E : recoverPathFileData this text = inl InvalidMaxSpeed).
    { open_recover. rewrite Hi, Hn. destruct TO; try discriminate Hto. reflexivity. }
    rewrite E. split; [discriminate|]. split; reflexivity.
  - rewrite (recover_after_header this text _ _ Hi Hn
               (Number_toString_number TO Hto)).
    destruct (scan_invariant this (Number (toString TO))
                (lines_from (split nl text) (List.length pre + 4))
                (List.length pre + 4) [] (or_introl eq_refl))
      as [(ps & -> & _)|(k & -> & _)]; cbn [bind].
    + split; [discriminate|]. split; discriminate.
    + split; [intros [= H]; now apply (proj1 (error_not_header k))|].
      split; [intros [= H]; now apply (proj2 (error_not_header k))|discriminate].
Qed.

Lemma export_decode_header_witness :
  exists text path,
    exportPathFile format_cm (app_with path_three points_two) = inr text
    /\ interestedPath (app_with path_three points_two) = Some path
    /\ recoverPathFileData format_cm text <> inl MissingSentinel
    /\ (recoverPathFileData format_cm text = inl InvalidMaxSpeed
        <-> isNaN (to (speedLimit (pc path))) = true).
Proof.
  destruct (exportPathFile format_cm (app_with path_three points_two))
    as [e|text] eqn:E; [vm_compute in E; discriminate E|].
  destruct (export_decode_header format_cm (app_with path_three points_two)
              text E) as (path & H).
  exists text, path. split; [reflexivity|exact H].
Defined.

(** X11. For a path with at least one spline, whose splines of four or two
    controls share their end points and have finite coordinates, and an
    upper speed limit that is a number, the export decodes to these splines
    only: to no path when there is none, and otherwise to one path of the
    splines as [decoded] gives them. *)
Theorem encode_decode_written (this : LemLibFormatV0_4) (app : MainApp)
    (path : Path) :
  interestedPath app = Some path ->
  splines path <> [] ->
  continuous (splines (written_path path)) ->
  Forall (fun s => finite_controls s = true) (splines (written_path path)) ->
  isNaN (to (speedLimit (pc path))) = false ->
  one_line (exportPathFileData app) ->
  exists text,
    exportPathFile this app = inr text
    /\ recoverPathFileData this text
       = inr (new_PathFileData (gc this)
                match splines (written_path path) with
                | [] => []
                | _ => [decoded_path this (new_UnitConverter (uol (gc this)) Inch)
                          (written_path path)]
                end).
Proof.
  intros Hp Hs Hc Hf Hto Hj.
  apply export_recover_written; trivial.
  - now apply written_rereads_finite.
  - now apply Number_toString_number.
Qed.

(** A spline of three controls between a straight and a cubic spline is
    lost. *)
Lemma encode_decode_written_witness :
  exists text,
    exportPathFile format_cm (app_with path_three points_two) = inr text
    /\ recoverPathFileData format_cm text
       = inr (new_PathFileData (gc format_cm)
                match splines (written_path path_three) with
                | [] => []
                | _ => [decoded_path format_cm
                          (new_UnitConverter (uol (gc format_cm)) Inch)
                          (written_path path_three)]
                end).
Proof.
  apply (encode_decode_written format_cm (app_with path_three points_two)
           path_three).
  - reflexivity.
  - discriminate.
  - vm_compute. split; [reflexivity|exact I].
  - vm_compute. repeat constructor.
  - reflexivity.
  - reflexivity.
Defined.

(** X12. The encoder does not compare the ends of the splines: a path on
    which the spline [b] does not start where [a] before it ends, once both
    are converted and rounded, is exported, and the decoder refuses the text
    with the spline error at the line of [b]. *)
Theorem export_discontinuous_refused (this : LemLibFormatV0_4) (app : MainApp)
    (path : Path) (before : list Spline) (a b : Spline) (after : list Spline) :
  interestedPath app = Some path ->
  splines path = (before ++ a :: b :: after)%list ->
  Forall two_or_four (splines path) ->
  continuous (before ++ [a]) ->
  Forall (fun s => finite_controls s = true) (before ++ [a; b]) ->
  gap (new_UnitConverter (uol (gc this)) Inch) a b = true ->
  isNaN (to (speedLimit (pc path))) = false ->
  one_line (exportPathFileData app) ->
  let points := calculatePoints app path (gc this) in
  exists text,
    exportPathFile this app = inr text
    /\ recoverPathFileData this text
       = inl (error (List.length points
                     + (if (1 <? List.length points)%nat then 1 else 0)
                     + 4 + List.length before + 1)).
Proof.
  intros Hp Hss H4 Hc Hf Hgap Hto Hj points.
  assert (Hs : splines path <> []) by (rewrite Hss; now destruct before).
  destruct (export_lines this app path Hp Hs H4 Hj) as (text & Het & Hlines).
  exists text. split; [exact Het|].
  set (uc := new_UnitConverter (uol (gc this)) Inch) in *.
  fold points in Hlines.
  set (pre := (map (point_body uc) points ++ ghost_lines uc points)%list) in *.
  set (TO := toString (to (speedLimit (pc path)))) in *.
  set (meta := "#PATH.JERRYIO-DATA " ++ exportPathFileData app) in *.
  assert (Hpre : List.length pre
                 = (List.length points
                    + (if (1 <? List.length points)%nat then 1 else 0))%nat).
  { unfold pre. now rewrite length_app, length_map, length_ghost_lines. }
  rewrite <- Hpre.
  assert (Hi : findIndex is_sentinel (split nl text) = Some (List.length pre)).
  { rewrite Hlines. cbn [List.app]. apply findIndex_first; [|reflexivity].
    apply before_sentinel. }
  assert (Hl : nth_error (split nl text) (List.length pre + 2) = Some TO).
  { rewrite Hlines, nth_error_app2 by lia.
    now replace (List.length pre + 2 - List.length pre)%nat with 2%nat by lia. }
  rewrite (recover_after_header this text _ TO Hi Hl
             (Number_toString_number _ Hto)).
  replace (lines_from (split nl text) (List.length pre + 4))
    with (map (spline_line uc) (splines path)).
  2:{ rewrite Hlines. symmetry.
      pose proof (lines_from_body (pre ++ ["endData"; "200"; TO; "200"])
                    (map (spline_line uc) (splines path)) meta) as H.
      rewrite length_app, <- app_assoc in H. exact H. }
  rewrite Hss in H4 |- *.
  replace (before ++ a :: b :: after)%list
    with ((before ++ [a]) ++ b :: after)%list in * by now rewrite <- app_assoc.
  apply Forall_app in H4 as [H4a H4b].
  inversion H4b as [|? ? H4b0 _]; subst.
  replace (before ++ [a; b])%list with ((before ++ [a]) ++ [b])%list in Hf
    by now rewrite <- app_assoc.
  apply Forall_app in Hf as [Hfa Hfb]. inversion Hfb as [|? ? Hfb0 _]; subst.
  assert (Hra : Forall (fun s => spline_rereads uc s = true) (before ++ [a])).
  { rewrite Forall_forall in *. intros s Hin.
    apply spline_rereads_finite; auto. }
  rewrite map_app, scan_app.
  rewrite (scan_export this (Number TO) uc _ (before ++ [a]));
    trivial; [|now destruct before].
  cbn [bind map scan].
  rewrite (parse_spline_line uc _ b H4b0
             (spline_rereads_finite uc b H4b0 Hfb0)).
  cbn [bind]. unfold push at 1.
  change (List.length [?p] =? 0)%nat with false.
  change (last_of [?p]) with (Some p). cbv iota. cbn [splines].
  rewrite map_app. cbn [map]. rewrite last_of_snoc.
  unfold gap in Hgap. rewrite Hgap. cbn [bind].
  rewrite length_map, length_app. cbn [List.length].
  do 2 f_equal. lia.
Qed.

Lemma export_discontinuous_refused_witness :
  exists text,
    exportPathFile format0 (app_with path_apart points_two) = inr text
    /\ recoverPathFileData format0 text
       = inl (new_Error "Invalid file format, unable to parse spline at line 9").
Proof.
  apply (export_discontinuous_refused format0 (app_with path_apart points_two)
           path_apart [] straight apart []).
  - reflexivity.
  - reflexivity.
  - apply Forall_cons; [left; reflexivity|].
    apply Forall_cons; [right; reflexivity|]. apply Forall_nil.
  - exact I.
  - vm_compute. repeat constructor.
  - vm_compute. reflexivity.
  - reflexivity.
  - reflexivity.
Defined.

(** ** The earlier revision beside the current one *)

(** X13. On every text the earlier and the current decoder throw the same
    error, or both return a result; the results have the same splines, path
    by path, and the upper speed limit of every path of the current result
    is the one that the speed configuration of the earlier result holds. *)
Theorem earlier_decode_agrees (this0 : Earlier.LemLibFormatV0_4)
    (this : LemLibFormatV0_4) (text : string) :
  match Earlier.recoverPathFileData this0 text, recoverPathFileData this text with
  | inl e1, inl e2 => e1 = e2
  | inr d1, inr d2 =>
      map Earlier.splines (Earlier.pfd_paths d1) = map splines (paths d2)
      /\ Forall (fun p => to (speedLimit (pc p))
                          = to (Earlier.speedLimit (Earlier.pfd_sc d1)))
           (paths d2)
  | _, _ => False
  end.
Proof. exact (earlier_recover_same this0 this text). Qed.

(** X14. A result of the earlier decoder holds the name of the format, a new
    general configuration and a new speed configuration with, as upper speed
    limit, the maximum speed of the text rounded to three decimals and
    brought into [0, 127] by [Math.min] and [Math.max]; this holds also when
    the text has no spline line. *)
Theorem earlier_decode_configs (this0 : Earlier.LemLibFormatV0_4)
    (text : string) (d : Earlier.PathFileData) :
  Earlier.recoverPathFileData this0 text = inr d ->
  exists i l,
    findIndex is_sentinel (split nl text) = Some i
    /\ nth_error (split nl text) (i + 2) = Some l
    /\ Earlier.format d = "LemLib v0.4.x (inch, byte-voltage)"
    /\ Earlier.pfd_gc d = Earlier.GeneralConfigImpl
    /\ Earlier.pfd_sc d
       = Earlier.new_SpeedConfig
           (set_to (Earlier.speedLimit Earlier.SpeedConfigImpl)
              (Math_max (Math_min (Number (toFixed3 (Number l))) (of_Z 127))
                 (of_Z 0)))
           (Earlier.applicationRange Earlier.SpeedConfigImpl)
           (Earlier.transitionRange Earlier.SpeedConfigImpl)
    /\ isNaN (to (Earlier.speedLimit (Earlier.pfd_sc d))) = false
    /\ lt (to (Earlier.speedLimit (Earlier.pfd_sc d))) (of_Z 0) = false
    /\ lt (of_Z 127) (to (Earlier.speedLimit (Earlier.pfd_sc d))) = false.
Proof. exact (earlier_recover_configs this0 text d). Qed.

(** A text of the header alone, with a maximum speed of 130: no path, and
    the upper speed limit 127. *)
Lemma earlier_decode_configs_witness :
  exists d,
    Earlier.recoverPathFileData earlier_format0 (header "130") = inr d
    /\ Earlier.pfd_paths d = []
    /\ to (Earlier.speedLimit (Earlier.pfd_sc d)) = of_Z 127.
Proof.
  destruct (Earlier.recoverPathFileData earlier_format0 (header "130"))
    as [e|d] eqn:E; [vm_compute in E; discriminate E|].
  exists d. split; [reflexivity|].
  destruct (earlier_decode_configs earlier_format0 (header "130") d E)
    as (i & l & Hi & Hl & _ & _ & Hsc & _).
  vm_compute in Hi. injection Hi as <-.
  vm_compute in Hl. injection Hl as <-.
  split.
  - vm_compute in E. injection E as <-. reflexivity.
  - rewrite Hsc. vm_compute. reflexivity.
Defined.

(** X15. The earlier encoder writes the first path of the application, with
    the unit and the speed configuration of the application; its outcome is
    that of the current encoder for a path of interest with the same
    splines, unit, upper speed limit, sampled points and metadata. *)
Theorem earlier_export_agrees (this0 : Earlier.LemLibFormatV0_4)
    (app0 : Earlier.MainApp) (this : LemLibFormatV0_4) (app : MainApp)
    (path0 : Earlier.Path) (others : list Earlier.Path) (path : Path) :
  Earlier.paths app0 = path0 :: others ->
  interestedPath app = Some path ->
  Earlier.splines path0 = splines path ->
  Earlier.uol (Earlier.gc app0) = uol (gc this) ->
  to (Earlier.speedLimit (Earlier.sc app0)) = to (speedLimit (pc path)) ->
  Earlier.calculateKnots app0 path0 (Earlier.gc app0) (Earlier.sc app0)
  = calculatePoints app path (gc this) ->
  Earlier.exportPathFileData app0 = exportPathFileData app ->
  Earlier.exportPathFile this0 app0 = exportPathFile this app.
Proof. exact (earlier_export_same this0 app0 this app path0 others path). Qed.

Lemma earlier_export_agrees_witness :
  Earlier.exportPathFile earlier_format0 (earlier_app points_two)
  = exportPathFile format0 (app_with path_bend points_two).
Proof.
  apply (earlier_export_agrees earlier_format0 (earlier_app points_two)
           format0 (app_with path_bend points_two)
           (Earlier.new_Path_with (splines path_bend))
           [Earlier.new_Path straight] path_bend); reflexivity.
Defined.

(** X16. In the earlier revision, the export of an application whose first
    path has a spline, written splines that share their end points and have
    finite coordinates, and an upper speed limit that is a number, is
    decoded to the written splines of that path and to the upper speed limit
    read back and brought into [0, 127]. *)
Theorem earlier_encode_decode (this0 : Earlier.LemLibFormatV0_4)
    (app0 : Earlier.MainApp) (path0 : Earlier.Path)
    (others : list Earlier.Path) :
  Earlier.paths app0 = path0 :: others ->
  Earlier.splines path0 <> [] ->
  continuous (filter written_spline (Earlier.splines path0)) ->
  Forall (fun s => finite_controls s = true)
    (filter written_spline (Earlier.splines path0)) ->
  isNaN (to (Earlier.speedLimit (Earlier.sc app0))) = false ->
  one_line (Earlier.exportPathFileData app0) ->
  exists text d,
    Earlier.exportPathFile this0 app0 = inr text
    /\ Earlier.recoverPathFileData this0 text = inr d
    /\ map Earlier.splines (Earlier.pfd_paths d)
       = match filter written_spline (Earlier.splines path0) with
         | [] => []
         | ss => [map (decoded (new_UnitConverter
                                  (Earlier.uol (Earlier.gc app0)) Inch)) ss]
         end
    /\ to (Earlier.speedLimit (Earlier.pfd_sc d))
       = Math_max
           (Math_min
              (Number (toFixed3 (Number (toString
                 (to (Earlier.speedLimit (Earlier.sc app0)))))))
              (of_Z 127))
           (of_Z 0).
Proof.
  intros Hp0 Hs Hc Hf Hto Hj.
  set (this := new_LemLibFormatV0_4 false EmptyString
                 (new_GeneralConfig (of_Z 12) (of_Z 12) true
                    (Earlier.uol (Earlier.gc app0)) (of_Z 2) (of_Z 2))).
  set (path := new_Path_with (new_PathConfig (Earlier.speedLimit (Earlier.sc app0)))
                 (Earlier.splines path0)).
  set (app := new_MainApp (Some path)
                (fun _ _ => Earlier.calculateKnots app0 path0 (Earlier.gc app0)
                              (Earlier.sc app0))
                (Earlier.exportPathFileData app0)).
  destruct (export_recover_written this app path eq_refl Hs Hc
              (written_rereads_finite _ path Hf)
              (Number_toString_number _ Hto) Hj)
    as (text & He & Hd).
  assert (He0 : Earlier.exportPathFile this0 app0 = inr text).
  { rewrite <- He.
    now apply (earlier_export_same this0 app0 this app path0 others path). }
  pose proof (earlier_recover_same this0 this text) as Ha.
  rewrite Hd in Ha.
  destruct (Earlier.recoverPathFileData this0 text) as [e|d] eqn:Hd0;
    [contradiction|].
  exists text, d. split; [exact He0|]. split; [exact Hd0|].
  destruct Ha as [Ha _]. cbn [paths written_path splines] in Ha.
  split.
  - rewrite Ha. unfold path, written_path, decoded_path. cbn [splines].
    destruct (filter written_spline (Earlier.splines path0)); reflexivity.
  - destruct (earlier_recover_configs this0 text d Hd0)
      as (i & l & Hi & Hl & _ & _ & Hsc & _).
    destruct (export_speed_line this app path text eq_refl He)
      as (i' & Hi' & Hl').
    rewrite Hi in Hi'. injection Hi' as <-.
    rewrite Hl in Hl'. injection Hl' as ->.
    rewrite Hsc. reflexivity.
Qed.

Lemma earlier_encode_decode_witness :
  exists text d,
    Earlier.exportPathFile earlier_format0 (earlier_app points_two) = inr text
    /\ Earlier.recoverPathFileData earlier_format0 text = inr d
    /\ map Earlier.splines (Earlier.pfd_paths d)
       = match filter written_spline (splines path_bend) with
         | [] => []
         | ss => [map (decoded (new_UnitConverter
                                  (Earlier.uol (Earlier.gc (earlier_app points_two)))
                                  Inch)) ss]
         end
    /\ to (Earlier.speedLimit (Earlier.pfd_sc d))
       = Math_max
           (Math_min
              (Number (toFixed3 (Number (toString
                 (to (Earlier.speedLimit (Earlier.sc (earlier_app points_two))))))))
              (of_Z 127))
           (of_Z 0).
Proof.
  apply (earlier_encode_decode earlier_format0 (earlier_app points_two)
           (Earlier.new_Path_with (splines path_bend))
           [Earlier.new_Path straight]).
  - reflexivity.
  - discriminate.
  - vm_compute. split; [reflexivity|exact I].
  - vm_compute. repeat constructor.
  - reflexivity.
  - reflexivity.
Defined.
